(** * matrix_ncurses.c : a shallow embedding of the "digital rain" program

    The development follows the single source file [matrix_ncurses.c]:

    - machine integers ([int], [uint32_t], [uint64_t]) are mathematical
      integers with the C conversions written out; an operation whose
      behaviour the C standard leaves undefined (signed overflow, [% 0],
      an out-of-range conversion from [double] to [int]) has no result;
    - [double] is IEEE-754 binary64, through the executable specification
      [SpecFloat] of the standard library ([prec = 53], [emax = 1024]);
    - the static state of [rnd32] is threaded explicitly;
    - the terminal library is a trace of events, and what the terminal and
      the allocator answer is read from an explicit environment. *)

From Stdlib Require Import ZArith Lia Bool String List.
From Stdlib Require Import SpecFloat.
From stdpp Require Import base list.

Local Open Scope Z_scope.

(** ** Machine integers *)

Module CInt.

Definition INT_MIN : Z := - 2 ^ 31.
Definition INT_MAX : Z := 2 ^ 31 - 1.
Definition UINT32_MAX : Z := 2 ^ 32 - 1.

Definition in_int (z : Z) : bool := (INT_MIN <=? z) && (z <=? INT_MAX).

(** Result of a signed [int] operation: undefined when it overflows. *)
Definition chk (z : Z) : option Z := if in_int z then Some z else None.

(** [(uint32_t) n] for an [int] or a [uint64_t] [n]. *)
Definition to_u32 (z : Z) : Z := z mod 2 ^ 32.

(** [(uint64_t)] truncation. *)
Definition to_u64 (z : Z) : Z := z mod 2 ^ 64.

(** [(int) u] for a [uint32_t] [u]: implementation-defined above
    [INT_MAX]; gcc and clang reduce modulo [2^32]. *)
Definition u32_to_int (u : Z) : Z := if u <=? INT_MAX then u else u - 2 ^ 32.

End CInt.
Import CInt.

(** ** IEEE-754 binary64 *)

Module Double.

Definition prec : Z := 53.
Definition emax : Z := 1024.

Definition double : Type := spec_float.

Definition add : double -> double -> double := SFadd prec emax.
Definition mul : double -> double -> double := SFmul prec emax.
Definition div : double -> double -> double := SFdiv prec emax.
Definition ltb : double -> double -> bool := SFltb.
Definition leb : double -> double -> bool := SFleb.
Definition valid : double -> bool := valid_binary prec emax.

(** Conversion of an integer to [double] (exact below [2^53]). *)
Definition of_Z (z : Z) : double := binary_normalize prec emax z 0 false.

(** The literals of the program. *)
Definition d0 : double := S754_zero false.
Definition d1 : double := S754_finite false 4503599627370496 (-52).
Definition d0_4 : double := S754_finite false 7205759403792794 (-54).
Definition d1_2 : double := S754_finite false 5404319552844595 (-52).
Definition d200 : double := S754_finite false 7036874417766400 (-45).
Definition dUINT32_MAX : double := S754_finite false 9007199252643840 (-21).

(** [(int) x]: truncation toward zero; undefined when the truncated
    value is not an [int] (C11 6.3.1.4), so also for infinities and NaN. *)
Definition trunc (x : double) : option Z :=
  match x with
  | S754_zero _ => Some 0
  | S754_finite s m e =>
      let a := match e with
               | Zneg p => Z.shiftr (Zpos m) (Zpos p)
               | _ => Z.shiftl (Zpos m) e
               end in
      Some (if s then - a else a)
  | _ => None
  end.

Definition to_int (x : double) : option Z :=
  match trunc x with
  | Some z => chk z
  | None => None
  end.

End Double.
Import Double.

(** ** The random helper *)

Module Rng.

(** The static [s] of [rnd32], with the value [time(NULL) ^ &s] that the
    first call reads when [s] is still zero. *)
Record t : Type := mk { s : Z; entropy : Z }.

Definition xorshift (s0 : Z) : Z :=
  let s1 := Z.lxor s0 (to_u64 (Z.shiftl s0 7)) in
  let s2 := Z.lxor s1 (Z.shiftr s1 9) in
  Z.lxor s2 (to_u64 (Z.shiftl s2 8)).

Definition seeded (g : t) : Z :=
  if s g =? 0 then Z.lor (to_u64 (entropy g)) 1 else s g.

Definition rnd32 (g : t) : Z * t :=
  let s' := xorshift (seeded g) in
  (to_u32 s', mk s' (entropy g)).

End Rng.

(** ** Computations: the RNG state is threaded, undefined behaviour aborts *)

Definition M (A : Type) : Type := Rng.t -> option (A * Rng.t).

Definition ret {A} (a : A) : M A := fun g => Some (a, g).

Definition bind {A B} (m : M A) (k : A -> M B) : M B :=
  fun g => match m g with
           | Some (a, g') => k a g'
           | None => None
           end.

Definition lift {A} (o : option A) : M A :=
  fun g => match o with Some a => Some (a, g) | None => None end.

Declare Scope comp_scope.
Delimit Scope comp_scope with comp.
Notation "'let*' x ':=' m 'in' k" := (bind m (fun x => k))
  (at level 10, x name, m at level 100, k at level 200) : comp_scope.
Local Open Scope comp_scope.

Definition rnd32 : M Z := fun g => Some (Rng.rnd32 g).

(** [irand(n) = (int)(rnd32() % (uint32_t)n)] *)
Definition irand (n : Z) : M Z :=
  let* r := rnd32 in
  if to_u32 n =? 0 then lift None
  else ret (u32_to_int (r mod to_u32 n)).

(** [drand() = rnd32() / (double)UINT32_MAX] *)
Definition drand : M double :=
  let* r := rnd32 in
  ret (Double.div (Double.of_Z r) dUINT32_MAX).

(** ** Columns *)

(** Code points of the wide characters of the table [KATAKANA]. *)
Definition KATAKANA : list Z :=
  [ 65382; 65383; 65384; 65385; 65386; 65387; 65388; 65389; 65390; 65391;
    65393; 65394; 65395; 65396; 65397; 65398; 65399; 65400; 65401; 65402;
    65403; 65404; 65405; 65406; 65407; 65408; 65409; 65410; 65411; 65412;
    65413; 65414; 65415; 65416; 65417; 65418; 65419; 65420; 65421; 65422;
    65423; 65424; 65425; 65426; 65427; 65428; 65429; 65430; 65431; 65432;
    65433; 65434; 65435; 65436; 65437;
    48; 49; 50; 51; 52; 53; 54; 55; 56; 57 ].

Record Column : Type := mkColumn {
  head_y : Z;       (* current head row (can be negative before entering) *)
  tail : Z;         (* tail length in rows *)
  speed : double;   (* rows per frame *)
  active : bool     (* whether this column is currently raining *)
}.

(** A column as [calloc] hands it out: all bytes zero. *)
Definition zero_column : Column := mkColumn 0 0 d0 false.

(** The options of [main], with their defaults. *)
Record Config : Type := mkConfig {
  speed_mul : double;
  density : double;
  bold_head : bool;
  fade_trail : bool;
  target_fps : Z
}.

Definition d0_25 : double := S754_finite false 4503599627370496 (-54).

Definition defaults : Config := mkConfig d1 d0_25 false true 60.

Section Columns.

Variable cfg : Config.
(** The height that the statement reads: [maxy], or [ny] in a resize. *)
Variable rows : Z.

(** [drand() < density] *)
Definition roll_active : M bool :=
  let* d := drand in ret (Double.ltb d (density cfg)).

(** [5 + irand(20)] *)
Definition roll_tail : M Z :=
  let* r := irand 20 in lift (chk (5 + r)).

(** [(0.4 + drand()*1.2) * speed_mul] *)
Definition roll_speed : M double :=
  let* d := drand in
  ret (Double.mul (Double.add d0_4 (Double.mul d d1_2)) (speed_mul cfg)).

(** [-irand(maxy)] *)
Definition roll_head : M Z :=
  let* r := irand rows in lift (chk (- r)).

(** Lines 101-104 and 126-129: active, tail, speed, head_y. *)
Definition init_column : M Column :=
  let* a := roll_active in
  let* t := roll_tail in
  let* s := roll_speed in
  let* h := roll_head in
  ret (mkColumn h t s a).

(** Lines 142-145: active, head_y, tail, speed. *)
Definition reset_column : M Column :=
  let* a := roll_active in
  let* h := roll_head in
  let* t := roll_tail in
  let* s := roll_speed in
  ret (mkColumn h t s a).

(** Lines 149-150: active = true, head_y, tail, speed. *)
Definition start_column : M Column :=
  let* h := roll_head in
  let* t := roll_tail in
  let* s := roll_speed in
  ret (mkColumn h t s true).

(** The right-hand side of line 139:
    [speed < 1.0 ? (drand() < speed ? 1 : 0) : (int)speed]. *)
Definition head_step (c : Column) : M Z :=
  if Double.ltb (speed c) d1 then
    let* d := drand in ret (if Double.ltb d (speed c) then 1 else 0)
  else lift (Double.to_int (speed c)).

(** [cols[x].head_y += ...] of line 139. *)
Definition advance_head (c : Column) : M Z :=
  let* k := head_step c in lift (chk (head_y c + k)).

(** The test of line 140 on the advanced head [h]. *)
Definition tail_off_screen (c : Column) (h : Z) : option bool :=
  match chk (h - tail c) with
  | Some d => Some (rows <? d)
  | None => None
  end.

(** The body of the loop of lines 136-152 for one column. *)
Definition update_column (c : Column) : M Column :=
  if active c then
    let* h := advance_head c in
    let* off := lift (tail_off_screen c h) in
    if off then reset_column
    else ret (mkColumn h (tail c) (speed c) (active c))
  else
    let* d := drand in
    if Double.ltb d (Double.div (density cfg) d200) then start_column
    else ret c.

End Columns.

(** ** The column array *)

Definition get (cols : list Column) (x : Z) : option Column :=
  if x <? 0 then None else cols !! Z.to_nat x.

Definition set (cols : list Column) (x : Z) (c : Column) : option (list Column) :=
  if (0 <=? x) && (x <? Z.of_nat (length cols))
  then Some (<[Z.to_nat x := c]> cols) else None.

(** [calloc((size_t)n, sizeof(Column))]: the environment says whether the
    allocator has the memory; a negative [n] converts to a [size_t] whose
    product with the element size no allocator can serve. *)
Definition calloc (ok : bool) (n : Z) : option (list Column) :=
  if ok && (0 <=? n) then Some (repeat zero_column (Z.to_nat n)) else None.

(** [for (int x = lo; x < ...; x++) body], run [n] times from [x]. *)
Fixpoint for_range {A} (n : nat) (x : Z) (body : Z -> A -> M A) (a : A) : M A :=
  match n with
  | O => ret a
  | S n' => let* a' := body x a in for_range n' (x + 1) body a'
  end.

Definition for_loop {A} (lo hi : Z) (body : Z -> A -> M A) (a : A) : M A :=
  for_range (Z.to_nat (hi - lo)) lo body a.

(** Lines 100-105 with [lo = 0], lines 125-130 with [lo = maxx]. *)
Definition init_columns (cfg : Config) (rows lo hi : Z) (cols : list Column)
  : M (list Column) :=
  for_loop lo hi
    (fun x cols => let* c := init_column cfg rows in lift (set cols x c)) cols.

(** Line 123: [for (x = 0; x < nx && x < maxx; x++) ncols[x] = cols[x]]. *)
Definition transfer (cols : list Column) (maxx nx : Z) (ncols : list Column)
  : M (list Column) :=
  for_loop 0 (Z.min nx maxx)
    (fun x ncols => let* c := lift (get cols x) in lift (set ncols x c)) ncols.

(** Lines 136-152. *)
Definition update_columns (cfg : Config) (maxy maxx : Z) (cols : list Column)
  : M (list Column) :=
  for_loop 0 maxx
    (fun x cols =>
       let* c := lift (get cols x) in
       let* c' := update_column cfg maxy c in
       lift (set cols x c')) cols.

(** ** The terminal, as a trace of what the program asks of it *)

Inductive tone : Type :=
| Head (bold : bool)       (* COLOR_PAIR(3), A_BOLD with --bold *)
| Trail (dim : bool).      (* COLOR_PAIR(2), A_DIM near the tail start *)

Inductive event : Type :=
| EInitscr                               (* initscr() and the mode set-up *)
| EEndwin                                (* endwin() *)
| EClear                                 (* clear() *)
| EErase                                 (* erase() *)
| EFade (rows columns : Z)               (* dim spaces over the whole screen *)
| EGlyph (y x : Z) (wc : Z) (t : tone)   (* mvaddnwstr(y, x, &wc, 1) *)
| ERefresh                               (* refresh() *)
| ESleep                                 (* nanosleep(&ts, NULL) *)
| EStderr (msg : string).                (* fprintf(stderr, ...) *)

Definition trace : Type := list event.

(** Lines 174-193 for one row [y] of the column [x]. *)
Definition draw_cell (bold : bool) (maxy x : Z) (c : Column) (y : Z) (out : trace)
  : M trace :=
  if (y <? 0) || (maxy <=? y) then ret out
  else
    let* i := irand (Z.of_nat (length KATAKANA)) in
    let* wc := lift (if i <? 0 then None else KATAKANA !! Z.to_nat i) in
    if y =? head_y c then ret (out ++ [EGlyph y x wc (Head bold)])
    else
      let* dist := lift (chk (head_y c - y)) in
      let* lim := lift (chk (tail c - 2)) in
      ret (out ++ [EGlyph y x wc (Trail (lim <? dist))]).

(** Lines 170-194. *)
Definition draw_columns (bold : bool) (maxy maxx : Z) (cols : list Column)
  : M trace :=
  for_loop 0 maxx
    (fun x out =>
       let* c := lift (get cols x) in
       if negb (active c) then ret out
       else
         let* tail_start := lift (chk (head_y c - tail c)) in
         let* stop := lift (if tail_start <=? head_y c
                            then chk (head_y c + 1) else Some tail_start) in
         for_loop tail_start stop (draw_cell bold maxy x c) out) [].

(** ** The main loop *)

Record state : Type := mkState {
  cols : list Column;
  maxx : Z;
  maxy : Z;
  paused : bool;
  rng : Rng.t
}.

(** What one iteration reads from outside: the key of [getch] ([-1] when
    there is none), the size of [getmaxyx], and whether a [calloc] made in
    this iteration finds memory. *)
Record frame : Type := mkFrame {
  key : Z;
  ny : Z;
  nx : Z;
  mem : bool
}.

Inductive outcome : Type :=
| Exited (code : Z) (tr : trace)      (* [main] returned [code] *)
| Undefined (tr : trace)              (* undefined behaviour was reached *)
| Running (st : state) (tr : trace).  (* the frames read so far are done *)

(** Lines 118-132 once the size is known to differ and [ncols] is
    allocated. *)
Definition reflow (cfg : Config) (cols : list Column) (maxx ny nx : Z)
  (ncols : list Column) : M (list Column) :=
  let* ncols := transfer cols maxx nx ncols in
  init_columns cfg ny maxx nx ncols.

(** Lines 134-195 when not paused. *)
Definition simulate_and_draw (cfg : Config) (maxy maxx : Z) (cols : list Column)
  : M (list Column * trace) :=
  let* cols' := update_columns cfg maxy maxx cols in
  let* glyphs := draw_columns (bold_head cfg) maxy maxx cols' in
  ret (cols', (if fade_trail cfg then EFade maxy maxx else EErase) :: glyphs).

Definition is_quit (ch : Z) : bool := (ch =? 113) || (ch =? 27).
Definition is_pause (ch : Z) : bool := (ch =? 112) || (ch =? 80).

(** The part of an iteration after the resize handling. *)
Definition present (cfg : Config) (st : state) (tr : trace) : outcome :=
  if paused st then Running st (tr ++ [ERefresh; ESleep])
  else
    match simulate_and_draw cfg (maxy st) (maxx st) (cols st) (rng st) with
    | None => Undefined tr
    | Some ((cols', drawn), g) =>
        Running (mkState cols' (maxx st) (maxy st) (paused st) g)
                (tr ++ drawn ++ [ERefresh; ESleep])
    end.

(** One iteration of [while(1)], lines 112-199. [Exited] is a [break]
    followed by lines 202-204. *)
Definition iteration (cfg : Config) (f : frame) (st : state) (tr : trace)
  : outcome :=
  if is_quit (key f) then Exited 0 (tr ++ [EEndwin])
  else
    let p := if is_pause (key f) then negb (paused st) else paused st in
    if negb (nx f =? maxx st) || negb (ny f =? maxy st) then
      match calloc (mem f) (nx f) with
      | None => Exited 0 (tr ++ [EEndwin])
      | Some ncols =>
          match reflow cfg (cols st) (maxx st) (ny f) (nx f) ncols (rng st) with
          | None => Undefined tr
          | Some (ncols', g) =>
              present cfg (mkState ncols' (nx f) (ny f) p g) (tr ++ [EClear])
          end
      end
    else present cfg (mkState (cols st) (maxx st) (maxy st) p (rng st)) tr.

Fixpoint loop (cfg : Config) (frames : list frame) (st : state) (tr : trace)
  : outcome :=
  match frames with
  | [] => Running st tr
  | f :: frames' =>
      match iteration cfg f st tr with
      | Running st' tr' => loop cfg frames' st' tr'
      | o => o
      end
  end.

(** ** Argument parsing and [main] *)

Inductive parsed : Type :=
| Options (cfg : Config)
| Usage (code : Z).

Definition clamp_density (d : double) : double :=
  let d := if Double.ltb d d0 then d0 else d in
  if Double.ltb d1 d then d1 else d.

Definition clamp_fps (n : Z) : Z :=
  let n := if n <? 10 then 10 else n in
  if 240 <? n then 240 else n.

(** What line 97 writes to [stderr]. *)
Definition oom : event := EStderr ("OOM" ++ String (Ascii.ascii_of_nat 10) "").

Section Main.

(** [atof] and [atoi] of the C library. *)
Variable atof : string -> double.
Variable atoi : string -> Z.

(** Lines 74-82, on [argv[i..argc-1]]. *)
Fixpoint parse_args (cfg : Config) (args : list string) : parsed :=
  match args with
  | [] => Options cfg
  | a :: rest =>
      match rest with
      | v :: rest' =>
          if String.eqb a "--speed" then
            parse_args (mkConfig (atof v) (density cfg) (bold_head cfg)
                          (fade_trail cfg) (target_fps cfg)) rest'
          else if String.eqb a "--density" then
            parse_args (mkConfig (speed_mul cfg) (clamp_density (atof v))
                          (bold_head cfg) (fade_trail cfg) (target_fps cfg)) rest'
          else if String.eqb a "--bold" then
            parse_args (mkConfig (speed_mul cfg) (density cfg) true
                          (fade_trail cfg) (target_fps cfg)) rest
          else if String.eqb a "--no-fade" then
            parse_args (mkConfig (speed_mul cfg) (density cfg) (bold_head cfg)
                          false (target_fps cfg)) rest
          else if String.eqb a "--fps" then
            parse_args (mkConfig (speed_mul cfg) (density cfg) (bold_head cfg)
                          (fade_trail cfg) (clamp_fps (atoi v))) rest'
          else if String.eqb a "--help" then Usage 0
          else Usage 1
      | [] =>
          if String.eqb a "--bold" then
            Options (mkConfig (speed_mul cfg) (density cfg) true
                       (fade_trail cfg) (target_fps cfg))
          else if String.eqb a "--no-fade" then
            Options (mkConfig (speed_mul cfg) (density cfg) (bold_head cfg)
                       false (target_fps cfg))
          else if String.eqb a "--help" then Usage 0
          else Usage 1
      end
  end.

Definition usage (prog : string) : event :=
  EStderr ("Usage: " ++ prog ++
           " [--speed f] [--density 0..1] [--bold] [--no-fade] [--fps N]" ++
           String (Ascii.ascii_of_nat 10) "").

(** What [main] reads before the loop: the program name, the value that
    seeds the random helper, the first answer of [getmaxyx] and whether
    the first [calloc] finds memory. *)
Record boot : Type := mkBoot {
  prog : string;
  seed : Z;
  maxy0 : Z;
  maxx0 : Z;
  mem0 : bool
}.

(** Lines 95-107. *)
Definition startup (cfg : Config) (b : boot) : outcome :=
  match calloc (mem0 b) (maxx0 b) with
  | None => Exited 1 [EInitscr; EEndwin; EStderr ("OOM" ++ String (Ascii.ascii_of_nat 10) "")]
  | Some cols0 =>
      match init_columns cfg (maxy0 b) 0 (maxx0 b) cols0 (Rng.mk 0 (seed b)) with
      | None => Undefined [EInitscr]
      | Some (cols1, g) =>
          Running (mkState cols1 (maxx0 b) (maxy0 b) false g) [EInitscr]
      end
  end.

(** Lines 84-204: [main] once the options are known. *)
Definition run (cfg : Config) (b : boot) (frames : list frame) : outcome :=
  match startup cfg b with
  | Running st tr => loop cfg frames st tr
  | o => o
  end.

Definition main (b : boot) (args : list string) (frames : list frame)
  : outcome :=
  match parse_args defaults args with
  | Usage code => Exited code [usage (prog b)]
  | Options cfg => run cfg b frames
  end.

End Main.

(** ** The frame interval *)

(** [1e9] *)
Definition d1e9 : double := S754_finite false 8388608000000000 (-23).

(** [(long) x] on a platform with 64-bit [long]: undefined when the
    integer part is not a [long]. *)
Definition to_long (x : double) : option Z :=
  match Double.trunc x with
  | Some z => if (- 2 ^ 63 <=? z) && (z <=? 2 ^ 63 - 1) then Some z else None
  | None => None
  end.

(** Lines 108-109: [frame_time = 1.0 / (double)target_fps] and
    [ts.tv_nsec = (long)(frame_time*1e9)], the interval of [nanosleep]. *)
Definition frame_nsec (cfg : Config) : option Z :=
  to_long (Double.mul (Double.div d1 (Double.of_Z (target_fps cfg))) d1e9).

(** * Vocabulary of the properties *)

(** The value that the next call of [rnd32] returns. *)
Definition draw (g : Rng.t) : Z := fst (Rng.rnd32 g).

(** The state that the next call of [rnd32] leaves. *)
Definition next (g : Rng.t) : Rng.t := snd (Rng.rnd32 g).

(** [drand()], from the value [u] of [rnd32]. *)
Definition unit_of (u : Z) : double := Double.div (Double.of_Z u) dUINT32_MAX.

(** The speed of a column, from the value [u] of [rnd32]. *)
Definition speed_of (cfg : Config) (u : Z) : double :=
  Double.mul (Double.add d0_4 (Double.mul (unit_of u) d1_2)) (speed_mul cfg).

(** A column as construction sets it up, from the values of [rnd32] read
    for its activity, its tail, its speed and its head. *)
Definition fresh_column (cfg : Config) (rows : Z) (ua ut us uh : Z) : Column :=
  mkColumn (- (uh mod rows)) (5 + ut mod 20) (speed_of cfg us)
    (Double.ltb (unit_of ua) (density cfg)).

(** The ranges of the head and the tail of a column drawn for [rows] rows. *)
Definition drawn (rows : Z) (c : Column) : Prop :=
  - rows < head_y c <= 0 /\ 5 <= tail c <= 24.

(** The range of the tail length. *)
Definition tail_ok (c : Column) : Prop := 5 <= tail c <= 24.

(** The test of line 119. *)
Definition resized (f : frame) (st : state) : bool :=
  negb (nx f =? maxx st) || negb (ny f =? maxy st).

(** The options [cfg] with another density. *)
Definition with_density (cfg : Config) (d : double) : Config :=
  mkConfig (speed_mul cfg) d (bold_head cfg) (fade_trail cfg) (target_fps cfg).

(** The sign of a number; NaN has none. *)
Definition signed (s : bool) (x : double) : Prop :=
  match x with
  | S754_zero s' | S754_infinity s' | S754_finite s' _ _ => s' = s
  | S754_nan => False
  end.

(** A positive number with a full mantissa and an exponent in [[lo, hi]]. *)
Definition normal (lo hi : Z) (x : double) : Prop :=
  exists m e, x = S754_finite false m e /\
              2 ^ 52 <= Zpos m < 2 ^ 53 /\ lo <= e <= hi.

(** [x <= 0.0] as the program would test it: false for NaN. *)
Definition nonpositive (x : double) : Prop := Double.leb x d0 = true.

(** A height that [getmaxyx] can report: an [int] that is not negative. *)
Definition rows_ok (rows : Z) : Prop := 0 <= rows <= INT_MAX.

(** A column that cannot move: its speed is not positive and it is where
    a draw puts it. *)
Definition frozen (c : Column) : Prop :=
  nonpositive (speed c) /\ head_y c <= 0 /\ tail_ok c.

(** The field has [maxx] columns, each of them satisfies [Q], and the
    height satisfies [tall]. *)
Definition field_inv (Q : Column -> Prop) (tall : Z -> Prop) (st : state) : Prop :=
  Z.of_nat (length (cols st)) = maxx st /\ Forall Q (cols st) /\ tall (maxy st).

(** [1e10], as [atof] reads it. *)
Definition d1e10 : double := S754_finite false 5242880000000000 (-19).

(** The options of [./matrix --speed 1e10 --density 1]. *)
Definition fast_rain : Config := mkConfig d1e10 d1 false true 60.

(** The options of [./matrix --speed -1 --density 1]. *)
Definition still_rain : Config :=
  mkConfig (S754_finite true 4503599627370496 (-52)) d1 false true 60.

(** The argument lists that the usage line describes: switches, and
    options followed by a value. *)
Inductive accepted : list string -> Prop :=
| accepted_nil : accepted []
| accepted_switch a rest :
    a = "--bold"%string \/ a = "--no-fade"%string ->
    accepted rest -> accepted (a :: rest)
| accepted_option a v rest :
    a = "--speed"%string \/ a = "--density"%string \/ a = "--fps"%string ->
    accepted rest -> accepted (a :: v :: rest).

(** The ranges in which parsing keeps the frame rate and the density. *)
Definition options_in_range (cfg : Config) : Prop :=
  10 <= target_fps cfg <= 240 /\
  (density cfg = S754_nan \/
   (Double.leb d0 (density cfg) = true /\ Double.leb (density cfg) d1 = true)).

(** The glyph that lines 176-192 put on row [y] of the column [c] at [x]:
    on the screen, within the trail, from the table, bright at the head
    and dim on the two rows next to the tail end. *)
Definition cell_of (bold : bool) (maxy x : Z) (c : Column) (e : event) : Prop :=
  exists y wc,
    e = EGlyph y x wc (if y =? head_y c then Head bold
                       else Trail (y <? head_y c - tail c + 2)) /\
    0 <= y < maxy /\ head_y c - tail c <= y <= head_y c /\ In wc KATAKANA.

(** The events of a frame that is being drawn. *)
Definition screen_event (e : event) : Prop :=
  match e with
  | EClear | EErase | EFade _ _ | EGlyph _ _ _ _ | ERefresh | ESleep => True
  | EInitscr | EEndwin | EStderr _ => False
  end.

(** A frame that brings neither a key of the program nor a new size. *)
Definition idle_frame (st : state) (f : frame) : Prop :=
  is_quit (key f) = false /\ is_pause (key f) = false /\
  nx f = maxx st /\ ny f = maxy st.

(** A column that rains nothing. *)
Definition inactive (c : Column) : Prop := active c = false.

(** An event that is no glyph. *)
Definition no_glyph (e : event) : Prop :=
  match e with EGlyph _ _ _ _ => False | _ => True end.

(** The tail end of an active column is not below the last row. *)
Definition tail_on_screen (rows : Z) (c : Column) : Prop :=
  active c = true -> head_y c - tail c <= rows.

(** A height for which the updates stay within [int]. *)
Definition sane_rows (rows : Z) : Prop := 0 < rows <= 2 ^ 29.

(** A multiplier between [2^-1020] and [2^22], as a positive number with a
    full mantissa. *)
Definition sane_speed (x : double) : Prop := normal (-1072) (-31) x.

(** A column whose update and drawing are defined. *)
Definition sane_column (c : Column) : Prop :=
  - 2 ^ 29 < head_y c <= 2 ^ 29 + 24 /\ tail_ok c /\
  normal (-1074) (-23) (speed c).

(** * Properties *)

(** ** The constants of the program *)

(** The literals are the binary64 numbers nearest to their decimal
    notation: integers are exact, and a correctly rounded quotient of two
    integers is the number nearest to the fraction. *)
Lemma literals :
  d0 = Double.of_Z 0 /\ d1 = Double.of_Z 1 /\ d200 = Double.of_Z 200 /\
  dUINT32_MAX = Double.of_Z UINT32_MAX /\
  d0_4 = Double.div (Double.of_Z 4) (Double.of_Z 10) /\
  d1_2 = Double.div (Double.of_Z 12) (Double.of_Z 10) /\
  d0_25 = Double.div (Double.of_Z 1) (Double.of_Z 4) /\
  d1e10 = Double.of_Z (10 ^ 10).
Proof. vm_compute. repeat split. Qed.

(** [ARRAY_SIZE(KATAKANA)] *)
Lemma KATAKANA_size : length KATAKANA = 65%nat.
Proof. reflexivity. Qed.

(** ** Reasoning about computations *)

Lemma bind_Some {A B} (m : M A) (k : A -> M B) g b g' :
  bind m k g = Some (b, g') <->
  exists a g1, m g = Some (a, g1) /\ k a g1 = Some (b, g').
Proof.
  unfold bind. split.
  - destruct (m g) as [[a g1]|]; [|discriminate]. intros H. by exists a, g1.
  - intros (a & g1 & -> & H). exact H.
Qed.

Lemma lift_Some {A} (o : option A) g a g' :
  lift o g = Some (a, g') <-> o = Some a /\ g' = g.
Proof.
  unfold lift. destruct o; split; intros H; try discriminate.
  - by inversion H.
  - destruct H as [H ->]. by inversion H.
  - by destruct H.
Qed.

Lemma ret_Some {A} (a : A) g b g' :
  ret a g = Some (b, g') <-> b = a /\ g' = g.
Proof. unfold ret. split; [intros H; by inversion H | intros [-> ->]; done]. Qed.

Lemma bind_None {A B} (m : M A) (k : A -> M B) g :
  m g = None -> bind m k g = None.
Proof. unfold bind. by intros ->. Qed.

Lemma bind_step {A B} (m : M A) (k : A -> M B) g a g1 :
  m g = Some (a, g1) -> bind m k g = k a g1.
Proof. unfold bind. by intros ->. Qed.

(** Splits a successful computation into the successful steps it is made of. *)
Ltac comp_inv H :=
  repeat match type of H with
  | bind _ _ _ = Some _ =>
      let a := fresh "a" in let g := fresh "g" in
      let H1 := fresh "Hstep" in
      apply bind_Some in H; destruct H as (a & g & H1 & H)
  end.

Lemma chk_Some z v : chk z = Some v <-> v = z /\ INT_MIN <= z <= INT_MAX.
Proof.
  unfold chk, in_int.
  destruct (Z.leb_spec INT_MIN z) as [Hlo|Hlo], (Z.leb_spec z INT_MAX) as [Hhi|Hhi];
    simpl; split; intros Hz; try discriminate; try lia.
  - inversion Hz. lia.
  - by destruct Hz as [-> _].
Qed.

Lemma chk_in z : INT_MIN <= z <= INT_MAX -> chk z = Some z.
Proof. intros H. by apply chk_Some. Qed.

(** A loop invariant for [for_range]. *)
Lemma for_range_inv {A} (P : Z -> A -> Prop) (body : Z -> A -> M A) n :
  forall x a g r g',
    (forall y b gb b' gb', x <= y < x + Z.of_nat n -> P y b ->
       body y b gb = Some (b', gb') -> P (y + 1) b') ->
    P x a ->
    for_range n x body a g = Some (r, g') ->
    P (x + Z.of_nat n) r.
Proof.
  induction n as [|n IH]; intros x a g r g' Hbody Hx Hrun; simpl in Hrun.
  - apply ret_Some in Hrun as [-> _]. by rewrite Z.add_0_r.
  - comp_inv Hrun.
    replace (x + Z.of_nat (S n)) with ((x + 1) + Z.of_nat n) by lia.
    eapply IH; [| |exact Hrun].
    + intros y b gb b' gb' Hy. apply Hbody. lia.
    + eapply Hbody; [|exact Hx|exact Hstep]. lia.
Qed.

(** A loop whose body cannot fail under the invariant does not fail. *)
Lemma for_range_total {A} (P : Z -> A -> Prop) (body : Z -> A -> M A) n :
  forall x a g,
    (forall y b gb, x <= y < x + Z.of_nat n -> P y b ->
       exists b' gb', body y b gb = Some (b', gb') /\ P (y + 1) b') ->
    P x a ->
    exists r g', for_range n x body a g = Some (r, g').
Proof.
  induction n as [|n IH]; intros x a g Hbody Hx; simpl.
  - by exists a, g.
  - destruct (Hbody x a g) as (b' & gb' & Hb & HP); [lia|done|].
    rewrite (bind_step _ _ _ _ _ Hb).
    apply IH; [|done]. intros y b gb Hy. apply Hbody. lia.
Qed.

(** ** The random helper *)

Lemma rnd32_range g : 0 <= fst (Rng.rnd32 g) < 2 ^ 32.
Proof. unfold Rng.rnd32, to_u32. simpl. apply Z.mod_pos_bound. lia. Qed.

Lemma rnd32_Some g r g' :
  rnd32 g = Some (r, g') <-> r = fst (Rng.rnd32 g) /\ g' = snd (Rng.rnd32 g).
Proof.
  unfold rnd32. destruct (Rng.rnd32 g) as [r0 g0]. simpl.
  split; [intros H; by inversion H | intros [-> ->]; done].
Qed.

(** [irand(n)] for a positive [int] [n]: defined, and in [[0, n)]. *)
Lemma irand_range n g :
  0 < n <= INT_MAX ->
  exists v, irand n g = Some (v, snd (Rng.rnd32 g)) /\ 0 <= v < n.
Proof.
  intros Hn. unfold INT_MAX in Hn.
  pose proof (rnd32_range g) as Hr.
  unfold irand, bind, rnd32. destruct (Rng.rnd32 g) as [r g1]. simpl in *.
  assert (Hu : to_u32 n = n) by (unfold to_u32; apply Z.mod_small; lia).
  rewrite Hu. destruct (Z.eqb_spec n 0) as [?|_]; [lia|].
  pose proof (Z.mod_pos_bound r n ltac:(lia)) as Hm.
  exists (r mod n). split; [|lia].
  unfold ret, u32_to_int, INT_MAX.
  destruct (Z.leb_spec (r mod n) (2 ^ 31 - 1)); [done|lia].
Qed.

(** [irand(0)] divides by zero. *)
Lemma irand_zero g : irand 0 g = None.
Proof. unfold irand, bind, rnd32. by destruct (Rng.rnd32 g). Qed.

Lemma drand_Some g :
  drand g = Some (Double.div (Double.of_Z (fst (Rng.rnd32 g))) dUINT32_MAX,
                  snd (Rng.rnd32 g)).
Proof. unfold drand, bind, rnd32, ret. by destruct (Rng.rnd32 g). Qed.

(** ** The draws of a column *)

Section Rolls.

Variable cfg : Config.

Lemma roll_active_Some g :
  roll_active cfg g =
  Some (Double.ltb (Double.div (Double.of_Z (fst (Rng.rnd32 g))) dUINT32_MAX)
          (density cfg), snd (Rng.rnd32 g)).
Proof. unfold roll_active. by rewrite (bind_step _ _ _ _ _ (drand_Some g)). Qed.

Lemma roll_speed_Some g :
  roll_speed cfg g =
  Some (Double.mul
          (Double.add d0_4
             (Double.mul (Double.div (Double.of_Z (fst (Rng.rnd32 g))) dUINT32_MAX)
                d1_2))
          (speed_mul cfg), snd (Rng.rnd32 g)).
Proof. unfold roll_speed. by rewrite (bind_step _ _ _ _ _ (drand_Some g)). Qed.

Lemma roll_tail_range g :
  exists t, roll_tail g = Some (t, snd (Rng.rnd32 g)) /\ 5 <= t <= 24.
Proof.
  destruct (irand_range 20 g) as (v & Hv & Hr); [unfold INT_MAX; lia|].
  exists (5 + v). split; [|lia].
  unfold roll_tail. rewrite (bind_step _ _ _ _ _ Hv).
  unfold lift. rewrite chk_in; [done|unfold INT_MIN, INT_MAX; lia].
Qed.

Lemma roll_head_range rows g :
  0 < rows <= INT_MAX ->
  exists h, roll_head rows g = Some (h, snd (Rng.rnd32 g)) /\ - rows < h <= 0.
Proof.
  intros Hrows. destruct (irand_range rows g) as (v & Hv & Hr); [done|].
  exists (- v). split; [|lia].
  unfold roll_head. rewrite (bind_step _ _ _ _ _ Hv).
  unfold lift. rewrite chk_in; [done|unfold INT_MIN, INT_MAX in *; lia].
Qed.

Lemma roll_head_zero g : roll_head 0 g = None.
Proof. unfold roll_head. apply bind_None, irand_zero. Qed.

(** With no rows, every way of drawing a column divides by zero. *)
Lemma init_column_zero_rows g : init_column cfg 0 g = None.
Proof.
  unfold init_column.
  rewrite (bind_step _ _ _ _ _ (roll_active_Some g)).
  destruct (roll_tail_range (snd (Rng.rnd32 g))) as (t & Ht & _).
  rewrite (bind_step _ _ _ _ _ Ht).
  rewrite (bind_step _ _ _ _ _ (roll_speed_Some _)).
  apply bind_None, roll_head_zero.
Qed.

Lemma reset_column_zero_rows g : reset_column cfg 0 g = None.
Proof.
  unfold reset_column.
  rewrite (bind_step _ _ _ _ _ (roll_active_Some g)).
  apply bind_None, roll_head_zero.
Qed.

Lemma start_column_zero_rows g : start_column cfg 0 g = None.
Proof. unfold start_column. apply bind_None, roll_head_zero. Qed.

(** With rows, the three ways of drawing a column succeed, and the column
    they give is in the ranges of the draws. *)

Lemma init_column_drawn rows g :
  0 < rows <= INT_MAX ->
  exists c g', init_column cfg rows g = Some (c, g') /\ drawn rows c.
Proof.
  intros Hrows. unfold init_column.
  rewrite (bind_step _ _ _ _ _ (roll_active_Some g)).
  destruct (roll_tail_range (snd (Rng.rnd32 g))) as (t & Ht & Htr).
  rewrite (bind_step _ _ _ _ _ Ht).
  rewrite (bind_step _ _ _ _ _ (roll_speed_Some _)).
  destruct (roll_head_range rows (snd (Rng.rnd32 (snd (Rng.rnd32 (snd (Rng.rnd32 g)))))))
    as (h & Hh & Hhr); [done|].
  rewrite (bind_step _ _ _ _ _ Hh).
  eexists _, _. split; [reflexivity|]. by split.
Qed.

Lemma reset_column_drawn rows g :
  0 < rows <= INT_MAX ->
  exists c g', reset_column cfg rows g = Some (c, g') /\ drawn rows c.
Proof.
  intros Hrows. unfold reset_column.
  rewrite (bind_step _ _ _ _ _ (roll_active_Some g)).
  destruct (roll_head_range rows (snd (Rng.rnd32 g))) as (h & Hh & Hhr); [done|].
  rewrite (bind_step _ _ _ _ _ Hh).
  destruct (roll_tail_range (snd (Rng.rnd32 (snd (Rng.rnd32 g))))) as (t & Ht & Htr).
  rewrite (bind_step _ _ _ _ _ Ht).
  rewrite (bind_step _ _ _ _ _ (roll_speed_Some _)).
  eexists _, _. split; [reflexivity|]. by split.
Qed.

Lemma start_column_drawn rows g :
  0 < rows <= INT_MAX ->
  exists c g', start_column cfg rows g = Some (c, g') /\ drawn rows c /\ active c = true.
Proof.
  intros Hrows. unfold start_column.
  destruct (roll_head_range rows g) as (h & Hh & Hhr); [done|].
  rewrite (bind_step _ _ _ _ _ Hh).
  destruct (roll_tail_range (snd (Rng.rnd32 g))) as (t & Ht & Htr).
  rewrite (bind_step _ _ _ _ _ Ht).
  rewrite (bind_step _ _ _ _ _ (roll_speed_Some _)).
  eexists _, _. split; [reflexivity|]. split; [by split|done].
Qed.

End Rolls.

(** The activity of a column that construction draws. *)
Lemma init_column_active cfg rows g c g' :
  init_column cfg rows g = Some (c, g') ->
  active c = Double.ltb (unit_of (draw g)) (density cfg).
Proof.
  unfold init_column. intros Hi.
  apply bind_Some in Hi as (a & g1 & Ha & Hi).
  apply bind_Some in Hi as (t & g2 & _ & Hi).
  apply bind_Some in Hi as (s & g3 & _ & Hi).
  apply bind_Some in Hi as (h & g4 & _ & Hi).
  apply ret_Some in Hi as [-> _].
  rewrite roll_active_Some in Ha. injection Ha as <- _. reflexivity.
Qed.

(** ** C1: a viewport without rows *)

Lemma init_columns_zero_rows cfg lo hi cols g :
  lo < hi -> init_columns cfg 0 lo hi cols g = None.
Proof.
  intros Hlt. unfold init_columns, for_loop.
  destruct (Z.to_nat (hi - lo)) as [|n] eqn:Hn; [lia|]. simpl.
  apply bind_None, bind_None, init_column_zero_rows.
Qed.

(** With memory for the columns, a first viewport of at least one column
    and no row makes line 104 compute [rnd32() % 0]: there is no field of
    columns. *)
Lemma construction_without_rows_undefined (cfg : Config) (b : boot) :
  0 < maxx0 b -> maxy0 b = 0 -> mem0 b = true ->
  startup cfg b = Undefined [EInitscr].
Proof.
  intros Hx Hy Hm. unfold startup, calloc. rewrite Hm, Hy.
  destruct (Z.leb_spec 0 (maxx0 b)); [simpl|lia].
  by rewrite init_columns_zero_rows.
Qed.


(** The same division by zero when a resize adds columns to a viewport
    without rows (line 129). *)
Lemma growth_without_rows_undefined cfg cols maxx nx ncols g :
  0 <= maxx < nx -> Z.of_nat (length cols) = maxx ->
  Z.of_nat (length ncols) = nx ->
  reflow cfg cols maxx 0 nx ncols g = None.
Proof.
  intros Hx Hlen Hnlen. unfold reflow.
  destruct (transfer cols maxx nx ncols g) as [[n1 g1]|] eqn:Ht.
  - rewrite (bind_step _ _ _ _ _ Ht). apply init_columns_zero_rows. lia.
  - by apply bind_None.
Qed.



(** ** C2: allocation failure *)

(** At startup (line 97) the terminal is restored, the failure is
    reported and the exit code is 1. *)
Lemma startup_allocation_failure cfg b :
  calloc (mem0 b) (maxx0 b) = None ->
  startup cfg b = Exited 1 [EInitscr; EEndwin; oom].
Proof. intros Hc. unfold startup. by rewrite Hc. Qed.

(** C2, at the failing input: when the allocation of a resize fails
    (line 121), the loop is left by [break]; the terminal is restored, but
    nothing is reported and [main] returns 0. *)
Theorem resize_allocation_failure_exits_zero cfg f st tr :
  is_quit (key f) = false -> resized f st = true ->
  calloc (mem f) (nx f) = None ->
  iteration cfg f st tr = Exited 0 (tr ++ [EEndwin]).
Proof.
  intros Hq Hr Hc. unfold iteration. rewrite Hq.
  unfold resized in Hr. by rewrite Hr, Hc.
Qed.

Lemma resize_allocation_failure_exits_zero_witness :
  iteration defaults (mkFrame (-1) 25 80 false)
    (mkState [] 0 24 false (Rng.mk 1 0)) [EInitscr]
  = Exited 0 [EInitscr; EEndwin].
Proof.
  apply (resize_allocation_failure_exits_zero defaults (mkFrame (-1) 25 80 false)
           (mkState [] 0 24 false (Rng.mk 1 0)) [EInitscr]); reflexivity.
Defined.

(** The whole program on that input: a terminal of 24 rows and 2 columns
    is enlarged to 25 rows while no memory is left. *)
Lemma main_resize_allocation_failure atof atoi :
  main atof atoi (mkBoot "matrix" 12345 24 2 true) []
    [mkFrame (-1) 25 2 false]
  = Exited 0 [EInitscr; EEndwin].
Proof. vm_compute. reflexivity. Qed.

(** ** C3: the range of the random helper *)

(** C3, at the failing input: on the first call of a run seeded with
    [time(NULL) ^ &s = 8140682926], [rnd32()] is [UINT32_MAX] and [drand()]
    is [1.0], which is not below [1.0]. *)
Theorem drand_returns_one :
  fst (Rng.rnd32 (Rng.mk 0 8140682926)) = UINT32_MAX /\
  drand (Rng.mk 0 8140682926) = Some (d1, Rng.mk 268229297569791 8140682926) /\
  Double.ltb d1 d1 = false.
Proof. vm_compute. repeat split. Qed.

(** ** C4: the activity roll at the ends of the density range *)

(** C4, at the failing input: with density 1 the first column of that run
    is drawn inactive, since [1.0 < 1.0] is false. *)
Theorem full_density_draws_inactive_column :
  exists c g,
    init_column (mkConfig d1 d1 false true 60) 24 (Rng.mk 0 8140682926)
    = Some (c, g) /\ active c = false.
Proof. eexists _, _. vm_compute. split; reflexivity. Qed.

Lemma startup_full_density_inactive_column :
  exists st tr c,
    startup (mkConfig d1 d1 false true 60) (mkBoot "matrix" 8140682926 24 3 true)
    = Running st tr /\ cols st !! 0%nat = Some c /\ active c = false.
Proof. eexists _, _, _. vm_compute. repeat split. Qed.

(** ** Signs of binary64 results *)

Lemma iter_pos_preserves {A} (P : A -> Prop) (f : A -> A) :
  (forall a, P a -> P (f a)) -> forall p a, P a -> P (SpecFloat.iter_pos f p a).
Proof.
  intros Hf. induction p as [p IH|p IH|]; intros a Ha; simpl; auto.
Qed.

Lemma shr_1_nonneg r : 0 <= shr_m r -> 0 <= shr_m (shr_1 r).
Proof.
  destruct r as [m b1 b2]. simpl. intros Hm.
  destruct m as [|[p|p|]|p]; simpl; lia.
Qed.

Lemma shr_nonneg r e n : 0 <= shr_m r -> 0 <= shr_m (fst (shr r e n)).
Proof.
  intros Hr. unfold shr. destruct n as [|p|p]; simpl; try done.
  by apply iter_pos_preserves; [apply shr_1_nonneg|].
Qed.

Lemma shr_record_of_loc_m m l : shr_m (shr_record_of_loc m l) = m.
Proof. by destruct l as [|[]]. Qed.

Lemma shr_fexp_nonneg m e l :
  0 <= m -> 0 <= shr_m (fst (shr_fexp prec emax m e l)).
Proof.
  intros Hm. unfold shr_fexp. apply shr_nonneg. by rewrite shr_record_of_loc_m.
Qed.

Lemma round_nearest_even_nonneg m l : 0 <= m -> 0 <= round_nearest_even m l.
Proof.
  intros Hm. unfold round_nearest_even.
  destruct l as [|[]]; try lia. destruct (Z.even m); lia.
Qed.

(** Rounding keeps the sign and never makes a NaN. *)
Lemma binary_round_aux_signed s m e l :
  0 <= m -> signed s (binary_round_aux prec emax s m e l).
Proof.
  intros Hm. unfold binary_round_aux.
  pose proof (shr_fexp_nonneg m e l Hm) as H1.
  destruct (shr_fexp prec emax m e l) as [r1 e1]. simpl in H1.
  pose proof (shr_fexp_nonneg _ e1 loc_Exact
                (round_nearest_even_nonneg _ (loc_of_shr_record r1) H1)) as H2.
  destruct (shr_fexp prec emax _ e1 loc_Exact) as [r2 e2]. simpl in H2.
  destruct (shr_m r2) as [|p|p]; simpl; [done| |lia].
  by destruct (e2 <=? emax - prec).
Qed.

Lemma binary_round_signed s m e : signed s (binary_round prec emax s m e).
Proof.
  unfold binary_round. destruct (shl_align _ _ _) as [mz ez].
  by apply binary_round_aux_signed.
Qed.

Lemma of_Z_signed r : 0 <= r -> signed false (Double.of_Z r).
Proof.
  intros Hr. unfold Double.of_Z, binary_normalize.
  destruct r as [|p|p]; [done|apply binary_round_signed|lia].
Qed.

Lemma div_core_nonneg m1 e1 m2 e2 :
  0 <= fst (fst (SFdiv_core_binary prec emax (Zpos m1) e1 (Zpos m2) e2)).
Proof.
  unfold SFdiv_core_binary.
  set (m' := match _ with Zpos _ => _ | _ => _ end).
  assert (Hm' : 0 <= m').
  { subst m'. destruct (_ - _ - _) as [|p|p]; [lia| |lia].
    apply Z.shiftl_nonneg. lia. }
  pose proof (Z_div_mod m' (Zpos m2) ltac:(lia)) as Hdm.
  destruct (Z.div_eucl m' (Zpos m2)) as [q r]. simpl.
  destruct Hdm as [Hq Hr]. nia.
Qed.

(** What [drand()] returns is never negative and never NaN. *)
Lemma div_signed x m e :
  signed false x -> signed false (Double.div x (S754_finite false m e)).
Proof.
  destruct x as [s|s| |s mx ex]; simpl; intros Hs; try done.
  - by subst s.
  - by subst s.
  - subst s. pose proof (div_core_nonneg mx ex m e) as Hq.
    destruct (SFdiv_core_binary _ _ _ _ _ _) as [[q eq] lq]. simpl in Hq.
    by apply binary_round_aux_signed.
Qed.

Lemma drand_signed r :
  0 <= r -> signed false (Double.div (Double.of_Z r) dUINT32_MAX).
Proof. intros Hr. by apply div_signed, of_Z_signed. Qed.

(** A number that is not negative is not below a number that is not
    positive. *)
Lemma ltb_signed_nonpositive x y :
  signed false x -> Double.leb y d0 = true -> Double.ltb x y = false.
Proof.
  destruct x as [sx|sx| |sx mx ex]; simpl; intros Hx; try done; subst sx;
    destruct y as [sy|sy| |sy my ey]; try done; destruct sy; done.
Qed.

(** The half of C4 that holds: with density 0 a drawn column is inactive. *)
Lemma zero_density_draws_inactive_column cfg rows g c g' :
  Double.leb (density cfg) d0 = true ->
  init_column cfg rows g = Some (c, g') -> active c = false.
Proof.
  intros Hd Hi. rewrite (init_column_active _ _ _ _ _ Hi).
  apply ltb_signed_nonpositive; [|done].
  apply drand_signed, rnd32_range.
Qed.

(** ** C5: the reset law *)

Lemma irand_value n g :
  0 < n <= INT_MAX -> irand n g = Some (draw g mod n, next g).
Proof.
  intros Hn. unfold INT_MAX in Hn.
  pose proof (rnd32_range g) as Hr.
  unfold irand, bind, rnd32, draw, next. destruct (Rng.rnd32 g) as [r g1].
  simpl in *.
  assert (Hu : to_u32 n = n) by (unfold to_u32; apply Z.mod_small; lia).
  rewrite Hu. destruct (Z.eqb_spec n 0) as [?|_]; [lia|].
  pose proof (Z.mod_pos_bound r n ltac:(lia)) as Hm.
  unfold ret, u32_to_int, INT_MAX.
  destruct (Z.leb_spec (r mod n) (2 ^ 31 - 1)); [done|lia].
Qed.

Lemma roll_tail_value g : roll_tail g = Some (5 + draw g mod 20, next g).
Proof.
  unfold roll_tail. rewrite (bind_step _ _ _ _ _ (irand_value 20 g ltac:(unfold INT_MAX; lia))).
  pose proof (Z.mod_pos_bound (draw g) 20 ltac:(lia)).
  unfold lift. rewrite chk_in; [done|unfold INT_MIN, INT_MAX; lia].
Qed.

Lemma roll_head_value rows g :
  0 < rows <= INT_MAX -> roll_head rows g = Some (- (draw g mod rows), next g).
Proof.
  intros Hrows. unfold roll_head. rewrite (bind_step _ _ _ _ _ (irand_value rows g Hrows)).
  pose proof (Z.mod_pos_bound (draw g) rows ltac:(lia)).
  unfold lift. rewrite chk_in; [done|unfold INT_MIN, INT_MAX in *; lia].
Qed.

Lemma roll_active_value cfg g :
  roll_active cfg g = Some (Double.ltb (unit_of (draw g)) (density cfg), next g).
Proof. apply roll_active_Some. Qed.

Lemma roll_speed_value cfg g : roll_speed cfg g = Some (speed_of cfg (draw g), next g).
Proof. apply roll_speed_Some. Qed.

(** Construction reads activity, tail, speed, head in this order. *)
Lemma init_column_fresh cfg rows g :
  0 < rows <= INT_MAX ->
  init_column cfg rows g =
  Some (fresh_column cfg rows (draw g) (draw (next g)) (draw (next (next g)))
          (draw (next (next (next g)))),
        next (next (next (next g)))).
Proof.
  intros Hrows. unfold init_column.
  rewrite (bind_step _ _ _ _ _ (roll_active_value cfg g)).
  rewrite (bind_step _ _ _ _ _ (roll_tail_value _)).
  rewrite (bind_step _ _ _ _ _ (roll_speed_value cfg _)).
  by rewrite (bind_step _ _ _ _ _ (roll_head_value rows _ Hrows)).
Qed.

(** The reset reads activity, head, tail, speed in this order. *)
Lemma reset_column_fresh cfg rows g :
  0 < rows <= INT_MAX ->
  reset_column cfg rows g =
  Some (fresh_column cfg rows (draw g) (draw (next (next g)))
          (draw (next (next (next g)))) (draw (next g)),
        next (next (next (next g)))).
Proof.
  intros Hrows. unfold reset_column.
  rewrite (bind_step _ _ _ _ _ (roll_active_value cfg g)).
  rewrite (bind_step _ _ _ _ _ (roll_head_value rows _ Hrows)).
  rewrite (bind_step _ _ _ _ _ (roll_tail_value _)).
  by rewrite (bind_step _ _ _ _ _ (roll_speed_value cfg _)).
Qed.

Lemma fresh_column_drawn cfg rows ua ut us uh :
  0 < rows -> drawn rows (fresh_column cfg rows ua ut us uh).
Proof.
  intros Hrows. unfold drawn. simpl.
  pose proof (Z.mod_pos_bound uh rows ltac:(lia)).
  pose proof (Z.mod_pos_bound ut 20 ltac:(lia)). lia.
Qed.

(** C5: when the tail of an active column is below the viewport after the
    head advance, the same tick gives the column a fresh activity roll,
    head, tail and speed, by the expressions of construction (which reads
    them in another order), and the new head is at or above the top row. *)
Theorem reset_law cfg rows c g h g0 :
  active c = true -> 0 < rows <= INT_MAX ->
  advance_head c g = Some (h, g0) ->
  tail_off_screen rows c h = Some true ->
  let g1 := next g0 in
  let g2 := next g1 in
  let g3 := next g2 in
  let c' := fresh_column cfg rows (draw g0) (draw g2) (draw g3) (draw g1) in
  update_column cfg rows c g = Some (c', next g3) /\
  head_y c' <= 0 /\ - rows < head_y c' /\ 5 <= tail c' <= 24 /\
  init_column cfg rows g0 =
  Some (fresh_column cfg rows (draw g0) (draw g1) (draw g2) (draw g3), next g3).
Proof.
  intros Ha Hrows Hadv Hoff g1 g2 g3 c'.
  pose proof (fresh_column_drawn cfg rows (draw g0) (draw g2) (draw g3) (draw g1)
                ltac:(lia)) as [Hh Ht].
  fold c' in Hh, Ht.
  split; [|repeat split; try lia; by apply init_column_fresh].
  unfold update_column. rewrite Ha.
  rewrite (bind_step _ _ _ _ _ Hadv). unfold lift at 1. rewrite Hoff.
  unfold bind at 1. by apply reset_column_fresh.
Qed.

Lemma reset_law_witness :
  let c := mkColumn 30 5 d1 true in
  let g := Rng.mk 1 0 in
  exists c',
    update_column defaults 24 c g = Some (c', next (next (next (next g)))) /\
    head_y c' <= 0.
Proof.
  intros c g.
  destruct (reset_law defaults 24 c g 31 g) as (Hu & Hh & _).
  - reflexivity.
  - unfold INT_MAX. lia.
  - reflexivity.
  - reflexivity.
  - eexists. split; [exact Hu|exact Hh].
Defined.

(** ** The loops over the column array *)

Lemma set_Some cols x c cols' :
  set cols x c = Some cols' <->
  cols' = <[Z.to_nat x := c]> cols /\ 0 <= x < Z.of_nat (length cols).
Proof.
  unfold set.
  destruct (Z.leb_spec 0 x), (Z.ltb_spec x (Z.of_nat (length cols))); simpl;
    split; intros Hs; try discriminate; try lia.
  - inversion Hs. split; [done|lia].
  - by destruct Hs as [-> _].
Qed.

Lemma get_Some cols x c :
  get cols x = Some c <-> 0 <= x /\ cols !! Z.to_nat x = Some c.
Proof.
  unfold get. destruct (Z.ltb_spec x 0); split; intros Hg; try discriminate.
  - lia.
  - split; [lia|done].
  - by destruct Hg.
Qed.

(** What the loop of lines 136-152 leaves: below [maxx] every column is
    the update of the column it was, the others are untouched. *)
Lemma update_columns_spec cfg maxy maxx cols g r g' :
  update_columns cfg maxy maxx cols g = Some (r, g') ->
  length r = length cols /\
  forall (i : nat) c, cols !! i = Some c ->
    (Z.of_nat i < maxx ->
       exists gi gi' c', update_column cfg maxy c gi = Some (c', gi') /\
                         r !! i = Some c') /\
    (maxx <= Z.of_nat i -> r !! i = Some c).
Proof.
  unfold update_columns, for_loop. intros Hrun.
  set (n := Z.to_nat (maxx - 0)) in Hrun.
  pose (P := fun (y : Z) (b : list Column) =>
    length b = length cols /\
    forall (i : nat) c, cols !! i = Some c ->
      (Z.of_nat i < y ->
         exists gi gi' c', update_column cfg maxy c gi = Some (c', gi') /\
                           b !! i = Some c') /\
      (y <= Z.of_nat i -> b !! i = Some c)).
  assert (HP : P (0 + Z.of_nat n) r).
  { eapply (for_range_inv P); [| |exact Hrun].
    - intros y b gb b' gb' Hy (Hlen & Hb) Hbody.
      apply bind_Some in Hbody as (c0 & g0 & Hget & Hbody).
      apply bind_Some in Hbody as (c1 & g1 & Hupd & Hset).
      apply lift_Some in Hget as [Hget ->].
      apply lift_Some in Hset as [Hset ->].
      apply get_Some in Hget as [Hy0 Hget].
      apply set_Some in Hset as [-> Hyl].
      split; [by rewrite length_insert|].
      intros i c Hc. destruct (Hb i c Hc) as [Hlo Hhi]. split.
      + intros Hi. destruct (decide (i = Z.to_nat y)) as [->|Hne].
        * rewrite (Hhi ltac:(lia)) in Hget. inversion Hget; subst c0.
          exists gb, g1, c1. split; [done|].
          apply list_lookup_insert_eq. lia.
        * rewrite list_lookup_insert_ne by done. apply Hlo. lia.
      + intros Hi. rewrite list_lookup_insert_ne by lia. apply Hhi. lia.
    - split; [done|]. intros i c Hc. split; [lia|done]. }
  destruct HP as [Hlen HP]. split; [done|].
  intros i c Hc. destruct (HP i c Hc) as [Hlo Hhi].
  split; intros Hi; [apply Hlo|apply Hhi]; lia.
Qed.

(** What the loop of line 123 leaves. *)
Lemma transfer_spec cols maxx nx ncols g r g' :
  transfer cols maxx nx ncols g = Some (r, g') ->
  g' = g /\ length r = length ncols /\
  forall i : nat,
    (Z.of_nat i < Z.min nx maxx -> r !! i = cols !! i /\ is_Some (cols !! i)) /\
    (Z.min nx maxx <= Z.of_nat i -> r !! i = ncols !! i).
Proof.
  unfold transfer, for_loop. intros Hrun.
  set (n := Z.to_nat (Z.min nx maxx - 0)) in Hrun.
  pose (P := fun (y : Z) (b : list Column) =>
    length b = length ncols /\
    forall i : nat,
      (Z.of_nat i < y -> b !! i = cols !! i /\ is_Some (cols !! i)) /\
      (y <= Z.of_nat i -> b !! i = ncols !! i)).
  assert (Hg : g' = g).
  { clearbody n. clear -Hrun. revert ncols g Hrun. generalize 0.
    induction n as [|n IH]; intros x b g Hrun; simpl in Hrun.
    - by apply ret_Some in Hrun as [_ ->].
    - apply bind_Some in Hrun as (b1 & g1 & Hbody & Hrun).
      apply bind_Some in Hbody as (c0 & g0 & Hget & Hset).
      apply lift_Some in Hget as [_ ->]. apply lift_Some in Hset as [_ ->].
      by apply IH in Hrun. }
  assert (HP : P (0 + Z.of_nat n) r).
  { eapply (for_range_inv P); [| |exact Hrun].
    - intros y b gb b' gb' Hy (Hlen & Hb) Hbody.
      apply bind_Some in Hbody as (c0 & g0 & Hget & Hset).
      apply lift_Some in Hget as [Hget ->].
      apply lift_Some in Hset as [Hset ->].
      apply get_Some in Hget as [Hy0 Hget].
      apply set_Some in Hset as [-> Hyl].
      split; [by rewrite length_insert|].
      intros i. destruct (Hb i) as [Hlo Hhi]. split.
      + intros Hi. destruct (decide (i = Z.to_nat y)) as [->|Hne].
        * rewrite list_lookup_insert_eq by lia. by rewrite Hget.
        * rewrite list_lookup_insert_ne by done. apply Hlo. lia.
      + intros Hi. rewrite list_lookup_insert_ne by lia. apply Hhi. lia.
    - split; [done|]. intros i. split; [lia|done]. }
  destruct HP as [Hlen HP]. split; [done|]. split; [done|].
  intros i. destruct (HP i) as [Hlo Hhi].
  split; intros Hi; [apply Hlo|apply Hhi]; lia.
Qed.

Lemma transfer_total cols maxx nx ncols g :
  maxx <= Z.of_nat (length cols) -> nx <= Z.of_nat (length ncols) ->
  exists r, transfer cols maxx nx ncols g = Some (r, g).
Proof.
  intros Hc Hn.
  assert (Hex : exists r g', transfer cols maxx nx ncols g = Some (r, g')).
  { unfold transfer, for_loop.
    apply (for_range_total (fun _ b => length b = length ncols)); [|done].
    intros y b gb Hy Hlen.
    destruct (lookup_lt_is_Some_2 cols (Z.to_nat y) ltac:(lia)) as [c Hc0].
    exists (<[Z.to_nat y := c]> b), gb. split; [|by rewrite length_insert].
    assert (Hget : get cols y = Some c) by (apply get_Some; split; [lia|done]).
    unfold bind, lift. rewrite Hget.
    assert (Hset : set b y c = Some (<[Z.to_nat y := c]> b))
      by (apply set_Some; split; [done|lia]).
    by rewrite Hset. }
  destruct Hex as (r & g' & Hr). exists r.
  by destruct (transfer_spec _ _ _ _ _ _ _ Hr) as [-> _].
Qed.

(** What the loops of lines 100-105 and 125-130 leave. *)
Lemma init_columns_spec cfg rows lo hi cols g r g' :
  init_columns cfg rows lo hi cols g = Some (r, g') ->
  length r = length cols /\
  forall i : nat,
    (Z.of_nat i < lo \/ hi <= Z.of_nat i -> r !! i = cols !! i) /\
    (lo <= Z.of_nat i < hi ->
       exists c gi gi', r !! i = Some c /\
                        init_column cfg rows gi = Some (c, gi')).
Proof.
  unfold init_columns, for_loop. intros Hrun.
  set (n := Z.to_nat (hi - lo)) in Hrun.
  pose (P := fun (y : Z) (b : list Column) =>
    length b = length cols /\
    forall i : nat,
      (Z.of_nat i < lo \/ y <= Z.of_nat i -> b !! i = cols !! i) /\
      (lo <= Z.of_nat i < y ->
         exists c gi gi', b !! i = Some c /\
                          init_column cfg rows gi = Some (c, gi'))).
  assert (HP : P (lo + Z.of_nat n) r).
  { eapply (for_range_inv P); [| |exact Hrun].
    - intros y b gb b' gb' Hy (Hlen & Hb) Hbody.
      apply bind_Some in Hbody as (c0 & g0 & Hinit & Hset).
      apply lift_Some in Hset as [Hset ->].
      apply set_Some in Hset as [-> Hyl].
      split; [by rewrite length_insert|].
      intros i. destruct (Hb i) as [Hout Hin]. split.
      + intros Hi. rewrite list_lookup_insert_ne by lia. apply Hout. lia.
      + intros Hi. destruct (decide (i = Z.to_nat y)) as [->|Hne].
        * exists c0, gb, g0. split; [|done].
          apply list_lookup_insert_eq. lia.
        * rewrite list_lookup_insert_ne by done. apply Hin. lia.
    - split; [done|]. intros i. split; [done|lia]. }
  destruct HP as [Hlen HP]. split; [done|].
  intros i. destruct (HP i) as [Hout Hin].
  split; intros Hi; [apply Hout|apply Hin]; lia.
Qed.

Lemma init_columns_total cfg rows lo hi cols g :
  0 < rows <= INT_MAX -> 0 <= lo -> hi <= Z.of_nat (length cols) ->
  exists r g', init_columns cfg rows lo hi cols g = Some (r, g').
Proof.
  intros Hrows Hlo Hhi. unfold init_columns, for_loop.
  apply (for_range_total (fun _ b => length b = length cols)); [|done].
  intros y b gb Hy Hlen.
  destruct (init_column_drawn cfg rows gb Hrows) as (c & g1 & Hc & _).
  exists (<[Z.to_nat y := c]> b), g1. split; [|by rewrite length_insert].
  rewrite (bind_step _ _ _ _ _ Hc).
  assert (Hset : set b y c = Some (<[Z.to_nat y := c]> b))
    by (apply set_Some; split; [done|lia]).
  unfold lift. by rewrite Hset.
Qed.

(** ** C8: a resize that adds columns keeps the old ones *)

Lemma calloc_Some ok n ncols :
  calloc ok n = Some ncols ->
  0 <= n /\ ncols = repeat zero_column (Z.to_nat n) /\
  Z.of_nat (length ncols) = n.
Proof.
  unfold calloc. destruct ok; simpl; [|discriminate].
  destruct (Z.leb_spec 0 n); [|discriminate].
  intros Hc. inversion Hc. rewrite repeat_length. repeat split; lia.
Qed.

(** C8: when the field grows from [maxx] to [nx] columns, what the resize
    returns has [nx] columns, the first [maxx] are the old ones, field by
    field, and each further one is as construction draws it for the new
    height. The resize does return when the new height is positive. *)
Theorem reflow_preservation cfg cols maxx ny nx ncols g :
  Z.of_nat (length cols) = maxx -> maxx < nx ->
  calloc true nx = Some ncols ->
  (forall r g', reflow cfg cols maxx ny nx ncols g = Some (r, g') ->
     Z.of_nat (length r) = nx /\
     (forall i : nat, Z.of_nat i < maxx -> r !! i = cols !! i) /\
     (forall i : nat, maxx <= Z.of_nat i < nx ->
        exists c gi gi', r !! i = Some c /\
                         init_column cfg ny gi = Some (c, gi'))) /\
  (0 < ny <= INT_MAX ->
     exists r g', reflow cfg cols maxx ny nx ncols g = Some (r, g')).
Proof.
  intros Hlen Hgrow Hcalloc.
  apply calloc_Some in Hcalloc as (Hnx & _ & Hnlen).
  split.
  - intros r g' Hrun. unfold reflow in Hrun.
    apply bind_Some in Hrun as (n1 & g1 & Htr & Hinit).
    apply transfer_spec in Htr as (-> & Hl1 & Htr).
    apply init_columns_spec in Hinit as (Hl2 & Hinit).
    split; [lia|]. split.
    + intros i Hi. destruct (Hinit i) as [Hout _].
      rewrite Hout by lia. destruct (Htr i) as [Hlo _].
      apply Hlo. lia.
    + intros i Hi. destruct (Hinit i) as [_ Hin]. by apply Hin.
  - intros Hny. unfold reflow.
    destruct (transfer_total cols maxx nx ncols g) as (n1 & Htr); [lia|lia|].
    rewrite (bind_step _ _ _ _ _ Htr).
    apply transfer_spec in Htr as (_ & Hl1 & _).
    apply init_columns_total; [done|lia|lia].
Qed.

Lemma reflow_preservation_witness :
  let c0 := mkColumn 3 7 d1 true in
  let c1 := mkColumn (-2) 20 d0_4 false in
  exists r g',
    reflow defaults [c0; c1] 2 24 4 (repeat zero_column 4) (Rng.mk 1 0)
    = Some (r, g') /\
    r !! 0%nat = Some c0 /\ r !! 1%nat = Some c1 /\ length r = 4%nat.
Proof.
  intros c0 c1.
  destruct (reflow_preservation defaults [c0; c1] 2 24 4 (repeat zero_column 4)
              (Rng.mk 1 0)) as [Hkeep Hruns].
  - reflexivity.
  - lia.
  - reflexivity.
  - destruct Hruns as (r & g' & Hr); [unfold INT_MAX; lia|].
    destruct (Hkeep r g' Hr) as (Hlen & Hold & _).
    exists r, g'. split; [exact Hr|].
    split; [apply (Hold 0%nat); lia|].
    split; [apply (Hold 1%nat); lia|lia].
Defined.

(** ** Invariants of the field along a run *)

Lemma update_columns_result cfg maxy maxx cols g r g' :
  update_columns cfg maxy maxx cols g = Some (r, g') ->
  length r = length cols /\
  forall (i : nat) c', r !! i = Some c' ->
    exists c, cols !! i = Some c /\
      (c' = c \/
       exists gi gi', update_column cfg maxy c gi = Some (c', gi')).
Proof.
  intros Hrun. apply update_columns_spec in Hrun as [Hlen Hspec].
  split; [done|]. intros i c' Hc'.
  destruct (lookup_lt_is_Some_2 cols i) as [c Hc].
  { rewrite <- Hlen. by eapply lookup_lt_Some. }
  exists c. split; [done|].
  destruct (Hspec i c Hc) as [Hlo Hhi].
  destruct (Z_lt_le_dec (Z.of_nat i) maxx) as [Hi|Hi].
  - destruct (Hlo Hi) as (gi & gi' & c1 & Hu & Hr).
    rewrite Hr in Hc'. inversion Hc'; subst c1. right. by exists gi, gi'.
  - rewrite (Hhi Hi) in Hc'. inversion Hc'. by left.
Qed.

(** ** C1: small viewports *)







Section FieldInvariant.

Variable cfg : Config.
(** A property of columns, and the heights for which it is kept. *)
Variable Q : Column -> Prop.
Variable tall : Z -> Prop.

Hypothesis Q_init : forall rows g c g',
  tall rows -> init_column cfg rows g = Some (c, g') -> Q c.
Hypothesis Q_update : forall rows g c c' g',
  tall rows -> Q c -> update_column cfg rows c g = Some (c', g') -> Q c'.

Lemma startup_inv b st tr :
  tall (maxy0 b) -> startup cfg b = Running st tr -> field_inv Q tall st.
Proof.
  intros Htall. unfold startup.
  destruct (calloc (mem0 b) (maxx0 b)) as [cols0|] eqn:Hc; [|discriminate].
  apply calloc_Some in Hc as (Hx & _ & Hlen0).
  destruct (init_columns cfg (maxy0 b) 0 (maxx0 b) cols0 _) as [[cols1 g1]|] eqn:Hi;
    [|discriminate].
  intros Hst. inversion Hst; subst st tr. clear Hst.
  apply init_columns_spec in Hi as [Hlen1 Hi].
  split; simpl; [lia|]. split; [|done].
  apply Forall_lookup. intros i c Hc.
  destruct (Hi i) as [_ Hin].
  destruct Hin as (c' & gi & gi' & Hc' & Hinit).
  { apply lookup_lt_Some in Hc. lia. }
  rewrite Hc in Hc'. inversion Hc'; subst c'. by eapply Q_init.
Qed.

Lemma present_inv st tr st' tr' :
  field_inv Q tall st -> present cfg st tr = Running st' tr' -> field_inv Q tall st'.
Proof.
  intros (Hlen & HQ & Htall). unfold present.
  destruct (paused st); [intros Hp; by inversion Hp; subst|].
  unfold simulate_and_draw.
  destruct (update_columns cfg (maxy st) (maxx st) (cols st) (rng st))
    as [[cols' g1]|] eqn:Hu; [|by rewrite bind_None].
  rewrite (bind_step _ _ _ _ _ Hu).
  destruct (draw_columns (bold_head cfg) (maxy st) (maxx st) cols' g1)
    as [[gl g2]|] eqn:Hd; [|by rewrite bind_None].
  rewrite (bind_step _ _ _ _ _ Hd). unfold ret.
  intros Hp. inversion Hp; subst st' tr'. clear Hp.
  apply update_columns_result in Hu as [Hlen' Hu].
  split; simpl; [lia|]. split; [|done].
  apply Forall_lookup. intros i c' Hc'.
  destruct (Hu i c' Hc') as (c & Hc & [->|(gi & gi' & Hupd)]).
  - by eapply Forall_lookup_1.
  - eapply Q_update; [exact Htall| |exact Hupd]. by eapply Forall_lookup_1.
Qed.

Lemma reflow_inv st f ncols ncols' g p :
  field_inv Q tall st -> tall (ny f) ->
  calloc (mem f) (nx f) = Some ncols ->
  reflow cfg (cols st) (maxx st) (ny f) (nx f) ncols (rng st) = Some (ncols', g) ->
  field_inv Q tall (mkState ncols' (nx f) (ny f) p g).
Proof.
  intros (Hlen & HQ & _) Htall Hc Hr.
  apply calloc_Some in Hc as (Hnx & _ & Hnlen).
  unfold reflow in Hr.
  apply bind_Some in Hr as (n1 & g1 & Htr & Hinit).
  apply transfer_spec in Htr as (-> & Hl1 & Htr).
  apply init_columns_spec in Hinit as (Hl2 & Hinit).
  split; simpl; [lia|]. split; [|done].
  apply Forall_lookup. intros i c Hc.
  assert (Hi : Z.of_nat i < nx f) by (apply lookup_lt_Some in Hc; lia).
  destruct (Hinit i) as [Hout Hin].
  destruct (Z_lt_le_dec (Z.of_nat i) (maxx st)) as [Hold|Hnew].
  - rewrite Hout in Hc by lia. destruct (Htr i) as [Hlo _].
    destruct Hlo as [Heq _]; [lia|]. rewrite Heq in Hc.
    by eapply Forall_lookup_1.
  - destruct Hin as (c' & gi & gi' & Hc' & Hi'); [lia|].
    rewrite Hc in Hc'. inversion Hc'; subst c'. by eapply Q_init.
Qed.

Lemma iteration_inv f st tr st' tr' :
  field_inv Q tall st -> tall (ny f) ->
  iteration cfg f st tr = Running st' tr' -> field_inv Q tall st'.
Proof.
  intros Hinv Htall. unfold iteration.
  destruct (is_quit (key f)); [discriminate|].
  destruct (negb (nx f =? maxx st) || negb (ny f =? maxy st)) eqn:Hres.
  - destruct (calloc (mem f) (nx f)) as [ncols|] eqn:Hc; [|discriminate].
    destruct (reflow cfg _ _ _ _ ncols (rng st)) as [[ncols' g]|] eqn:Hr;
      [|discriminate].
    apply present_inv. by eapply reflow_inv.
  - apply present_inv. destruct Hinv as (Hlen & HQ & Ht). by repeat split.
Qed.

Lemma loop_inv frames : forall st tr st' tr',
  field_inv Q tall st -> Forall (fun f => tall (ny f)) frames ->
  loop cfg frames st tr = Running st' tr' -> field_inv Q tall st'.
Proof.
  induction frames as [|f frames IH]; intros st tr st' tr' Hinv Hf; simpl.
  - intros Hl. by inversion Hl; subst.
  - apply Forall_cons in Hf as [Hf1 Hf].
    destruct (iteration cfg f st tr) as [| |st1 tr1] eqn:Hit; try discriminate.
    apply IH; [|done]. by eapply iteration_inv.
Qed.

Lemma run_inv b frames st tr :
  tall (maxy0 b) -> Forall (fun f => tall (ny f)) frames ->
  run cfg b frames = Running st tr -> field_inv Q tall st.
Proof.
  intros Hb Hf. unfold run.
  destruct (startup cfg b) as [| |st0 tr0] eqn:Hs; try discriminate.
  apply loop_inv; [|done]. by eapply startup_inv.
Qed.

End FieldInvariant.

(** ** C6: the tail length stays in [[5, 24]] *)

Lemma roll_tail_ok g t g' : roll_tail g = Some (t, g') -> 5 <= t <= 24.
Proof.
  rewrite roll_tail_value. intros Ht. inversion Ht.
  pose proof (Z.mod_pos_bound (draw g) 20 ltac:(lia)). lia.
Qed.

Lemma init_column_tail_ok cfg rows g c g' :
  init_column cfg rows g = Some (c, g') -> tail_ok c.
Proof.
  unfold init_column. intros Hi.
  apply bind_Some in Hi as (a & g1 & _ & Hi).
  apply bind_Some in Hi as (t & g2 & Ht & Hi).
  apply bind_Some in Hi as (s & g3 & _ & Hi).
  apply bind_Some in Hi as (h & g4 & _ & Hi).
  apply ret_Some in Hi as [-> _]. by apply roll_tail_ok in Ht.
Qed.

Lemma reset_column_tail_ok cfg rows g c g' :
  reset_column cfg rows g = Some (c, g') -> tail_ok c.
Proof.
  unfold reset_column. intros Hi.
  apply bind_Some in Hi as (a & g1 & _ & Hi).
  apply bind_Some in Hi as (h & g2 & _ & Hi).
  apply bind_Some in Hi as (t & g3 & Ht & Hi).
  apply bind_Some in Hi as (s & g4 & _ & Hi).
  apply ret_Some in Hi as [-> _]. by apply roll_tail_ok in Ht.
Qed.

Lemma start_column_tail_ok cfg rows g c g' :
  start_column cfg rows g = Some (c, g') -> tail_ok c.
Proof.
  unfold start_column. intros Hi.
  apply bind_Some in Hi as (h & g2 & _ & Hi).
  apply bind_Some in Hi as (t & g3 & Ht & Hi).
  apply bind_Some in Hi as (s & g4 & _ & Hi).
  apply ret_Some in Hi as [-> _]. by apply roll_tail_ok in Ht.
Qed.

(** The cases of the update of one column. *)
Lemma update_column_cases cfg rows c g c' g' :
  update_column cfg rows c g = Some (c', g') ->
  (active c = true /\ exists h g1,
     advance_head c g = Some (h, g1) /\
     ((tail_off_screen rows c h = Some true /\
       reset_column cfg rows g1 = Some (c', g')) \/
      (tail_off_screen rows c h = Some false /\
       c' = mkColumn h (tail c) (speed c) (active c) /\ g' = g1))) \/
  (active c = false /\
   ((Double.ltb (unit_of (draw g)) (Double.div (density cfg) d200) = true /\
     start_column cfg rows (next g) = Some (c', g')) \/
    (Double.ltb (unit_of (draw g)) (Double.div (density cfg) d200) = false /\
     c' = c /\ g' = next g))).
Proof.
  unfold update_column. destruct (active c); intros Hu.
  - left. split; [done|].
    apply bind_Some in Hu as (h & g1 & Hadv & Hu).
    apply bind_Some in Hu as (off & g2 & Hoff & Hu).
    apply lift_Some in Hoff as [Hoff ->].
    exists h, g1. split; [done|]. destruct off.
    + by left.
    + right. apply ret_Some in Hu as [-> ->]. done.
  - right. split; [done|].
    rewrite (bind_step _ _ _ _ _ (drand_Some g)) in Hu.
    fold (draw g) (next g) (unit_of (draw g)) in Hu.
    destruct (Double.ltb _ _).
    + by left.
    + right. by apply ret_Some in Hu as [-> ->].
Qed.

Lemma update_column_tail_ok cfg rows c g c' g' :
  tail_ok c -> update_column cfg rows c g = Some (c', g') -> tail_ok c'.
Proof.
  intros Hc Hu.
  apply update_column_cases in Hu
    as [(_ & h & g1 & _ & [[_ Hr]|(_ & -> & _)])|(_ & [[_ Hs]|(_ & -> & _)])];
    try done.
  - by eapply reset_column_tail_ok.
  - by eapply start_column_tail_ok.
Qed.

(** C6: in every state that a run of the program reaches, after
    construction and after any number of iterations with their resizes,
    resets and activations, every column has a tail length between 5 and
    24. *)
Theorem trail_length_in_range atof atoi b args frames st tr :
  main atof atoi b args frames = Running st tr ->
  Forall tail_ok (cols st).
Proof.
  unfold main. destruct (parse_args atof atoi defaults args) as [cfg|code];
    [|discriminate].
  intros Hrun.
  eapply (run_inv cfg tail_ok (fun _ => True)) in Hrun as (_ & HQ & _); [done|..].
  - intros rows g c g' _. apply init_column_tail_ok.
  - intros rows g c c' g' _. apply update_column_tail_ok.
  - done.
  - by apply Forall_forall.
Qed.

Lemma trail_length_in_range_witness :
  exists st tr,
    main (fun _ => d1) (fun _ => 60) (mkBoot "matrix" 12345 6 3 true)
      ["--bold"%string] [mkFrame (-1) 6 3 true; mkFrame 112 6 5 true; mkFrame 80 4 2 true]
    = Running st tr /\ Forall tail_ok (cols st).
Proof.
  eexists _, _. split; [vm_compute; reflexivity|].
  eapply (trail_length_in_range (fun _ => d1) (fun _ => 60)
            (mkBoot "matrix" 12345 6 3 true) ["--bold"%string]
            [mkFrame (-1) 6 3 true; mkFrame 112 6 5 true; mkFrame 80 4 2 true]).
  vm_compute. reflexivity.
Defined.

(** ** Magnitudes of binary64 numbers *)

Lemma digits2_pos_bounds m :
  2 ^ (Zpos (digits2_pos m) - 1) <= Zpos m < 2 ^ Zpos (digits2_pos m).
Proof.
  induction m as [m IH|m IH|]; simpl digits2_pos.
  - rewrite Pos2Z.inj_succ.
    replace (Z.succ (Zpos (digits2_pos m)) - 1) with (Z.succ (Zpos (digits2_pos m) - 1)) by lia.
    rewrite !Z.pow_succ_r by lia. lia.
  - rewrite Pos2Z.inj_succ.
    replace (Z.succ (Zpos (digits2_pos m)) - 1) with (Z.succ (Zpos (digits2_pos m) - 1)) by lia.
    rewrite !Z.pow_succ_r by lia. lia.
  - simpl. lia.
Qed.

(** The mantissa of a valid number with an exponent above the smallest
    one has 53 bits. *)
Lemma valid_normal_mantissa s m e :
  Double.valid (S754_finite s m e) = true -> emin prec emax < e ->
  2 ^ 52 <= Zpos m < 2 ^ 53.
Proof.
  unfold Double.valid, valid_binary, bounded, canonical_mantissa, fexp.
  intros Hv He. apply andb_prop in Hv as [Hc _]. apply Z.eqb_eq in Hc.
  assert (Hd : Zpos (digits2_pos m) = 53) by (unfold prec in *; lia).
  pose proof (digits2_pos_bounds m) as Hb. rewrite Hd in Hb. exact Hb.
Qed.

Lemma ltb_one_false_exponent m e :
  Double.ltb (S754_finite false m e) d1 = false ->
  -52 < e \/ (e = -52 /\ 2 ^ 52 <= Zpos m).
Proof.
  unfold Double.ltb, SFltb, d1, SFcompare.
  destruct (Z.compare_spec e (-52)) as [->|Hlt|Hgt]; [|discriminate|lia].
  intros Hc. right. split; [done|].
  destruct (Pos.compare_cont Eq m 4503599627370496) eqn:Hcmp; try discriminate.
  - apply Pos.compare_eq_iff in Hcmp. subst m. lia.
  - apply Pos.compare_gt_iff in Hcmp. lia.
Qed.

(** The integer part of a positive number that is not below [1.0] is at
    least 1. *)
Lemma trunc_at_least_one x k :
  Double.valid x = true -> Double.ltb d0 x = true -> Double.ltb x d1 = false ->
  Double.trunc x = Some k -> 1 <= k.
Proof.
  destruct x as [s|s| |s m e]; try discriminate.
  intros Hv Hpos Hone Ht.
  destruct s; [discriminate|]. clear Hpos.
  unfold Double.trunc in Ht. inversion Ht; subst k. clear Ht.
  assert (He : -52 <= e) by (apply ltb_one_false_exponent in Hone; lia).
  assert (Hm : 2 ^ 52 <= Zpos m).
  { destruct (ltb_one_false_exponent _ _ Hone) as [Hgt|[_ Hm]]; [|done].
    apply (valid_normal_mantissa false m e Hv). unfold emin, emax, prec. lia. }
  destruct e as [|p|p].
  - rewrite Z.shiftl_0_r. lia.
  - rewrite Z.shiftl_mul_pow2 by lia.
    pose proof (Z.pow_pos_nonneg 2 (Zpos p) ltac:(lia) ltac:(lia)). nia.
  - rewrite Z.shiftr_div_pow2 by lia.
    apply Z.div_le_lower_bound.
    + apply Z.pow_pos_nonneg; lia.
    + assert (2 ^ Zpos p <= 2 ^ 52) by (apply Z.pow_le_mono_r; lia). lia.
Qed.

(** ** C7: the fall of the head *)

(** Below [1.0] the step is 0 or 1, and one value is read from [rnd32]. *)
Lemma head_step_fraction c g :
  Double.ltb (speed c) d1 = true ->
  exists k, head_step c g = Some (k, next g) /\ (k = 0 \/ k = 1).
Proof.
  intros Hs. unfold head_step. rewrite Hs.
  rewrite (bind_step _ _ _ _ _ (drand_Some g)).
  exists (if Double.ltb (unit_of (draw g)) (speed c) then 1 else 0).
  split; [reflexivity|].
  destruct (Double.ltb (unit_of (draw g)) (speed c)); auto.
Qed.

(** From [1.0] on the step is the integer part, provided it is an [int]. *)
Lemma head_step_whole c g k g' :
  Double.valid (speed c) = true -> Double.ltb d0 (speed c) = true ->
  Double.ltb (speed c) d1 = false ->
  head_step c g = Some (k, g') ->
  Double.trunc (speed c) = Some k /\ 1 <= k <= INT_MAX /\ g' = g.
Proof.
  intros Hv Hpos Hone. unfold head_step. rewrite Hone.
  intros Hl. apply lift_Some in Hl as [Hti ->].
  unfold Double.to_int in Hti.
  destruct (Double.trunc (speed c)) as [z|] eqn:Ht; [|discriminate].
  apply chk_Some in Hti as [-> Hr].
  split; [done|]. split; [|done].
  pose proof (trunc_at_least_one _ _ Hv Hpos Hone Ht). lia.
Qed.

(** X18. One column: whenever the update of an active column
    with a positive speed is defined and is not a reset, the head has moved
    down by 0 or 1 row for a speed below [1.0], and by the integer part of
    the speed, at least 1, otherwise. *)
Lemma monotonic_fall_when_defined cfg rows c g c' g' :
  active c = true -> Double.valid (speed c) = true ->
  Double.ltb d0 (speed c) = true ->
  update_column cfg rows c g = Some (c', g') ->
  (exists h g1, advance_head c g = Some (h, g1) /\
                tail_off_screen rows c h = Some true) \/
  (exists k, c' = mkColumn (head_y c + k) (tail c) (speed c) (active c) /\
     0 <= k /\
     (Double.ltb (speed c) d1 = true -> k = 0 \/ k = 1) /\
     (Double.ltb (speed c) d1 = false ->
        Double.trunc (speed c) = Some k /\ 1 <= k)).
Proof.
  intros Ha Hv Hpos Hu.
  apply update_column_cases in Hu as [(_ & h & g1 & Hadv & Hcase)|[Hna _]];
    [|congruence].
  destruct Hcase as [[Hoff _]|(_ & -> & _)]; [left; by exists h, g1|].
  right. unfold advance_head in Hadv.
  apply bind_Some in Hadv as (k & g2 & Hk & Hh).
  apply lift_Some in Hh as [Hh _]. apply chk_Some in Hh as [-> _].
  exists k. split; [done|].
  destruct (Double.ltb (speed c) d1) eqn:Hone.
  - destruct (head_step_fraction c g Hone) as (k' & Hk' & Hval).
    rewrite Hk in Hk'. inversion Hk'; subst k'.
    split; [lia|]. split; [done|discriminate].
  - destruct (head_step_whole c g k g2 Hv Hpos Hone Hk) as (Ht & Hr & _).
    split; [lia|]. split; [discriminate|]. intros _. split; [done|lia].
Qed.



(** Where line 139 has no defined result. Under [--speed 1e10] the first
    column of this run is active with a speed of about [1.58e10]; its
    integer part is no [int], the conversion [(int)cols[x].speed] is
    undefined in C, and the pass has no result to which the statement
    above could apply. *)
Lemma fast_column_update_undefined :
  let c := mkColumn (-21) 12 (S754_finite false 8265800120088593 (-19)) true in
  let g := Rng.mk 1264299559530921381 12345 in
  init_column fast_rain 24 (Rng.mk 0 12345) = Some (c, g) /\
  Double.valid (speed c) = true /\
  Double.ltb d0 (speed c) = true /\
  Double.trunc (speed c) = Some 15765762558 /\
  update_column fast_rain 24 c g = None.
Proof. vm_compute. repeat split. Qed.

Lemma run_fast_rain_undefined :
  run fast_rain (mkBoot "matrix" 12345 24 2 true) [mkFrame (-1) 24 2 true]
  = Undefined [EInitscr].
Proof. vm_compute. reflexivity. Qed.

(** ** C9: the value of [--density] *)

Lemma leb_zero_of_not_below d :
  d <> S754_nan -> Double.ltb d d0 = false -> Double.leb d0 d = true.
Proof. destruct d as [s|s| |s m e]; try done; by destruct s. Qed.

Lemma leb_one_of_not_above d :
  d <> S754_nan -> Double.ltb d1 d = false -> Double.leb d d1 = true.
Proof.
  destruct d as [s|s| |s m e]; try done; destruct s; try done.
  intros _. unfold Double.ltb, Double.leb, SFltb, SFleb, d1, SFcompare.
  rewrite (Z.compare_antisym e (-52)).
  change (Pos.compare_cont Eq 4503599627370496 m)
    with (Pos.compare_cont (CompOpp Eq) 4503599627370496 m).
  rewrite <- (Pos.compare_cont_antisym m 4503599627370496 Eq).
  destruct (e ?= -52); unfold CompOpp; try done.
  by destruct (Pos.compare_cont Eq m 4503599627370496).
Qed.

Lemma ltb_above_one_not_below_zero d :
  Double.ltb d1 d = true -> Double.ltb d d0 = false.
Proof. destruct d as [s|s| |s m e]; try done; by destruct s. Qed.

Lemma ltb_zero_of_not_below d :
  Double.leb d0 d = true -> Double.ltb d d0 = false.
Proof. destruct d as [s|s| |s m e]; try done; by destruct s. Qed.

Lemma ltb_one_of_not_above d :
  Double.leb d d1 = true -> Double.ltb d1 d = false.
Proof.
  destruct d as [s|s| |s m e]; try done; destruct s; try done.
  unfold Double.ltb, Double.leb, SFltb, SFleb, d1, SFcompare.
  rewrite (Z.compare_antisym e (-52)).
  change (Pos.compare_cont Eq 4503599627370496 m)
    with (Pos.compare_cont (CompOpp Eq) 4503599627370496 m).
  rewrite <- (Pos.compare_cont_antisym m 4503599627370496 Eq).
  destruct (e ?= -52); unfold CompOpp; try done.
  by destruct (Pos.compare_cont Eq m 4503599627370496).
Qed.

(** X20. What line 76 does with the value of [--density]: the parsing
    goes on, whatever the value is; the density becomes 0 for a value
    below 0 and 1 for a value above 1; a value from 0 to 1 is kept as it
    is; so every value that is a number ends up between 0 and 1. A NaN is
    below nothing and above nothing, and is kept. *)
Theorem density_option_clamped atof atoi cfg v rest :
  let d := atof v in
  parse_args atof atoi cfg ("--density"%string :: v :: rest)
  = parse_args atof atoi (with_density cfg (clamp_density d)) rest /\
  (Double.ltb d d0 = true -> clamp_density d = d0) /\
  (Double.ltb d1 d = true -> clamp_density d = d1) /\
  (Double.leb d0 d = true -> Double.leb d d1 = true -> clamp_density d = d) /\
  (d <> S754_nan ->
     Double.leb d0 (clamp_density d) = true /\
     Double.leb (clamp_density d) d1 = true) /\
  (d = S754_nan -> clamp_density d = S754_nan).
Proof.
  intros d. split; [reflexivity|]. unfold clamp_density.
  split; [by intros ->|]. split.
  { intros Hhi. by rewrite (ltb_above_one_not_below_zero d Hhi), Hhi. }
  split.
  { intros Hlo Hhi.
    by rewrite (ltb_zero_of_not_below d Hlo), (ltb_one_of_not_above d Hhi). }
  split; [|by intros ->].
  intros Hnan. destruct (Double.ltb d d0) eqn:Hlo; [done|].
  destruct (Double.ltb d1 d) eqn:Hhi; [done|].
  split; [by apply leb_zero_of_not_below|by apply leb_one_of_not_above].
Qed.

(** C9, at the failing input: a value that [atof] reads as a NaN, as it
    does for [--density nan], passes both comparisons of line 76; the
    parser accepts it and the density of the run is the NaN, which is
    neither at least 0 nor at most 1. *)
Theorem density_nan_not_clamped atof atoi cfg v :
  atof v = S754_nan ->
  parse_args atof atoi cfg ["--density"%string; v]
  = Options (with_density cfg S754_nan) /\
  Double.leb d0 (density (with_density cfg S754_nan)) = false /\
  Double.leb (density (with_density cfg S754_nan)) d1 = false.
Proof.
  intros Hnan. split; [|done].
  change (parse_args atof atoi cfg ["--density"%string; v])
    with (Options (with_density cfg (clamp_density (atof v)))).
  by rewrite Hnan.
Qed.

Lemma density_nan_not_clamped_witness :
  parse_args (fun s : string => if String.eqb s "nan" then S754_nan else d0)
    (fun _ => 0) defaults ["--density"%string; "nan"%string]
  = Options (with_density defaults S754_nan) /\
  Double.leb d0 (density (with_density defaults S754_nan)) = false /\
  Double.leb (density (with_density defaults S754_nan)) d1 = false.
Proof.
  apply (density_nan_not_clamped
           (fun s : string => if String.eqb s "nan" then S754_nan else d0)
           (fun _ => 0) defaults "nan").
  reflexivity.
Defined.

(** With a NaN density no activity roll succeeds: the rain behaves as
    with density 0. *)
Lemma ltb_nan_false d : Double.ltb d S754_nan = false.
Proof. by destruct d. Qed.

(** ** Rounding in the normal range *)

Lemma digits2_pos_unique p k :
  2 ^ (k - 1) <= Zpos p < 2 ^ k -> 0 < k -> Zpos (digits2_pos p) = k.
Proof.
  intros Hb Hk. pose proof (digits2_pos_bounds p) as Hd.
  set (d := Zpos (digits2_pos p)) in *.
  assert (Hdpos : 0 < d) by (subst d; lia).
  destruct (Z.lt_trichotomy d k) as [Hlt|[Heq|Hgt]]; [|done|].
  - assert (2 ^ d <= 2 ^ (k - 1)) by (apply Z.pow_le_mono_r; lia). lia.
  - assert (2 ^ k <= 2 ^ (d - 1)) by (apply Z.pow_le_mono_r; lia). lia.
Qed.

Lemma shr_1_div2 r : 0 <= shr_m r -> shr_m (shr_1 r) = shr_m r / 2.
Proof.
  destruct r as [m b1 b2]. simpl. intros Hm.
  destruct m as [|[p|p|]|p]; simpl shr_m; try lia.
  - done.
  - rewrite Pos2Z.inj_xI. apply Z.div_unique with (r := 1); lia.
  - rewrite Pos2Z.inj_xO. apply Z.div_unique with (r := 0); lia.
  - done.
Qed.

Lemma iter_shr_1_div p : forall r,
  0 <= shr_m r ->
  shr_m (SpecFloat.iter_pos shr_1 p r) = shr_m r / 2 ^ Zpos p.
Proof.
  induction p as [p IH|p IH|]; intros r Hr; simpl SpecFloat.iter_pos.
  - assert (H1 : 0 <= shr_m (shr_1 r)) by by apply shr_1_nonneg.
    assert (H2 : 0 <= shr_m (SpecFloat.iter_pos shr_1 p (shr_1 r)))
      by (by apply iter_pos_preserves; [apply shr_1_nonneg|]).
    rewrite IH, IH, shr_1_div2 by done.
    rewrite !Z.div_div by (try apply Z.pow_pos_nonneg; lia).
    f_equal. rewrite (Pos2Z.inj_xI p).
    replace (2 * Zpos p + 1) with (1 + Zpos p + Zpos p) by lia.
    rewrite !Z.pow_add_r by lia. lia.
  - assert (H2 : 0 <= shr_m (SpecFloat.iter_pos shr_1 p r))
      by (by apply iter_pos_preserves; [apply shr_1_nonneg|]).
    rewrite IH, IH by done.
    rewrite !Z.div_div by (try apply Z.pow_pos_nonneg; lia).
    f_equal. rewrite (Pos2Z.inj_xO p).
    replace (2 * Zpos p) with (Zpos p + Zpos p) by lia.
    rewrite !Z.pow_add_r by lia. lia.
  - rewrite shr_1_div2 by done. done.
Qed.

(** A mantissa of [53 + n] bits is shifted right by [n] bits. *)
Lemma shr_fexp_normal m e l n :
  0 <= n -> 2 ^ 52 * 2 ^ n <= Zpos m < 2 ^ 53 * 2 ^ n -> -1074 <= e + n ->
  exists r, shr_fexp prec emax (Zpos m) e l = (r, e + n) /\
            shr_m r = Zpos m / 2 ^ n.
Proof.
  intros Hn Hm He.
  assert (Hd : Zpos (digits2_pos m) = 53 + n).
  { apply digits2_pos_unique; [|lia].
    replace (53 + n - 1) with (52 + n) by lia.
    rewrite !Z.pow_add_r by lia. lia. }
  unfold shr_fexp, Zdigits2. rewrite Hd.
  assert (Hf : fexp prec emax (53 + n + e) - e = n)
    by (unfold fexp, emin, prec, emax; lia).
  rewrite Hf. unfold shr. destruct n as [|p|p]; [| |lia].
  - eexists. split; [by rewrite Z.add_0_r|].
    by rewrite shr_record_of_loc_m, Z.pow_0_r, Z.div_1_r.
  - eexists. split; [done|].
    rewrite iter_shr_1_div by (rewrite shr_record_of_loc_m; lia).
    by rewrite shr_record_of_loc_m.
Qed.

Lemma round_nearest_even_bounds m l :
  m <= round_nearest_even m l <= m + 1.
Proof.
  unfold round_nearest_even. destruct l as [|[]]; try lia.
  destruct (Z.even m); lia.
Qed.

(** Rounding a mantissa of [53 + n] bits in the normal range gives a
    finite number with a mantissa of 53 bits. *)
Lemma binary_round_aux_normal s m e l n :
  0 <= n -> 2 ^ 52 * 2 ^ n <= Zpos m < 2 ^ 53 * 2 ^ n ->
  -1074 <= e + n -> e + n + 1 <= 971 ->
  exists m' e',
    binary_round_aux prec emax s (Zpos m) e l = S754_finite s m' e' /\
    2 ^ 52 <= Zpos m' < 2 ^ 53 /\ e + n <= e' <= e + n + 1.
Proof.
  intros Hn Hm Hlo Hhi.
  destruct (shr_fexp_normal m e l n Hn Hm Hlo) as (r1 & Hs1 & Hr1).
  unfold binary_round_aux. rewrite Hs1.
  assert (Hp : 0 < 2 ^ n) by (apply Z.pow_pos_nonneg; lia).
  assert (Hq : 2 ^ 52 <= shr_m r1 < 2 ^ 53).
  { rewrite Hr1. split.
    - apply Z.div_le_lower_bound; lia.
    - apply Z.div_lt_upper_bound; lia. }
  pose proof (round_nearest_even_bounds (shr_m r1) (loc_of_shr_record r1)) as Hrn.
  set (m2 := round_nearest_even (shr_m r1) (loc_of_shr_record r1)) in *.
  destruct m2 as [|p2|p2] eqn:Hm2; [lia| |lia].
  destruct (Z_lt_le_dec (Zpos p2) (2 ^ 53)) as [Hsmall|Hbig].
  - destruct (shr_fexp_normal p2 (e + n) loc_Exact 0) as (r2 & Hs2 & Hr2);
      [lia|rewrite Z.pow_0_r; lia|lia|].
    rewrite Hs2. rewrite Hr2, Z.pow_0_r, Z.div_1_r.
    replace (e + n + 0 <=? emax - prec) with true
      by (symmetry; apply Z.leb_le; unfold emax, prec; lia).
    exists p2, (e + n + 0). split; [done|]. lia.
  - assert (Hp2 : Zpos p2 = 2 ^ 53) by lia.
    destruct (shr_fexp_normal p2 (e + n) loc_Exact 1) as (r2 & Hs2 & Hr2);
      [lia|rewrite Hp2; lia|lia|].
    rewrite Hs2. rewrite Hr2, Hp2.
    change (2 ^ 53 / 2 ^ 1) with (Zpos 4503599627370496).
    replace (e + n + 1 <=? emax - prec) with true
      by (symmetry; apply Z.leb_le; unfold emax, prec; lia).
    exists 4503599627370496%positive, (e + n + 1). split; [done|]. lia.
Qed.

Lemma iter_xO_pow p k : Zpos (Pos.iter xO p k) = Zpos p * 2 ^ Zpos k.
Proof.
  induction k as [|k IH] using Pos.peano_ind.
  - simpl. lia.
  - rewrite Pos.iter_succ, Pos2Z.inj_xO, IH, Pos2Z.inj_succ, Z.pow_succ_r by lia.
    lia.
Qed.

Lemma shl_align_value m e ez :
  ez <= e -> Zpos (fst (shl_align m e ez)) = Zpos m * 2 ^ (e - ez).
Proof.
  intros Hle. unfold shl_align.
  destruct (ez - e) as [|k|k] eqn:Hk; simpl fst.
  - replace (e - ez) with 0 by lia. rewrite Z.pow_0_r. lia.
  - lia.
  - rewrite iter_xO_pow. f_equal. f_equal. lia.
Qed.

(** [(double) u] for a positive value of [rnd32]. *)
Lemma of_Z_normal u :
  0 < u < 2 ^ 32 -> normal (-52) (-20) (Double.of_Z u).
Proof.
  intros Hu. destruct u as [|p|p]; try lia.
  unfold Double.of_Z, binary_normalize, binary_round.
  pose proof (digits2_pos_bounds p) as Hd.
  set (d := Zpos (digits2_pos p)) in *.
  assert (Hd1 : 1 <= d) by (subst d; lia).
  assert (Hd2 : d <= 32).
  { destruct (Z_le_gt_dec d 32) as [|Hgt]; [done|].
    assert (2 ^ 32 <= 2 ^ (d - 1)) by (apply Z.pow_le_mono_r; lia). lia. }
  replace (d + 0) with d by lia.
  assert (Hf : fexp prec emax d = d - 53) by (unfold fexp, emin, prec, emax; lia).
  rewrite Hf.
  assert (Hm : Zpos (fst (shl_align p 0 (d - 53))) = Zpos p * 2 ^ (53 - d)).
  { rewrite shl_align_value by lia. f_equal. f_equal. lia. }
  assert (He : snd (shl_align p 0 (d - 53)) = d - 53).
  { unfold shl_align. destruct (d - 53 - 0) as [|k|k] eqn:Hk; simpl; lia. }
  destruct (shl_align p 0 (d - 53)) as [mz ez]. simpl in Hm, He. subst ez.
  assert (Hp1 : 2 ^ (d - 1) * 2 ^ (53 - d) = 2 ^ 52).
  { rewrite <- Z.pow_add_r by lia. f_equal. lia. }
  assert (Hp2 : 2 ^ d * 2 ^ (53 - d) = 2 ^ 53).
  { rewrite <- Z.pow_add_r by lia. f_equal. lia. }
  assert (Hpos : 0 < 2 ^ (53 - d)) by (apply Z.pow_pos_nonneg; lia).
  destruct (binary_round_aux_normal false mz (d - 53) loc_Exact 0)
    as (m' & e' & Hr & Hm' & He'); [lia| |lia|lia|].
  { rewrite Z.pow_0_r, Hm. nia. }
  exists m', e'. split; [done|]. split; [done|lia].
Qed.

Lemma div_normal l1 h1 l2 h2 x y :
  normal l1 h1 x -> normal l2 h2 y ->
  -1074 <= l1 - h2 - 53 -> h1 - l2 - 51 <= 971 ->
  normal (l1 - h2 - 53) (h1 - l2 - 51) (Double.div x y).
Proof.
  intros (m1 & e1 & -> & Hm1 & He1) (m2 & e2 & -> & Hm2 & He2) Hlo Hhi.
  unfold Double.div, SFdiv, SFdiv_core_binary, Zdigits2.
  rewrite (digits2_pos_unique m1 53), (digits2_pos_unique m2 53) by lia.
  assert (He' : Z.min (fexp prec emax (53 + e1 - (53 + e2))) (e1 - e2)
                = e1 - e2 - 53) by (unfold fexp, emin, prec, emax; lia).
  rewrite He'. replace (e1 - e2 - (e1 - e2 - 53)) with 53 by lia.
  rewrite Z.shiftl_mul_pow2 by lia.
  pose proof (Z_div_mod (Zpos m1 * 2 ^ 53) (Zpos m2) ltac:(lia)) as Hdm.
  destruct (Z.div_eucl (Zpos m1 * 2 ^ 53) (Zpos m2)) as [q r].
  destruct Hdm as [Hq Hr].
  assert (Hqlo : 2 ^ 52 <= q) by nia.
  assert (Hqhi : q < 2 ^ 54) by nia.
  destruct q as [|pq|pq]; try lia.
  destruct (Z_lt_le_dec (Zpos pq) (2 ^ 53)) as [Hsmall|Hbig].
  - destruct (binary_round_aux_normal (xorb false false) pq (e1 - e2 - 53)
                (new_location (Zpos m2) r) 0)
      as (m' & e' & Hres & Hm' & Hex); [lia|rewrite Z.pow_0_r; lia|lia|lia|].
    exists m', e'. split; [done|]. split; [done|lia].
  - destruct (binary_round_aux_normal (xorb false false) pq (e1 - e2 - 53)
                (new_location (Zpos m2) r) 1)
      as (m' & e' & Hres & Hm' & Hex); [lia|lia|lia|lia|].
    exists m', e'. split; [done|]. split; [done|lia].
Qed.

Lemma mul_normal l1 h1 l2 h2 x y :
  normal l1 h1 x -> normal l2 h2 y ->
  -1074 <= l1 + l2 + 52 -> h1 + h2 + 54 <= 971 ->
  normal (l1 + l2 + 52) (h1 + h2 + 54) (Double.mul x y).
Proof.
  intros (m1 & e1 & -> & Hm1 & He1) (m2 & e2 & -> & Hm2 & He2) Hlo Hhi.
  unfold Double.mul, SFmul.
  assert (Hplo : 2 ^ 52 * 2 ^ 52 <= Zpos (m1 * m2)) by (rewrite Pos2Z.inj_mul; nia).
  assert (Hphi : Zpos (m1 * m2) < 2 ^ 53 * 2 ^ 53) by (rewrite Pos2Z.inj_mul; nia).
  destruct (Z_lt_le_dec (Zpos (m1 * m2)) (2 ^ 53 * 2 ^ 52)) as [Hsmall|Hbig].
  - destruct (binary_round_aux_normal (xorb false false) (m1 * m2) (e1 + e2)
                loc_Exact 52)
      as (m' & e' & Hres & Hm' & Hex); [lia|lia|lia|lia|].
    exists m', e'. split; [done|]. split; [done|lia].
  - destruct (binary_round_aux_normal (xorb false false) (m1 * m2) (e1 + e2)
                loc_Exact 53)
      as (m' & e' & Hres & Hm' & Hex); [lia|lia|lia|lia|].
    exists m', e'. split; [done|]. split; [done|lia].
Qed.

Lemma binary_round_normal p e n :
  0 <= n -> 2 ^ 52 * 2 ^ n <= Zpos p < 2 ^ 53 * 2 ^ n ->
  -1074 <= e + n -> e + n + 1 <= 971 ->
  exists m' e',
    binary_round prec emax false p e = S754_finite false m' e' /\
    2 ^ 52 <= Zpos m' < 2 ^ 53 /\ e + n <= e' <= e + n + 1.
Proof.
  intros Hn Hp Hlo Hhi.
  assert (Hd : Zpos (digits2_pos p) = 53 + n).
  { apply digits2_pos_unique; [|lia].
    replace (53 + n - 1) with (52 + n) by lia.
    rewrite !Z.pow_add_r by lia. lia. }
  unfold binary_round. rewrite Hd.
  assert (Hf : fexp prec emax (53 + n + e) = e + n)
    by (unfold fexp, emin, prec, emax; lia).
  rewrite Hf.
  assert (Hs : shl_align p e (e + n) = (p, e)).
  { unfold shl_align. destruct (e + n - e) as [|k|k] eqn:Hk; [done|done|lia]. }
  rewrite Hs. by apply binary_round_aux_normal.
Qed.

(** The sum of two mantissas of 53 bits, one shifted left by [k] bits. *)
Lemma sum_normal a b k e :
  2 ^ 52 <= Zpos a < 2 ^ 53 -> 2 ^ 52 <= Zpos b < 2 ^ 53 -> 0 <= k ->
  -1074 <= e + k -> e + k + 2 <= 971 ->
  exists m' e',
    binary_normalize prec emax (Zpos a + Zpos b * 2 ^ k) e false
    = S754_finite false m' e' /\
    2 ^ 52 <= Zpos m' < 2 ^ 53 /\ e + k <= e' <= e + k + 2.
Proof.
  intros Ha Hb Hk Hlo Hhi.
  assert (Hp : 1 <= 2 ^ k).
  { replace 1 with (2 ^ 0) by done. apply Z.pow_le_mono_r; lia. }
  assert (Hs1 : 2 ^ 52 * 2 ^ k <= Zpos a + Zpos b * 2 ^ k) by nia.
  assert (Hs2 : Zpos a + Zpos b * 2 ^ k < 2 ^ 53 * 2 ^ (k + 1)).
  { rewrite Z.pow_add_r, Z.pow_1_r by lia. nia. }
  destruct (Zpos a + Zpos b * 2 ^ k) as [|ps|ps] eqn:Hsum; try lia.
  unfold binary_normalize.
  destruct (Z_lt_le_dec (Zpos ps) (2 ^ 53 * 2 ^ k)) as [Hsmall|Hbig].
  - destruct (binary_round_normal ps e k) as (m' & e' & Hres & Hm' & Hex);
      [lia|lia|lia|lia|].
    exists m', e'. split; [done|]. split; [done|lia].
  - destruct (binary_round_normal ps e (k + 1)) as (m' & e' & Hres & Hm' & Hex);
      [lia| |lia|lia|].
    { rewrite Z.pow_add_r, Z.pow_1_r in * by lia. lia. }
    exists m', e'. split; [done|]. split; [done|lia].
Qed.

Lemma add_normal l1 h1 l2 h2 x y :
  normal l1 h1 x -> normal l2 h2 y ->
  -1074 <= Z.max l1 l2 -> Z.max h1 h2 + 2 <= 971 ->
  normal (Z.max l1 l2) (Z.max h1 h2 + 2) (Double.add x y).
Proof.
  intros (m1 & e1 & -> & Hm1 & He1) (m2 & e2 & -> & Hm2 & He2) Hlo Hhi.
  unfold Double.add, SFadd, cond_Zopp.
  rewrite !shl_align_value by lia.
  destruct (Z_le_gt_dec e1 e2) as [Hle|Hgt].
  - rewrite Z.min_l by lia.
    replace (e1 - e1) with 0 by lia. rewrite Z.pow_0_r, Z.mul_1_r.
    destruct (sum_normal m1 m2 (e2 - e1) e1) as (m' & e' & Hres & Hm' & Hex);
      [done|done|lia|lia|lia|].
    exists m', e'. split; [done|]. split; [done|lia].
  - rewrite Z.min_r by lia.
    replace (e2 - e2) with 0 by lia. rewrite Z.pow_0_r, Z.mul_1_r.
    rewrite (Z.add_comm (Zpos m1 * 2 ^ (e1 - e2))).
    destruct (sum_normal m2 m1 (e1 - e2) e2) as (m' & e' & Hres & Hm' & Hex);
      [done|done|lia|lia|lia|].
    exists m', e'. split; [done|]. split; [done|lia].
Qed.

(** ** C10: a multiplier that is not positive *)

Lemma d0_4_normal : normal (-54) (-54) d0_4.
Proof. exists 7205759403792794%positive, (-54). split; [done|]. lia. Qed.

Lemma d1_2_normal : normal (-52) (-52) d1_2.
Proof. exists 5404319552844595%positive, (-52). split; [done|]. lia. Qed.

Lemma dUINT32_MAX_normal : normal (-21) (-21) dUINT32_MAX.
Proof. exists 9007199252643840%positive, (-21). split; [done|]. lia. Qed.

(** [0.4 + drand()*1.2] is a positive finite number, whatever [rnd32]
    returned. *)
Lemma base_speed_normal u :
  0 <= u < 2 ^ 32 ->
  normal (-54) (-46) (Double.add d0_4 (Double.mul (unit_of u) d1_2)).
Proof.
  intros Hu. destruct (Z.eq_dec u 0) as [->|Hne].
  - exists 7205759403792794%positive, (-54). split; [done|]. lia.
  - assert (Hd : normal (-84) (-50) (unit_of u)).
    { apply (div_normal (-52) (-20) (-21) (-21));
        [apply of_Z_normal; lia|apply dUINT32_MAX_normal|lia|lia]. }
    assert (Hm : normal (-84) (-48) (Double.mul (unit_of u) d1_2)).
    { apply (mul_normal (-84) (-50) (-52) (-52));
        [done|apply d1_2_normal|lia|lia]. }
    apply (add_normal (-54) (-54) (-84) (-48));
      [apply d0_4_normal|done|lia|lia].
Qed.

Lemma signed_true_nonpositive x : signed true x -> nonpositive x.
Proof. destruct x as [s|s| |s m e]; simpl; try done; by intros ->. Qed.

(** The speed that is drawn under a multiplier that is not positive is
    not positive (and is no NaN). *)
Lemma speed_of_nonpositive cfg u :
  0 <= u < 2 ^ 32 -> nonpositive (speed_mul cfg) ->
  nonpositive (speed_of cfg u).
Proof.
  intros Hu Hmul. unfold speed_of.
  destruct (base_speed_normal u Hu) as (m & e & -> & _ & _).
  unfold nonpositive in *.
  destruct (speed_mul cfg) as [s|s| |s ms es]; try done;
    destruct s; try done.
  apply signed_true_nonpositive.
  unfold Double.mul, SFmul. apply binary_round_aux_signed. lia.
Qed.

Lemma roll_head_nonpositive rows g h g' :
  rows_ok rows -> roll_head rows g = Some (h, g') -> h <= 0.
Proof.
  intros [Hlo Hhi] Hr. destruct (Z.eq_dec rows 0) as [->|Hne].
  - by rewrite roll_head_zero in Hr.
  - rewrite roll_head_value in Hr by lia. inversion Hr.
    pose proof (Z.mod_pos_bound (draw g) rows ltac:(lia)). lia.
Qed.

Lemma roll_speed_nonpositive cfg g s g' :
  nonpositive (speed_mul cfg) -> roll_speed cfg g = Some (s, g') ->
  nonpositive s.
Proof.
  intros Hmul. rewrite roll_speed_value. intros Hs. inversion Hs.
  apply speed_of_nonpositive; [apply rnd32_range|done].
Qed.

Section Frozen.

Variable cfg : Config.
Hypothesis speed_mul_nonpositive : nonpositive (speed_mul cfg).

Lemma init_column_frozen rows g c g' :
  rows_ok rows -> init_column cfg rows g = Some (c, g') -> frozen c.
Proof.
  intros Hrows. unfold init_column. intros Hi.
  apply bind_Some in Hi as (a & g1 & _ & Hi).
  apply bind_Some in Hi as (t & g2 & Ht & Hi).
  apply bind_Some in Hi as (s & g3 & Hs & Hi).
  apply bind_Some in Hi as (h & g4 & Hh & Hi).
  apply ret_Some in Hi as [-> _].
  split; [by eapply roll_speed_nonpositive|].
  split; [by eapply roll_head_nonpositive|by eapply roll_tail_ok].
Qed.

Lemma reset_column_frozen rows g c g' :
  rows_ok rows -> reset_column cfg rows g = Some (c, g') -> frozen c.
Proof.
  intros Hrows. unfold reset_column. intros Hi.
  apply bind_Some in Hi as (a & g1 & _ & Hi).
  apply bind_Some in Hi as (h & g2 & Hh & Hi).
  apply bind_Some in Hi as (t & g3 & Ht & Hi).
  apply bind_Some in Hi as (s & g4 & Hs & Hi).
  apply ret_Some in Hi as [-> _].
  split; [by eapply roll_speed_nonpositive|].
  split; [by eapply roll_head_nonpositive|by eapply roll_tail_ok].
Qed.

Lemma start_column_frozen rows g c g' :
  rows_ok rows -> start_column cfg rows g = Some (c, g') -> frozen c.
Proof.
  intros Hrows. unfold start_column. intros Hi.
  apply bind_Some in Hi as (h & g2 & Hh & Hi).
  apply bind_Some in Hi as (t & g3 & Ht & Hi).
  apply bind_Some in Hi as (s & g4 & Hs & Hi).
  apply ret_Some in Hi as [-> _].
  split; [by eapply roll_speed_nonpositive|].
  split; [by eapply roll_head_nonpositive|by eapply roll_tail_ok].
Qed.

End Frozen.

Lemma nonpositive_below_one x : nonpositive x -> Double.ltb x d1 = true.
Proof. destruct x as [s|s| |s m e]; try done; by destruct s. Qed.

(** The Bernoulli step of a speed that is not positive never fires. *)
Lemma head_step_frozen c g :
  nonpositive (speed c) -> head_step c g = Some (0, next g).
Proof.
  intros Hs. unfold head_step. rewrite (nonpositive_below_one _ Hs).
  rewrite (bind_step _ _ _ _ _ (drand_Some g)).
  rewrite ltb_signed_nonpositive; [done| |done].
  apply drand_signed, rnd32_range.
Qed.

(** The tail of a frozen column is never below the viewport. *)
Lemma tail_on_screen_frozen rows c :
  frozen c -> rows_ok rows -> tail_off_screen rows c (head_y c) <> Some true.
Proof.
  intros (_ & Hh & Ht) [Hrows _]. unfold tail_off_screen, tail_ok in *.
  destruct (chk (head_y c - tail c)) as [d|] eqn:Hd; [|done].
  apply chk_Some in Hd as [-> _].
  destruct (Z.ltb_spec rows (head_y c - tail c)); [lia|done].
Qed.

(** The update leaves an active frozen column as it is, and reads one
    value from [rnd32]. *)
Lemma update_column_frozen_active cfg rows c g c' g' :
  frozen c -> active c = true -> rows_ok rows ->
  update_column cfg rows c g = Some (c', g') -> c' = c /\ g' = next g.
Proof.
  intros Hf Ha Hrows Hu.
  apply update_column_cases in Hu as [(_ & h & g1 & Hadv & Hcase)|[Hna _]];
    [|congruence].
  unfold advance_head in Hadv.
  rewrite (bind_step _ _ _ _ _ (head_step_frozen c g (proj1 Hf))) in Hadv.
  apply lift_Some in Hadv as [Hh ->]. apply chk_Some in Hh as [-> _].
  rewrite Z.add_0_r in Hcase.
  destruct Hcase as [[Hoff _]|(_ & -> & ->)].
  - by apply tail_on_screen_frozen in Hoff.
  - split; [by destruct c|done].
Qed.

Lemma update_column_frozen cfg rows c g c' g' :
  nonpositive (speed_mul cfg) -> rows_ok rows -> frozen c ->
  update_column cfg rows c g = Some (c', g') -> frozen c'.
Proof.
  intros Hmul Hrows Hf Hu.
  destruct (active c) eqn:Ha.
  - by destruct (update_column_frozen_active _ _ _ _ _ _ Hf Ha Hrows Hu) as [-> _].
  - apply update_column_cases in Hu as [[Hact _]|(_ & [[_ Hs]|(_ & -> & _)])];
      [congruence| |done].
    by eapply start_column_frozen.
Qed.

(** How an iteration relates the column at an index before and after. *)
Lemma present_column cfg st tr st' tr' (i : nat) c' :
  present cfg st tr = Running st' tr' -> cols st' !! i = Some c' ->
  maxy st' = maxy st /\
  exists c, cols st !! i = Some c /\
    (c' = c \/
     exists gi gi', update_column cfg (maxy st) c gi = Some (c', gi')).
Proof.
  unfold present. destruct (paused st).
  { intros Hp Hc'. inversion Hp; subst st' tr'. split; [done|].
    exists c'. split; [done|by left]. }
  unfold simulate_and_draw.
  destruct (update_columns cfg (maxy st) (maxx st) (cols st) (rng st))
    as [[cols' g1]|] eqn:Hu; [|by rewrite bind_None].
  rewrite (bind_step _ _ _ _ _ Hu).
  destruct (draw_columns (bold_head cfg) (maxy st) (maxx st) cols' g1)
    as [[gl g2]|] eqn:Hd; [|by rewrite bind_None].
  rewrite (bind_step _ _ _ _ _ Hd). unfold ret.
  intros Hp Hc'. inversion Hp; subst st' tr'. clear Hp. simpl in *.
  split; [done|].
  apply update_columns_result in Hu as [_ Hu]. by apply Hu.
Qed.

Lemma iteration_column cfg f st tr st' tr' (i : nat) c c' :
  Z.of_nat (length (cols st)) = maxx st ->
  iteration cfg f st tr = Running st' tr' ->
  cols st !! i = Some c -> cols st' !! i = Some c' ->
  c' = c \/ exists gi gi', update_column cfg (ny f) c gi = Some (c', gi').
Proof.
  intros Hlen. unfold iteration.
  destruct (is_quit (key f)); [discriminate|].
  destruct (negb (nx f =? maxx st) || negb (ny f =? maxy st)) eqn:Hres.
  - destruct (calloc (mem f) (nx f)) as [ncols|] eqn:Hc; [|discriminate].
    destruct (reflow cfg _ _ _ _ ncols (rng st)) as [[ncols' g]|] eqn:Hr;
      [|discriminate].
    intros Hp Hci Hci'.
    apply (present_column _ _ _ _ _ i c') in Hp as (_ & c0 & Hc0 & Hrel); [|done].
    simpl in Hc0, Hrel.
    apply calloc_Some in Hc as (Hnx & _ & Hnlen).
    unfold reflow in Hr.
    apply bind_Some in Hr as (n1 & g1 & Htr & Hinit).
    apply transfer_spec in Htr as (-> & Hl1 & Htr).
    apply init_columns_spec in Hinit as (Hl2 & Hinit).
    assert (Hi1 : Z.of_nat i < maxx st) by (apply lookup_lt_Some in Hci; lia).
    assert (Hi2 : Z.of_nat i < nx f) by (apply lookup_lt_Some in Hc0; lia).
    destruct (Hinit i) as [Hout _]. rewrite Hout in Hc0 by lia.
    destruct (Htr i) as [Hlo _]. destruct Hlo as [Heq _]; [lia|].
    rewrite Heq, Hci in Hc0. inversion Hc0; subst c0. done.
  - apply orb_false_iff in Hres as [_ Hy].
    apply negb_false_iff, Z.eqb_eq in Hy.
    intros Hp Hci Hci'.
    apply (present_column _ _ _ _ _ i c') in Hp as (_ & c0 & Hc0 & Hrel); [|done].
    simpl in Hc0, Hrel. rewrite Hci in Hc0. inversion Hc0; subst c0.
    by rewrite Hy.
Qed.

(** C10: under a multiplier that is not positive, in every state that a
    run reaches every column has a speed that is not positive; for every
    active column of such a state and every state of the random helper the
    step of line 139 is 0, the test of line 140 is not true and the update
    returns the column as it is; and after the next iteration the column
    at the same index, if the field still has one, is that very column. *)
Theorem frozen_rain cfg b frames f st tr st' tr' :
  nonpositive (speed_mul cfg) ->
  rows_ok (maxy0 b) -> Forall (fun f => rows_ok (ny f)) frames ->
  rows_ok (ny f) ->
  run cfg b frames = Running st tr ->
  iteration cfg f st tr = Running st' tr' ->
  Forall (fun c => nonpositive (speed c)) (cols st) /\
  forall (i : nat) c, cols st !! i = Some c -> active c = true ->
    (forall g, head_step c g = Some (0, next g)) /\
    (forall rows, rows_ok rows ->
       tail_off_screen rows c (head_y c) <> Some true) /\
    (forall rows g c' g', rows_ok rows ->
       update_column cfg rows c g = Some (c', g') -> c' = c /\ g' = next g) /\
    (forall c', cols st' !! i = Some c' -> c' = c).
Proof.
  intros Hmul Hb Hframes Hf Hrun Hit.
  eapply (run_inv cfg frozen rows_ok) in Hrun as (Hlen & HQ & _);
    [|by intros; eapply init_column_frozen
     |by intros; eapply update_column_frozen|done|done].
  split.
  { eapply Forall_impl; [exact HQ|]. by intros c [Hs _]. }
  intros i c Hc Ha.
  pose proof (Forall_lookup_1 _ _ _ _ HQ Hc) as Hfc.
  split; [intros g; by apply head_step_frozen, Hfc|].
  split; [intros rows Hrows; by apply tail_on_screen_frozen|].
  split; [intros rows g c' g' Hrows; by apply update_column_frozen_active|].
  intros c' Hc'.
  destruct (iteration_column _ _ _ _ _ _ _ _ _ Hlen Hit Hc Hc')
    as [->|(gi & gi' & Hu)]; [done|].
  by destruct (update_column_frozen_active _ _ _ _ _ _ Hfc Ha Hf Hu).
Qed.

Lemma frozen_rain_witness :
  exists st tr st' tr',
    run still_rain (mkBoot "matrix" 12345 6 3 true) [mkFrame (-1) 6 3 true]
    = Running st tr /\
    iteration still_rain (mkFrame (-1) 8 2 true) st tr = Running st' tr' /\
    Forall (fun c => nonpositive (speed c)) (cols st) /\
    forall (i : nat) c c', cols st !! i = Some c -> active c = true ->
      cols st' !! i = Some c' -> c' = c.
Proof.
  eexists _, _, _, _.
  split; [vm_compute; reflexivity|].
  split; [vm_compute; reflexivity|].
  match goal with
  | |- Forall _ (cols ?st) /\ (forall i c c', _ -> _ -> cols ?st' !! i = _ -> _) =>
      destruct (frozen_rain still_rain (mkBoot "matrix" 12345 6 3 true)
                  [mkFrame (-1) 6 3 true] (mkFrame (-1) 8 2 true)
                  st [EInitscr; EFade 6 3; ERefresh; ESleep] st'
                  [EInitscr; EFade 6 3; ERefresh; ESleep; EClear; EFade 8 2;
                   ERefresh; ESleep])
        as [Hspeeds Hcols]
  end.
  - reflexivity.
  - unfold rows_ok, INT_MAX. simpl. lia.
  - repeat constructor; unfold rows_ok, INT_MAX; simpl; lia.
  - unfold rows_ok, INT_MAX. simpl. lia.
  - vm_compute. reflexivity.
  - vm_compute. reflexivity.
  - split; [exact Hspeeds|].
    intros i c c' Hc Ha Hc'.
    destruct (Hcols i c Hc Ha) as (_ & _ & _ & Hsame). by apply Hsame.
Defined.

(** ** How far the defect of [drand] reaches *)

(** A mantissa of 53 bits with an exact location is not changed. *)
Lemma binary_round_aux_exact s m e :
  2 ^ 52 <= Zpos m < 2 ^ 53 -> -1074 <= e <= 971 ->
  binary_round_aux prec emax s (Zpos m) e loc_Exact = S754_finite s m e.
Proof.
  intros Hm He.
  destruct (shr_fexp_normal m e loc_Exact 0) as (r1 & Hs1 & Hr1);
    [lia|rewrite Z.pow_0_r; lia|lia|].
  assert (Hrec : r1 = Build_shr_record (Zpos m) false false).
  { unfold shr_fexp, shr in Hs1.
    destruct (fexp prec emax (Zdigits2 (Zpos m) + e) - e) as [|k|k] eqn:Hk.
    - simpl in Hs1. by inversion Hs1.
    - inversion Hs1. lia.
    - simpl in Hs1. by inversion Hs1. }
  unfold binary_round_aux. rewrite Hs1, Hrec. simpl shr_m.
  simpl loc_of_shr_record. unfold round_nearest_even.
  rewrite Z.add_0_r in Hs1. rewrite Z.add_0_r, Hs1, Hrec. simpl shr_m.
  replace (e <=? emax - prec) with true
    by (symmetry; apply Z.leb_le; unfold emax, prec; lia).
  done.
Qed.

(** Rounding does not reach the next power of two when the mantissa is
    not the largest one. *)
Lemma binary_round_aux_no_carry s m e l :
  2 ^ 52 <= Zpos m -> Zpos m + 1 < 2 ^ 53 -> -1074 <= e <= 971 ->
  exists m', binary_round_aux prec emax s (Zpos m) e l = S754_finite s m' e /\
             2 ^ 52 <= Zpos m' < 2 ^ 53.
Proof.
  intros Hlo Hhi He.
  destruct (shr_fexp_normal m e l 0) as (r1 & Hs1 & Hr1);
    [lia|rewrite Z.pow_0_r; lia|lia|].
  rewrite Z.pow_0_r, Z.div_1_r in Hr1. rewrite Z.add_0_r in Hs1.
  unfold binary_round_aux. rewrite Hs1.
  pose proof (round_nearest_even_bounds (shr_m r1) (loc_of_shr_record r1)) as Hrn.
  set (m2 := round_nearest_even (shr_m r1) (loc_of_shr_record r1)) in *.
  destruct m2 as [|p2|p2] eqn:Hm2; [lia| |lia].
  destruct (shr_fexp_normal p2 e loc_Exact 0) as (r2 & Hs2 & Hr2);
    [lia|rewrite Z.pow_0_r; lia|lia|].
  rewrite Z.pow_0_r, Z.div_1_r in Hr2. rewrite Z.add_0_r in Hs2.
  rewrite Hs2, Hr2.
  replace (e <=? emax - prec) with true
    by (symmetry; apply Z.leb_le; unfold emax, prec; lia).
  exists p2. split; [done|lia].
Qed.

(** [(double) u] for a value of [rnd32] below [UINT32_MAX]. *)
Lemma of_Z_below_max u :
  0 < u < UINT32_MAX ->
  exists m e, Double.of_Z u = S754_finite false m e /\
              2 ^ 52 <= Zpos m <= 2 ^ 53 - 2 ^ 22 /\ -52 <= e <= -21.
Proof.
  unfold UINT32_MAX. intros Hu. destruct u as [|p|p]; try lia.
  unfold Double.of_Z, binary_normalize, binary_round.
  pose proof (digits2_pos_bounds p) as Hd.
  set (d := Zpos (digits2_pos p)) in *.
  assert (Hd1 : 1 <= d) by (subst d; lia).
  assert (Hd2 : d <= 32).
  { destruct (Z_le_gt_dec d 32) as [|Hgt]; [done|].
    assert (2 ^ 32 <= 2 ^ (d - 1)) by (apply Z.pow_le_mono_r; lia). lia. }
  replace (d + 0) with d by lia.
  assert (Hf : fexp prec emax d = d - 53) by (unfold fexp, emin, prec, emax; lia).
  rewrite Hf.
  assert (Hm : Zpos (fst (shl_align p 0 (d - 53))) = Zpos p * 2 ^ (53 - d)).
  { rewrite shl_align_value by lia. f_equal. f_equal. lia. }
  assert (He : snd (shl_align p 0 (d - 53)) = d - 53).
  { unfold shl_align. destruct (d - 53 - 0) as [|k|k] eqn:Hk; simpl; lia. }
  destruct (shl_align p 0 (d - 53)) as [mz ez]. simpl in Hm, He. subst ez.
  assert (Hp1 : 2 ^ (d - 1) * 2 ^ (53 - d) = 2 ^ 52).
  { rewrite <- Z.pow_add_r by lia. f_equal. lia. }
  assert (Hp2 : 2 ^ d * 2 ^ (53 - d) = 2 ^ 53).
  { rewrite <- Z.pow_add_r by lia. f_equal. lia. }
  assert (Hshift : 2 ^ 21 <= 2 ^ (53 - d)) by (apply Z.pow_le_mono_r; lia).
  assert (Hmz : 2 ^ 52 <= Zpos mz <= 2 ^ 53 - 2 ^ 22).
  { rewrite Hm. split; [nia|].
    destruct (Z.eq_dec d 32) as [Hd32|Hd32].
    - rewrite Hd32 in *. change (2 ^ (53 - 32)) with (2 ^ 21). lia.
    - assert (2 ^ 22 <= 2 ^ (53 - d)) by (apply Z.pow_le_mono_r; lia). nia. }
  rewrite binary_round_aux_exact by lia.
  exists mz, (d - 53). split; [done|]. split; [done|lia].
Qed.

(** Below [UINT32_MAX] the quotient of [drand] is below [1.0]. *)
Lemma unit_of_below_one u :
  0 <= u < UINT32_MAX -> Double.ltb (unit_of u) d1 = true.
Proof.
  intros Hu. destruct (Z.eq_dec u 0) as [->|Hne]; [done|].
  destruct (of_Z_below_max u ltac:(lia)) as (m1 & e1 & Hof & Hm1 & He1).
  unfold unit_of. rewrite Hof.
  unfold Double.div, SFdiv, SFdiv_core_binary, Zdigits2, dUINT32_MAX.
  rewrite (digits2_pos_unique m1 53) by lia.
  change (Zpos (digits2_pos 9007199252643840)) with 53.
  assert (He' : Z.min (fexp prec emax (53 + e1 - (53 + -21))) (e1 - -21)
                = e1 - 32) by (unfold fexp, emin, prec, emax; lia).
  rewrite He'. replace (e1 - -21 - (e1 - 32)) with 53 by lia.
  rewrite Z.shiftl_mul_pow2 by lia.
  pose proof (Z_div_mod (Zpos m1 * 2 ^ 53) 9007199252643840 ltac:(lia)) as Hdm.
  destruct (Z.div_eucl (Zpos m1 * 2 ^ 53) 9007199252643840) as [q r].
  destruct Hdm as [Hq Hr].
  assert (Hqlo : 2 ^ 52 <= q) by lia.
  assert (Hqhi : q + 1 < 2 ^ 53) by lia.
  destruct q as [|pq|pq]; try lia.
  destruct (binary_round_aux_no_carry (xorb false false) pq (e1 - 32)
              (new_location 9007199252643840 r))
    as (m' & Hres & Hm'); [lia|lia|lia|].
  rewrite Hres. unfold Double.ltb, SFltb, d1, SFcompare. simpl xorb.
  destruct (Z.compare_spec (e1 - 32) (-52)) as [Heq|Hlt|Hgt]; [lia|done|lia].
Qed.

(** The quotient of [drand()] is in the closed interval from [0.0] to
    [1.0], and is [1.0] exactly when [rnd32()] is [UINT32_MAX]. *)
Lemma unit_of_closed_unit u :
  0 <= u < 2 ^ 32 ->
  Double.leb d0 (unit_of u) = true /\ Double.leb (unit_of u) d1 = true /\
  (Double.ltb (unit_of u) d1 = true <-> u <> UINT32_MAX).
Proof.
  intros Hu.
  pose proof (drand_signed u ltac:(lia)) as Hs. fold (unit_of u) in Hs.
  split.
  { destruct (unit_of u) as [s|s| |s m e]; simpl in Hs; try done; by subst s. }
  destruct (Z.eq_dec u UINT32_MAX) as [->|Hne].
  - assert (Hmax : unit_of UINT32_MAX = d1) by (vm_compute; reflexivity).
    rewrite Hmax. split; [by vm_compute|].
    split; [intros Hlt; vm_compute in Hlt; discriminate|intros Hne; by destruct Hne].
  - assert (Hlt : Double.ltb (unit_of u) d1 = true)
      by (apply unit_of_below_one; unfold UINT32_MAX in *; lia).
    split; [|done].
    unfold Double.ltb, Double.leb, SFltb, SFleb in *.
    by destruct (SFcompare (unit_of u) d1) as [[]|].
Qed.

(** X17. [drand()] is always defined, reads [rnd32] once, and returns a
    number of the closed interval from 0 to 1; it is below 1 exactly when
    [rnd32] did not return [UINT32_MAX]. *)
Lemma drand_closed_unit g :
  exists d, drand g = Some (d, next g) /\
    Double.leb d0 d = true /\ Double.leb d d1 = true /\
    (Double.ltb d d1 = true <-> draw g <> UINT32_MAX).
Proof.
  exists (unit_of (draw g)). split; [apply drand_Some|].
  apply unit_of_closed_unit, rnd32_range.
Qed.

(** X19. With density 1 a column is drawn active unless its activity
    roll reads [UINT32_MAX] from [rnd32]. *)
Lemma full_density_active_unless_max cfg rows g c g' :
  density cfg = d1 -> init_column cfg rows g = Some (c, g') ->
  (active c = true <-> draw g <> UINT32_MAX).
Proof.
  intros Hd Hi. rewrite (init_column_active _ _ _ _ _ Hi), Hd.
  apply unit_of_closed_unit, rnd32_range.
Qed.

(** * Further properties of the program *)

(** ** The generator behind [rnd32] *)

Lemma lxor_u64 a b :
  0 <= a < 2 ^ 64 -> 0 <= b < 2 ^ 64 -> 0 <= Z.lxor a b < 2 ^ 64.
Proof.
  intros Ha Hb. split; [apply Z.lxor_nonneg; lia|].
  destruct (Z.eq_dec (Z.lxor a b) 0) as [->|Hne]; [lia|].
  assert (Hpos : 0 < Z.lxor a b)
    by (pose proof (proj2 (Z.lxor_nonneg a b) ltac:(lia)); lia).
  apply Z.log2_lt_pow2; [done|].
  pose proof (Z.log2_lxor a b ltac:(lia) ltac:(lia)) as Hl.
  assert (Hla : Z.log2 a < 64).
  { destruct (Z.eq_dec a 0) as [->|]; [done|]. apply Z.log2_lt_pow2; lia. }
  assert (Hlb : Z.log2 b < 64).
  { destruct (Z.eq_dec b 0) as [->|]; [done|]. apply Z.log2_lt_pow2; lia. }
  lia.
Qed.

Lemma to_u64_range z : 0 <= to_u64 z < 2 ^ 64.
Proof. unfold to_u64. apply Z.mod_pos_bound. lia. Qed.

(** [s ^= s << k] has no fixed point but 0, for the shifts of line 38. *)
Lemma shl_step_nonzero k s :
  k = 7 \/ k = 8 -> 0 < s < 2 ^ 64 ->
  Z.lxor s (to_u64 (Z.shiftl s k)) <> 0.
Proof.
  intros Hk Hs Hz. apply Z.lxor_eq in Hz.
  unfold to_u64 in Hz. rewrite Z.shiftl_mul_pow2 in Hz by lia.
  assert (Hdiv : (2 ^ 64 | (2 ^ k - 1) * s)).
  { exists ((s * 2 ^ k) / 2 ^ 64).
    pose proof (Z.div_mod (s * 2 ^ k) (2 ^ 64) ltac:(lia)). lia. }
  apply Z.gauss in Hdiv; [|by destruct Hk as [->| ->]].
  destruct Hdiv as [q Hq]. nia.
Qed.

Lemma shr_step_nonzero s : 0 < s -> Z.lxor s (Z.shiftr s 9) <> 0.
Proof.
  intros Hs Hz. apply Z.lxor_eq in Hz.
  rewrite Z.shiftr_div_pow2 in Hz by lia.
  pose proof (Z.div_lt s (2 ^ 9) ltac:(lia) ltac:(lia)). lia.
Qed.

Lemma shr_u64 s : 0 <= s < 2 ^ 64 -> 0 <= Z.shiftr s 9 < 2 ^ 64.
Proof.
  intros Hs. rewrite Z.shiftr_div_pow2 by lia. split.
  - apply Z.div_pos; lia.
  - pose proof (Z.div_le_upper_bound s (2 ^ 9) s ltac:(lia) ltac:(nia)). lia.
Qed.

Lemma xorshift_nonzero s : 0 < s < 2 ^ 64 -> 0 < Rng.xorshift s < 2 ^ 64.
Proof.
  intros Hs. unfold Rng.xorshift.
  pose proof (shl_step_nonzero 7 s ltac:(lia) Hs) as H1.
  pose proof (lxor_u64 s (to_u64 (Z.shiftl s 7)) ltac:(lia) (to_u64_range _)) as R1.
  set (s1 := Z.lxor s (to_u64 (Z.shiftl s 7))) in *.
  pose proof (shr_step_nonzero s1 ltac:(lia)) as H2.
  pose proof (lxor_u64 s1 (Z.shiftr s1 9) ltac:(lia) (shr_u64 s1 ltac:(lia))) as R2.
  set (s2 := Z.lxor s1 (Z.shiftr s1 9)) in *.
  pose proof (shl_step_nonzero 8 s2 ltac:(lia) ltac:(lia)) as H3.
  pose proof (lxor_u64 s2 (to_u64 (Z.shiftl s2 8)) ltac:(lia) (to_u64_range _)) as R3.
  cbv zeta. lia.
Qed.

Lemma seeded_nonzero g : 0 <= Rng.s g < 2 ^ 64 -> 0 < Rng.seeded g < 2 ^ 64.
Proof.
  intros Hs. unfold Rng.seeded. destruct (Z.eqb_spec (Rng.s g) 0) as [Hz|Hnz]; [|lia].
  pose proof (to_u64_range (Rng.entropy g)) as He.
  set (e := to_u64 (Rng.entropy g)) in *.
  assert (Hnn : 0 <= Z.lor e 1) by (apply Z.lor_nonneg; lia).
  assert (Hne : Z.lor e 1 <> 0).
  { intros Hz0. apply Z.lor_eq_0_iff in Hz0. lia. }
  split; [lia|]. apply Z.log2_lt_pow2; [lia|].
  rewrite Z.log2_lor by lia.
  assert (Hle : Z.log2 e < 64).
  { destruct (Z.eq_dec e 0) as [->|]; [done|]. apply Z.log2_lt_pow2; lia. }
  change (Z.log2 1) with 0. lia.
Qed.

Lemma next_nonzero g : 0 <= Rng.s g < 2 ^ 64 -> 0 < Rng.s (next g) < 2 ^ 64.
Proof.
  intros Hs. unfold next, Rng.rnd32. simpl.
  apply xorshift_nonzero, seeded_nonzero, Hs.
Qed.

(** X1. The generator is seeded once: after any number of calls of
    [rnd32] the state is a non-zero [uint64_t], so that the test [!s] of
    line 37 fails and [time(NULL) ^ &s] is not read again. *)
Theorem rnd32_seeded_once g (n : nat) :
  0 <= Rng.s g < 2 ^ 64 -> (0 < n)%nat ->
  0 < Rng.s (Nat.iter n next g) < 2 ^ 64 /\
  Rng.seeded (Nat.iter n next g) = Rng.s (Nat.iter n next g).
Proof.
  intros Hs Hn.
  assert (Hr : 0 < Rng.s (Nat.iter n next g) < 2 ^ 64).
  { destruct n as [|n]; [lia|]. clear Hn.
    induction n as [|n IH].
    - change (Nat.iter 1 next g) with (next g). by apply next_nonzero.
    - change (Nat.iter (S (S n)) next g) with (next (Nat.iter (S n) next g)).
      apply next_nonzero. lia. }
  split; [done|]. unfold Rng.seeded.
  destruct (Z.eqb_spec (Rng.s (Nat.iter n next g)) 0); [lia|done].
Qed.

Lemma rnd32_seeded_once_witness :
  0 < Rng.s (Nat.iter 3 next (Rng.mk 0 12345)) < 2 ^ 64 /\
  Rng.seeded (Nat.iter 3 next (Rng.mk 0 12345))
  = Rng.s (Nat.iter 3 next (Rng.mk 0 12345)).
Proof.
  apply (rnd32_seeded_once (Rng.mk 0 12345) 3); [simpl; lia|lia].
Defined.

(** The three steps of line 38 are linear over exclusive or. *)
Lemma shl_step_linear k a b :
  0 <= k ->
  Z.lxor (Z.lxor a b) (to_u64 (Z.shiftl (Z.lxor a b) k))
  = Z.lxor (Z.lxor a (to_u64 (Z.shiftl a k)))
           (Z.lxor b (to_u64 (Z.shiftl b k))).
Proof.
  intros Hk. apply Z.bits_inj'. intros n Hn. unfold to_u64.
  rewrite !Z.lxor_spec.
  destruct (Z_lt_le_dec n 64) as [Hlo|Hhi].
  - rewrite !Z.mod_pow2_bits_low by lia.
    rewrite !Z.shiftl_spec by lia. rewrite Z.lxor_spec.
    by destruct (Z.testbit a n), (Z.testbit b n), (Z.testbit a (n - k)),
         (Z.testbit b (n - k)).
  - rewrite !Z.mod_pow2_bits_high by lia.
    by destruct (Z.testbit a n), (Z.testbit b n).
Qed.

Lemma shr_step_linear a b :
  Z.lxor (Z.lxor a b) (Z.shiftr (Z.lxor a b) 9)
  = Z.lxor (Z.lxor a (Z.shiftr a 9)) (Z.lxor b (Z.shiftr b 9)).
Proof.
  apply Z.bits_inj'. intros n Hn.
  rewrite !Z.lxor_spec, !Z.shiftr_spec, Z.lxor_spec by lia.
  by destruct (Z.testbit a n), (Z.testbit b n), (Z.testbit a (n + 9)),
       (Z.testbit b (n + 9)).
Qed.

Lemma xorshift_linear a b :
  Rng.xorshift (Z.lxor a b) = Z.lxor (Rng.xorshift a) (Rng.xorshift b).
Proof.
  unfold Rng.xorshift. cbv zeta.
  rewrite (shl_step_linear 7 a b) by lia.
  rewrite shr_step_linear.
  by rewrite shl_step_linear by lia.
Qed.

(** X2. The step of the generator is injective on [uint64_t]: two
    different states never lead to the same state. *)
Theorem xorshift_injective a b :
  0 <= a < 2 ^ 64 -> 0 <= b < 2 ^ 64 -> a <> b ->
  Rng.xorshift a <> Rng.xorshift b.
Proof.
  intros Ha Hb Hne Heq. apply Hne, Z.lxor_eq.
  destruct (Z.eq_dec (Z.lxor a b) 0) as [|Hnz]; [done|].
  pose proof (lxor_u64 a b Ha Hb) as Hr.
  pose proof (xorshift_nonzero (Z.lxor a b) ltac:(lia)) as Hx.
  rewrite xorshift_linear, Heq, Z.lxor_nilpotent in Hx. lia.
Qed.

Lemma xorshift_injective_witness :
  Rng.xorshift 8140682927 <> Rng.xorshift 8140682926.
Proof. apply (xorshift_injective 8140682927 8140682926); lia. Defined.

(** ** The command line *)

Section Parsing.

Variable atof : string -> double.
Variable atoi : string -> Z.

(** The equations of the parser, one per branch of lines 75-81. *)
Lemma parse_args_cases cfg a rest :
  parse_args atof atoi cfg (a :: rest) =
  match rest with
  | v :: rest' =>
      if String.eqb a "--speed" then
        parse_args atof atoi (mkConfig (atof v) (density cfg) (bold_head cfg)
                                (fade_trail cfg) (target_fps cfg)) rest'
      else if String.eqb a "--density" then
        parse_args atof atoi (with_density cfg (clamp_density (atof v))) rest'
      else if String.eqb a "--bold" then
        parse_args atof atoi (mkConfig (speed_mul cfg) (density cfg) true
                                (fade_trail cfg) (target_fps cfg)) rest
      else if String.eqb a "--no-fade" then
        parse_args atof atoi (mkConfig (speed_mul cfg) (density cfg)
                                (bold_head cfg) false (target_fps cfg)) rest
      else if String.eqb a "--fps" then
        parse_args atof atoi (mkConfig (speed_mul cfg) (density cfg)
                                (bold_head cfg) (fade_trail cfg)
                                (clamp_fps (atoi v))) rest'
      else if String.eqb a "--help" then Usage 0
      else Usage 1
  | [] =>
      if String.eqb a "--bold" then
        Options (mkConfig (speed_mul cfg) (density cfg) true
                   (fade_trail cfg) (target_fps cfg))
      else if String.eqb a "--no-fade" then
        Options (mkConfig (speed_mul cfg) (density cfg) (bold_head cfg)
                   false (target_fps cfg))
      else if String.eqb a "--help" then Usage 0
      else Usage 1
  end.
Proof. by destruct rest. Qed.

(** Induction over the argument list, two arguments at a time. *)
Lemma args_induction (P : list string -> Prop) :
  P [] -> (forall a, P [a]) ->
  (forall a v rest, P rest -> P (v :: rest) -> P (a :: v :: rest)) ->
  forall args, P args.
Proof.
  intros Hnil Hone Hstep args.
  assert (H2 : P args /\ forall a, P (a :: args)).
  { induction args as [|v rest [IH1 IH2]]; [by split|].
    split; [apply IH2|]. intros a. apply Hstep; [done|apply IH2]. }
  apply H2.
Qed.

Lemma clamp_fps_range n : 10 <= clamp_fps n <= 240.
Proof.
  unfold clamp_fps. destruct (Z.ltb_spec n 10).
  - destruct (Z.ltb_spec 240 10); lia.
  - destruct (Z.ltb_spec 240 n); lia.
Qed.

Lemma clamp_density_range d :
  clamp_density d = S754_nan \/
  (Double.leb d0 (clamp_density d) = true /\
   Double.leb (clamp_density d) d1 = true).
Proof.
  unfold clamp_density. destruct (Double.ltb d d0) eqn:Hlo.
  - right. by vm_compute.
  - destruct (Double.ltb d1 d) eqn:Hhi; [right; by vm_compute|].
    assert (Hnan : d = S754_nan \/ d <> S754_nan)
      by (destruct d; [by right|by right|by left|by right]).
    destruct Hnan as [->|Hnan]; [by left|right].
    split; [by apply leb_zero_of_not_below|by apply leb_one_of_not_above].
Qed.

(** What every branch of the parser keeps. *)
Lemma parse_args_keeps (P : Config -> Prop) :
  (forall cfg v, P cfg ->
     P (mkConfig (atof v) (density cfg) (bold_head cfg) (fade_trail cfg)
          (target_fps cfg))) ->
  (forall cfg v, P cfg -> P (with_density cfg (clamp_density (atof v)))) ->
  (forall cfg b, P cfg ->
     P (mkConfig (speed_mul cfg) (density cfg) b (fade_trail cfg)
          (target_fps cfg))) ->
  (forall cfg b, P cfg ->
     P (mkConfig (speed_mul cfg) (density cfg) (bold_head cfg) b
          (target_fps cfg))) ->
  (forall cfg v, P cfg ->
     P (mkConfig (speed_mul cfg) (density cfg) (bold_head cfg) (fade_trail cfg)
          (clamp_fps (atoi v)))) ->
  forall args cfg cfg',
    P cfg -> parse_args atof atoi cfg args = Options cfg' -> P cfg'.
Proof.
  intros Hspeed Hdensity Hbold Hfade Hfps.
  induction args as [|a|a v rest IH1 IH2] using args_induction;
    intros cfg cfg' Hcfg.
  - intros Hp. by inversion Hp; subst.
  - rewrite parse_args_cases.
    destruct (String.eqb a "--bold"); [intros Hp; inversion Hp; by apply Hbold|].
    destruct (String.eqb a "--no-fade"); [intros Hp; inversion Hp; by apply Hfade|].
    by destruct (String.eqb a "--help").
  - rewrite parse_args_cases.
    destruct (String.eqb a "--speed"); [apply IH1; by apply Hspeed|].
    destruct (String.eqb a "--density"); [apply IH1; by apply Hdensity|].
    destruct (String.eqb a "--bold"); [apply IH2; by apply Hbold|].
    destruct (String.eqb a "--no-fade"); [apply IH2; by apply Hfade|].
    destruct (String.eqb a "--fps"); [apply IH1; by apply Hfps|].
    by destruct (String.eqb a "--help").
Qed.

(** X3. Whatever the arguments, the options that parsing returns have a
    frame rate between 10 and 240 and a density that is between 0 and 1 or
    a NaN. *)
Theorem parsed_options_in_range args cfg :
  parse_args atof atoi defaults args = Options cfg -> options_in_range cfg.
Proof.
  apply (parse_args_keeps options_in_range).
  - by intros c v [Hf Hd].
  - intros c v [Hf _]. split; [done|]. apply clamp_density_range.
  - by intros c b [Hf Hd].
  - by intros c b [Hf Hd].
  - intros c v [_ Hd]. split; [apply clamp_fps_range|done].
  - split; [simpl; lia|]. right. by vm_compute.
Qed.

Lemma parse_args_accepted_iff args :
  forall cfg, (exists cfg', parse_args atof atoi cfg args = Options cfg')
              <-> accepted args.
Proof.
  induction args as [|a|a v rest IH1 IH2] using args_induction; intros cfg.
  - split; [constructor|by exists cfg].
  - rewrite parse_args_cases. split.
    + intros [cfg' Hp].
      destruct (String.eqb_spec a "--bold") as [->|_];
        [apply accepted_switch; [by left|constructor]|].
      destruct (String.eqb_spec a "--no-fade") as [->|_];
        [apply accepted_switch; [by right|constructor]|].
      by destruct (String.eqb a "--help").
    + intros Hacc. inversion Hacc as [|a' rest' [->| ->] _|]; subst;
        simpl; by eexists.
  - rewrite parse_args_cases. split.
    + intros [cfg' Hp].
      destruct (String.eqb_spec a "--speed") as [->|_].
      { apply accepted_option; [by left|]. eapply IH1. by exists cfg'. }
      destruct (String.eqb_spec a "--density") as [->|_].
      { apply accepted_option; [right; by left|]. eapply IH1. by exists cfg'. }
      destruct (String.eqb_spec a "--bold") as [->|_].
      { apply accepted_switch; [by left|]. eapply IH2. by exists cfg'. }
      destruct (String.eqb_spec a "--no-fade") as [->|_].
      { apply accepted_switch; [by right|]. eapply IH2. by exists cfg'. }
      destruct (String.eqb_spec a "--fps") as [->|_].
      { apply accepted_option; [right; by right|]. eapply IH1. by exists cfg'. }
      by destruct (String.eqb a "--help").
    + intros Hacc.
      inversion Hacc as [|a' rest' [->| ->] Hrest|a' v' rest' [->|[->| ->]] Hrest];
        subst; cbv -[parse_args clamp_density clamp_fps].
      * by apply IH2.
      * by apply IH2.
      * by apply IH1.
      * by apply IH1.
      * by apply IH1.
Qed.

(** X4. The parser accepts exactly the argument lists of the usage line:
    any sequence of the switches [--bold] and [--no-fade] and of the
    options [--speed], [--density] and [--fps], each followed by one
    argument, which is taken as its value whatever it is. *)
Theorem parse_args_accepts args cfg :
  (exists cfg', parse_args atof atoi cfg args = Options cfg') <-> accepted args.
Proof. apply parse_args_accepted_iff. Qed.

Lemma parse_args_usage_code args :
  forall cfg code,
    parse_args atof atoi cfg args = Usage code ->
    code = 1 \/ (code = 0 /\ In "--help"%string args).
Proof.
  induction args as [|a|a v rest IH1 IH2] using args_induction;
    intros cfg code.
  - discriminate.
  - rewrite parse_args_cases.
    destruct (String.eqb a "--bold"); [discriminate|].
    destruct (String.eqb a "--no-fade"); [discriminate|].
    destruct (String.eqb_spec a "--help") as [->|_]; intros Hp; inversion Hp.
    + right. split; [done|by left].
    + by left.
  - rewrite parse_args_cases.
    assert (Hin1 : forall c, parse_args atof atoi c rest = Usage code ->
              code = 1 \/ (code = 0 /\ In "--help"%string (a :: v :: rest))).
    { intros c Hp. destruct (IH1 c code Hp) as [|[? ?]]; [by left|].
      right. split; [done|]. by right; right. }
    assert (Hin2 : forall c, parse_args atof atoi c (v :: rest) = Usage code ->
              code = 1 \/ (code = 0 /\ In "--help"%string (a :: v :: rest))).
    { intros c Hp. destruct (IH2 c code Hp) as [|[? ?]]; [by left|].
      right. split; [done|]. by right. }
    destruct (String.eqb a "--speed"); [apply Hin1|].
    destruct (String.eqb a "--density"); [apply Hin1|].
    destruct (String.eqb a "--bold"); [apply Hin2|].
    destruct (String.eqb a "--no-fade"); [apply Hin2|].
    destruct (String.eqb a "--fps"); [apply Hin1|].
    destruct (String.eqb_spec a "--help") as [->|_]; intros Hp; inversion Hp.
    + right. split; [done|by left].
    + by left.
Qed.

(** X5. Parsing ends the program with exit code 0 only if [--help] is
    among the arguments; every other refusal has exit code 1. *)
Theorem parse_args_exit_code args cfg code :
  parse_args atof atoi cfg args = Usage code ->
  code = 1 \/ (code = 0 /\ In "--help"%string args).
Proof. apply parse_args_usage_code. Qed.

End Parsing.

Lemma parsed_options_in_range_witness :
  options_in_range (mkConfig d1 d1 false false 240).
Proof.
  apply (parsed_options_in_range (fun _ => S754_infinity false) (fun _ => 1000)
           ["--fps"; "1000"; "--density"; "inf"; "--no-fade"]%string).
  vm_compute. reflexivity.
Defined.

Lemma parse_args_exit_code_witness :
  0 = 1 \/ (0 = 0 /\ In "--help"%string ["--bold"; "--help"; "--what"]%string).
Proof.
  apply (parse_args_exit_code (fun _ => d0) (fun _ => 0)
           ["--bold"; "--help"; "--what"]%string defaults 0).
  vm_compute. reflexivity.
Defined.

(** ** What a frame draws *)

Lemma draw_cell_spec bold maxy x c y out g out' g' :
  draw_cell bold maxy x c y out g = Some (out', g') ->
  head_y c - tail c <= y <= head_y c ->
  out' = out \/ exists e, out' = out ++ [e] /\ cell_of bold maxy x c e.
Proof.
  unfold draw_cell. intros Hd Hy.
  destruct ((y <? 0) || (maxy <=? y)) eqn:Hout.
  { left. by apply ret_Some in Hd as [-> _]. }
  apply orb_false_iff in Hout as [Hy0 Hy1].
  apply Z.ltb_ge in Hy0. apply Z.leb_gt in Hy1.
  right.
  apply bind_Some in Hd as (i & g1 & _ & Hd).
  apply bind_Some in Hd as (wc & g2 & Hwc & Hd).
  apply lift_Some in Hwc as [Hwc ->].
  assert (Hin : In wc KATAKANA).
  { destruct (i <? 0); [discriminate|].
    apply list_elem_of_In. by eapply list_elem_of_lookup_2. }
  destruct (Z.eqb_spec y (head_y c)) as [Heq|Hne].
  - apply ret_Some in Hd as [-> _]. eexists. split; [done|].
    exists y, wc. rewrite (proj2 (Z.eqb_eq y (head_y c)) Heq).
    split; [done|]. split; [lia|]. split; [lia|done].
  - apply bind_Some in Hd as (dist & g3 & Hdist & Hd).
    apply bind_Some in Hd as (lim & g4 & Hlim & Hd).
    apply lift_Some in Hdist as [Hdist ->]. apply lift_Some in Hlim as [Hlim ->].
    apply chk_Some in Hdist as [-> _]. apply chk_Some in Hlim as [-> _].
    apply ret_Some in Hd as [-> _]. eexists. split; [done|].
    exists y, wc. rewrite (proj2 (Z.eqb_neq y (head_y c)) Hne).
    replace (tail c - 2 <? head_y c - y) with (y <? head_y c - tail c + 2).
    + split; [done|]. split; [lia|]. split; [lia|done].
    + destruct (Z.ltb_spec y (head_y c - tail c + 2)),
        (Z.ltb_spec (tail c - 2) (head_y c - y)); done || lia.
Qed.

(** Every event of the drawing pass is the glyph of a cell of an active
    column of the field. *)
Lemma draw_columns_spec bold maxy maxx cols g out g' :
  draw_columns bold maxy maxx cols g = Some (out, g') ->
  Forall (fun e => exists x c, 0 <= x < maxx /\ get cols x = Some c /\
                     active c = true /\ cell_of bold maxy x c e) out.
Proof.
  unfold draw_columns, for_loop. intros Hrun.
  set (Q := fun e => exists x c, 0 <= x < maxx /\ get cols x = Some c /\
                       active c = true /\ cell_of bold maxy x c e).
  assert (HP : Forall Q out); [|done].
  eapply (for_range_inv (fun _ o => Forall Q o)); [| |exact Hrun]; [|done].
  intros x o gx o' gx' Hx Ho Hbody.
  apply bind_Some in Hbody as (c & g1 & Hget & Hbody).
  apply lift_Some in Hget as [Hget ->].
  destruct (active c) eqn:Hact; simpl in Hbody;
    [|by apply ret_Some in Hbody as [-> _]].
  apply bind_Some in Hbody as (ts & g2 & Hts & Hbody).
  apply lift_Some in Hts as [Hts ->]. apply chk_Some in Hts as [-> _].
  apply bind_Some in Hbody as (stop & g3 & Hstop & Hbody).
  apply lift_Some in Hstop as [Hstop ->].
  assert (Hstop' : stop <= head_y c + 1 \/ stop = head_y c - tail c).
  { destruct (Z.leb_spec (head_y c - tail c) (head_y c)).
    - apply chk_Some in Hstop as [-> _]. left. lia.
    - inversion Hstop. by right. }
  unfold for_loop in Hbody.
  eapply (for_range_inv (fun _ o => Forall Q o)); [| |exact Hbody]; [|done].
  intros y o1 gy o2 gy' Hy Ho1 Hcell.
  assert (Hyr : head_y c - tail c <= y <= head_y c) by lia.
  destruct (draw_cell_spec _ _ _ _ _ _ _ _ _ Hcell Hyr) as [->|(e & -> & He)];
    [done|].
  apply Forall_app. split; [done|]. constructor; [|done].
  exists x, c. repeat split; try done; lia.
Qed.

(** X6. The drawing pass writes nothing but glyphs, every glyph inside
    the viewport, and every glyph a character of the table [KATAKANA]. *)
Theorem glyphs_on_screen bold maxy maxx cols g out g' :
  draw_columns bold maxy maxx cols g = Some (out, g') ->
  forall e, In e out ->
    exists y x wc t, e = EGlyph y x wc t /\
      0 <= y < maxy /\ 0 <= x < maxx /\ In wc KATAKANA.
Proof.
  intros Hd e He. apply draw_columns_spec in Hd.
  apply (proj1 (List.Forall_forall _ _) Hd) in He
    as (x & c & Hx & _ & _ & y & wc & -> & Hy & _ & Hwc).
  eexists y, x, wc, _. split; [reflexivity|]. split; [lia|]. split; [lia|done].
Qed.

Lemma glyphs_on_screen_witness :
  exists out g',
    draw_columns true 6 2 [mkColumn 1 5 d1 false; mkColumn 3 5 d1 true]
      (Rng.mk 1 0) = Some (out, g') /\
    length out = 4%nat /\
    forall e, In e out ->
      exists y x wc t, e = EGlyph y x wc t /\
        0 <= y < 6 /\ 0 <= x < 2 /\ In wc KATAKANA.
Proof.
  eexists _, _. split; [vm_compute; reflexivity|]. split; [reflexivity|].
  eapply (glyphs_on_screen true 6 2
            [mkColumn 1 5 d1 false; mkColumn 3 5 d1 true] (Rng.mk 1 0)).
  vm_compute. reflexivity.
Defined.

(** X7. Every glyph of the drawing pass belongs to an active column: it
    is on a row between the tail end and the head of the column at its
    position; it has the head tone, bold under [--bold], exactly on the
    head row, and otherwise the trail tone, dim exactly on the two rows
    next to the tail end. *)
Theorem glyphs_follow_columns bold maxy maxx cols g out g' :
  draw_columns bold maxy maxx cols g = Some (out, g') ->
  forall y x wc t, In (EGlyph y x wc t) out ->
    exists c, get cols x = Some c /\ active c = true /\
      head_y c - tail c <= y <= head_y c /\
      t = if y =? head_y c then Head bold
          else Trail (y <? head_y c - tail c + 2).
Proof.
  intros Hd y x wc t He. apply draw_columns_spec in Hd.
  apply (proj1 (List.Forall_forall _ _) Hd) in He
    as (x' & c & Hx & Hget & Hact & y' & wc' & Heq & _ & Hy & _).
  inversion Heq; subst. by exists c.
Qed.

Lemma glyphs_follow_columns_witness :
  exists out g',
    draw_columns true 6 2 [mkColumn 1 5 d1 false; mkColumn 3 5 d1 true]
      (Rng.mk 1 0) = Some (out, g') /\
    forall y x wc t, In (EGlyph y x wc t) out ->
      exists c, get [mkColumn 1 5 d1 false; mkColumn 3 5 d1 true] x = Some c /\
        active c = true /\ head_y c - tail c <= y <= head_y c /\
        t = if y =? head_y c then Head true
            else Trail (y <? head_y c - tail c + 2).
Proof.
  eexists _, _. split; [vm_compute; reflexivity|].
  eapply (glyphs_follow_columns true 6 2
            [mkColumn 1 5 d1 false; mkColumn 3 5 d1 true] (Rng.mk 1 0)).
  vm_compute. reflexivity.
Defined.

(** ** The iterations of the loop *)

(** What the drawing part of an iteration returns. *)
Lemma present_spec cfg st tr st' tr' :
  present cfg st tr = Running st' tr' ->
  (paused st = true /\ st' = st /\ tr' = tr ++ [ERefresh; ESleep]) \/
  (paused st = false /\ exists cols' g1 glyphs g2,
     update_columns cfg (maxy st) (maxx st) (cols st) (rng st) = Some (cols', g1) /\
     draw_columns (bold_head cfg) (maxy st) (maxx st) cols' g1 = Some (glyphs, g2) /\
     st' = mkState cols' (maxx st) (maxy st) false g2 /\
     tr' = tr ++ ((if fade_trail cfg then EFade (maxy st) (maxx st) else EErase)
                  :: glyphs) ++ [ERefresh; ESleep]).
Proof.
  unfold present. destruct (paused st) eqn:Hp.
  { intros Hr. inversion Hr. by left. }
  unfold simulate_and_draw.
  destruct (update_columns cfg (maxy st) (maxx st) (cols st) (rng st))
    as [[cols' g1]|] eqn:Hu; [|by rewrite bind_None].
  rewrite (bind_step _ _ _ _ _ Hu).
  destruct (draw_columns (bold_head cfg) (maxy st) (maxx st) cols' g1)
    as [[gl g2]|] eqn:Hd; [|by rewrite bind_None].
  rewrite (bind_step _ _ _ _ _ Hd). unfold ret.
  intros Hr. inversion Hr. right. split; [done|]. by exists cols', g1, gl, g2.
Qed.

(** The state that the drawing part of an iteration starts from. *)
Lemma iteration_spec cfg f st tr st' tr' :
  iteration cfg f st tr = Running st' tr' ->
  is_quit (key f) = false /\
  exists ncols g tr1,
    present cfg
      (mkState ncols (nx f) (ny f)
         (if is_pause (key f) then negb (paused st) else paused st) g) tr1
    = Running st' tr' /\
    ((resized f st = false /\ ncols = cols st /\ g = rng st /\ tr1 = tr) \/
     (resized f st = true /\ tr1 = tr ++ [EClear] /\
      exists zeros, calloc (mem f) (nx f) = Some zeros /\
        reflow cfg (cols st) (maxx st) (ny f) (nx f) zeros (rng st)
        = Some (ncols, g))).
Proof.
  unfold iteration, resized.
  destruct (is_quit (key f)); [discriminate|]. intros Hit. split; [done|].
  destruct (negb (nx f =? maxx st) || negb (ny f =? maxy st)) eqn:Hres.
  - destruct (calloc (mem f) (nx f)) as [zeros|] eqn:Hc; [|discriminate].
    destruct (reflow cfg _ _ _ _ zeros (rng st)) as [[ncols g]|] eqn:Hr;
      [|discriminate].
    exists ncols, g, (tr ++ [EClear]). split; [done|]. right.
    split; [done|]. split; [done|]. by exists zeros.
  - apply orb_false_iff in Hres as [Hx Hy].
    apply negb_false_iff, Z.eqb_eq in Hx. apply negb_false_iff, Z.eqb_eq in Hy.
    exists (cols st), (rng st), tr. rewrite Hx, Hy. split; [done|]. by left.
Qed.

Lemma loop_snoc cfg frames f : forall st tr,
  loop cfg (frames ++ [f]) st tr =
  match loop cfg frames st tr with
  | Running st' tr' => iteration cfg f st' tr'
  | o => o
  end.
Proof.
  induction frames as [|f0 frames IH]; intros st tr; simpl.
  - by destruct (iteration cfg f st tr).
  - destruct (iteration cfg f0 st tr); auto.
Qed.

Lemma glyphs_are_screen_events bold maxy maxx cols g out g' :
  draw_columns bold maxy maxx cols g = Some (out, g') ->
  Forall screen_event out.
Proof.
  intros Hd. apply draw_columns_spec in Hd.
  eapply Forall_impl; [exact Hd|].
  by intros e (x & c & _ & _ & _ & y & wc & -> & _).
Qed.

(** The events that an iteration adds, and the size it leaves. *)
Lemma iteration_running cfg f st tr st' tr' :
  iteration cfg f st tr = Running st' tr' ->
  maxx st' = nx f /\ maxy st' = ny f /\
  exists evs, tr' = tr ++ evs /\ Forall screen_event evs.
Proof.
  intros Hit. apply iteration_spec in Hit as (_ & ncols & g & tr1 & Hp & Hcase).
  assert (Htr1 : exists e1, tr1 = tr ++ e1 /\ Forall screen_event e1).
  { destruct Hcase as [(_ & _ & _ & ->)|(_ & -> & _)].
    - exists []. by rewrite app_nil_r.
    - exists [EClear]. split; [done|]. by repeat constructor. }
  destruct Htr1 as (e1 & -> & He1).
  apply present_spec in Hp
    as [(_ & -> & ->)|(_ & cols' & g1 & gl & g2 & _ & Hd & -> & ->)]; simpl.
  - split; [done|]. split; [done|].
    exists (e1 ++ [ERefresh; ESleep]). split; [by rewrite <- app_assoc|].
    apply Forall_app. split; [done|]. by repeat constructor.
  - split; [done|]. split; [done|].
    exists (e1 ++ ((if fade_trail cfg then EFade (ny f) (nx f) else EErase) :: gl)
               ++ [ERefresh; ESleep]).
    split; [by rewrite <- app_assoc|].
    apply glyphs_are_screen_events in Hd.
    apply Forall_app. split; [done|].
    apply Forall_app. split; [|by repeat constructor].
    constructor; [by destruct (fade_trail cfg)|done].
Qed.

Lemma iteration_exited cfg f st tr code tr' :
  iteration cfg f st tr = Exited code tr' ->
  code = 0 /\ tr' = tr ++ [EEndwin].
Proof.
  unfold iteration.
  destruct (is_quit (key f)); [intros Hit; by inversion Hit|].
  destruct (negb (nx f =? maxx st) || negb (ny f =? maxy st)).
  - destruct (calloc (mem f) (nx f)) as [zeros|]; [|intros Hit; by inversion Hit].
    destruct (reflow cfg _ _ _ _ zeros (rng st)) as [[ncols g]|]; [|discriminate].
    unfold present. destruct (if is_pause (key f) then _ else _); simpl;
      [discriminate|].
    by destruct (simulate_and_draw _ _ _ _ _) as [[[? ?] ?]|].
  - unfold present. simpl. destruct (if is_pause (key f) then _ else _);
      [discriminate|].
    by destruct (simulate_and_draw _ _ _ _ _) as [[[? ?] ?]|].
Qed.

Lemma loop_running cfg frames : forall st tr st' tr',
  loop cfg frames st tr = Running st' tr' ->
  exists evs, tr' = tr ++ evs /\ Forall screen_event evs.
Proof.
  induction frames as [|f frames IH]; intros st tr st' tr'; simpl.
  - intros Hl. inversion Hl. exists []. by rewrite app_nil_r.
  - destruct (iteration cfg f st tr) as [| |st1 tr1] eqn:Hit; try discriminate.
    intros Hl. apply IH in Hl as (e2 & -> & He2).
    apply iteration_running in Hit as (_ & _ & e1 & -> & He1).
    exists (e1 ++ e2). split; [by rewrite <- app_assoc|]. by apply Forall_app.
Qed.

Lemma loop_exited cfg frames : forall st tr code tr',
  loop cfg frames st tr = Exited code tr' ->
  code = 0 /\ exists evs, tr' = tr ++ evs ++ [EEndwin] /\ Forall screen_event evs.
Proof.
  induction frames as [|f frames IH]; intros st tr code tr'; simpl;
    [discriminate|].
  destruct (iteration cfg f st tr) as [c1 t1| |st1 tr1] eqn:Hit;
    try discriminate.
  - intros Hl. inversion Hl; subst.
    apply iteration_exited in Hit as [-> ->]. split; [done|]. by exists [].
  - intros Hl. apply IH in Hl as (-> & e2 & -> & He2).
    apply iteration_running in Hit as (_ & _ & e1 & -> & He1).
    split; [done|]. exists (e1 ++ e2). split; [by rewrite <- !app_assoc|].
    by apply Forall_app.
Qed.

(** X8. Whenever [main] returns, the terminal is as it was found.
    Either the arguments were refused and the usage line on [stderr] is all
    that happened; or the first allocation failed and [initscr], [endwin]
    and the message on [stderr] followed each other, with exit code 1; or
    the loop was left, with exit code 0, after one [initscr], then only
    screen output, then one [endwin] as the last event. *)
Theorem main_restores_terminal atof atoi b args frames code tr :
  main atof atoi b args frames = Exited code tr ->
  (~ accepted args /\ tr = [usage (prog b)]) \/
  (accepted args /\ code = 1 /\ tr = [EInitscr; EEndwin; oom]) \/
  (accepted args /\ code = 0 /\
   exists body, tr = EInitscr :: body ++ [EEndwin] /\ Forall screen_event body).
Proof.
  unfold main.
  destruct (parse_args atof atoi defaults args) as [cfg|c0] eqn:Hp.
  - assert (Hacc : accepted args)
      by (apply (parse_args_accepted_iff atof atoi args defaults); by exists cfg).
    intros Hrun. right. unfold run, startup in Hrun.
    destruct (calloc (mem0 b) (maxx0 b)) as [cols0|].
    + destruct (init_columns cfg (maxy0 b) 0 (maxx0 b) cols0 _) as [[cols1 g]|];
        [|discriminate].
      apply loop_exited in Hrun as (-> & evs & -> & Hevs).
      right. split; [done|]. split; [done|]. by exists evs.
    + inversion Hrun. left. by repeat split.
  - intros Hrun. inversion Hrun; subst. left. split; [|done].
    intros Hacc. apply (parse_args_accepted_iff atof atoi args defaults) in Hacc
      as [cfg Hcfg]. congruence.
Qed.

Lemma main_restores_terminal_witness :
  exists body,
    main (fun _ => d1) (fun _ => 60) (mkBoot "matrix" 12345 6 3 true)
      ["--bold"%string] [mkFrame (-1) 6 3 true; mkFrame 113 6 3 true]
    = Exited 0 (EInitscr :: body ++ [EEndwin]) /\
    Forall screen_event body.
Proof.
  destruct (main_restores_terminal (fun _ => d1) (fun _ => 60)
              (mkBoot "matrix" 12345 6 3 true) ["--bold"%string]
              [mkFrame (-1) 6 3 true; mkFrame 113 6 3 true] 0
              [EInitscr; EFade 6 3; ERefresh; ESleep; EEndwin])
    as [[_ Hu]|[(_ & Hc & _)|(_ & _ & body & Hb & Hs)]].
  - vm_compute. reflexivity.
  - discriminate.
  - discriminate.
  - exists body. split; [|exact Hs]. rewrite <- Hb. vm_compute. reflexivity.
Defined.

(** X9. While the program is paused, frames that bring neither a key
    of the program nor a new size leave the columns, the size and the
    random helper untouched: each of them only presents and sleeps. *)
Theorem paused_run_is_inert cfg frames st tr :
  paused st = true -> Forall (idle_frame st) frames ->
  loop cfg frames st tr
  = Running st (tr ++ concat (map (fun _ => [ERefresh; ESleep]) frames)).
Proof.
  intros Hp. revert tr.
  induction frames as [|f frames IH]; intros tr Hidle; simpl.
  - by rewrite app_nil_r.
  - apply Forall_cons in Hidle as [(Hq & Hk & Hx & Hy) Hidle].
    unfold iteration, present. rewrite Hq, Hk, Hx, Hy, !Z.eqb_refl. simpl.
    rewrite Hp. destruct st as [cs mx my p g]. simpl in *. subst p.
    rewrite IH by done. by rewrite <- app_assoc.
Qed.

Lemma paused_run_is_inert_witness :
  let st := mkState [mkColumn 3 7 d1 true] 1 6 true (Rng.mk 5 0) in
  loop defaults [mkFrame (-1) 6 1 true; mkFrame 120 6 1 false] st [EInitscr]
  = Running st [EInitscr; ERefresh; ESleep; ERefresh; ESleep].
Proof.
  intros st.
  apply (paused_run_is_inert defaults
           [mkFrame (-1) 6 1 true; mkFrame 120 6 1 false] st [EInitscr]).
  - reflexivity.
  - repeat constructor.
Defined.

(** ** The field and the viewport *)

Lemma run_snoc cfg b frames f :
  run cfg b (frames ++ [f]) =
  match run cfg b frames with
  | Running st tr => iteration cfg f st tr
  | o => o
  end.
Proof.
  unfold run. destruct (startup cfg b) as [| |st0 tr0]; try done.
  apply loop_snoc.
Qed.

Lemma run_field_length cfg b frames st tr :
  run cfg b frames = Running st tr ->
  Z.of_nat (length (cols st)) = maxx st.
Proof.
  intros Hrun.
  by eapply (run_inv cfg (fun _ => True) (fun _ => True)) in Hrun as (Hlen & _);
    [| | | |apply Forall_forall].
Qed.

(** X10. After every iteration the field has exactly as many columns
    as the terminal reported in that iteration, and the height of the
    state is the reported one. *)
Theorem field_tracks_viewport cfg b frames f st tr :
  run cfg b (frames ++ [f]) = Running st tr ->
  Z.of_nat (length (cols st)) = nx f /\ maxx st = nx f /\ maxy st = ny f.
Proof.
  intros Hrun. pose proof (run_field_length _ _ _ _ _ Hrun) as Hlen.
  rewrite run_snoc in Hrun.
  destruct (run cfg b frames) as [| |st0 tr0]; try discriminate.
  apply iteration_running in Hrun as (Hx & Hy & _). lia.
Qed.

Lemma field_tracks_viewport_witness :
  exists st tr,
    run defaults (mkBoot "matrix" 12345 6 3 true)
      ([mkFrame (-1) 6 3 true] ++ [mkFrame (-1) 4 5 true]) = Running st tr /\
    Z.of_nat (length (cols st)) = 5 /\ maxx st = 5 /\ maxy st = 4.
Proof.
  eexists _, _. split; [vm_compute; reflexivity|].
  eapply (field_tracks_viewport defaults (mkBoot "matrix" 12345 6 3 true)
            [mkFrame (-1) 6 3 true] (mkFrame (-1) 4 5 true)).
  vm_compute. reflexivity.
Defined.

(** X11. A resize that does not add columns keeps the first [nx]
    columns as they are and drops the others; it reads nothing from the
    random helper and is defined whatever the new height is, zero
    included. *)
Theorem reflow_shrink cfg cols maxx ny nx zeros g :
  Z.of_nat (length cols) = maxx -> nx <= maxx ->
  calloc true nx = Some zeros ->
  reflow cfg cols maxx ny nx zeros g = Some (take (Z.to_nat nx) cols, g).
Proof.
  intros Hlen Hle Hc. apply calloc_Some in Hc as (Hnx & _ & Hzlen).
  unfold reflow.
  destruct (transfer_total cols maxx nx zeros g) as (r & Hr); [lia|lia|].
  rewrite (bind_step _ _ _ _ _ Hr).
  unfold init_columns, for_loop. replace (Z.to_nat (nx - maxx)) with O by lia.
  simpl. unfold ret. f_equal. f_equal.
  apply transfer_spec in Hr as (_ & Hrlen & Hr).
  apply list_eq. intros i.
  destruct (Z_lt_le_dec (Z.of_nat i) nx) as [Hi|Hi].
  - rewrite lookup_take_lt by lia. apply (Hr i). lia.
  - rewrite lookup_take_ge by lia. apply lookup_ge_None. lia.
Qed.

Lemma reflow_shrink_witness :
  reflow defaults [mkColumn 3 7 d1 true; mkColumn 0 9 d1 false; mkColumn 1 5 d1 true]
    3 0 2 (repeat zero_column 2) (Rng.mk 1 0)
  = Some ([mkColumn 3 7 d1 true; mkColumn 0 9 d1 false], Rng.mk 1 0).
Proof.
  apply (reflow_shrink defaults
           [mkColumn 3 7 d1 true; mkColumn 0 9 d1 false; mkColumn 1 5 d1 true]
           3 0 2 (repeat zero_column 2) (Rng.mk 1 0)).
  - reflexivity.
  - lia.
  - reflexivity.
Defined.

(** ** A density that is not positive *)

Lemma ltb_signed_not_positive x y :
  Double.ltb d0 x = false -> signed false y -> Double.ltb y x = false.
Proof.
  intros Hx Hy.
  destruct y as [sy|sy| |sy my ey]; simpl in Hy; try done; subst sy;
    destruct x as [sx|sx| |sx mx ex]; try done; by destruct sx.
Qed.

Lemma signed_true_not_positive z : signed true z -> Double.ltb d0 z = false.
Proof. destruct z as [s|s| |s m e]; simpl; try done; by intros ->. Qed.

Lemma div_200_not_positive x :
  Double.ltb d0 x = false -> Double.ltb d0 (Double.div x d200) = false.
Proof.
  destruct x as [sx|sx| |sx mx ex]; try done; destruct sx; try done.
  intros _. apply signed_true_not_positive.
  unfold Double.div, SFdiv, d200.
  pose proof (div_core_nonneg mx ex 7036874417766400 (-45)) as Hq.
  destruct (SFdiv_core_binary _ _ _ _ _ _) as [[q eq] lq]. simpl in Hq.
  by apply binary_round_aux_signed.
Qed.

Section NoDensity.

Variable cfg : Config.
Hypothesis density_not_positive : Double.ltb d0 (density cfg) = false.

Lemma init_column_inactive rows g c g' :
  init_column cfg rows g = Some (c, g') -> inactive c.
Proof.
  intros Hi. unfold inactive. rewrite (init_column_active _ _ _ _ _ Hi).
  apply ltb_signed_not_positive; [done|].
  apply drand_signed, rnd32_range.
Qed.

Lemma update_column_inactive rows c g c' g' :
  inactive c -> update_column cfg rows c g = Some (c', g') -> c' = c.
Proof.
  intros Hc Hu. unfold inactive in Hc.
  apply update_column_cases in Hu as [[Hact _]|(_ & [[Hlt _]|(_ & -> & _)])];
    [congruence| |done].
  rewrite ltb_signed_not_positive in Hlt; [done| |].
  - by apply div_200_not_positive.
  - apply drand_signed, rnd32_range.
Qed.

Lemma iteration_no_glyph f st tr st' tr' :
  field_inv inactive (fun _ => True) st -> Forall no_glyph tr ->
  iteration cfg f st tr = Running st' tr' ->
  field_inv inactive (fun _ => True) st' /\ Forall no_glyph tr'.
Proof.
  intros Hinv Htr Hit.
  assert (Hinv' : field_inv inactive (fun _ => True) st').
  { eapply (iteration_inv cfg inactive (fun _ => True)); [| |exact Hinv|done|exact Hit].
    - intros rows g c g' _. apply init_column_inactive.
    - intros rows g c c' g' _ Hc Hu.
      by rewrite (update_column_inactive _ _ _ _ _ Hc Hu). }
  split; [done|].
  apply iteration_spec in Hit as (_ & ncols & g & tr1 & Hp & Hcase).
  assert (Htr1 : Forall no_glyph tr1).
  { destruct Hcase as [(_ & _ & _ & ->)|(_ & -> & _)]; [done|].
    apply Forall_app. split; [done|]. by repeat constructor. }
  apply present_spec in Hp
    as [(_ & _ & ->)|(_ & cols' & g1 & gl & g2 & _ & Hd & Hst & ->)].
  - apply Forall_app. split; [done|]. by repeat constructor.
  - apply Forall_app. split; [done|].
    apply Forall_app. split; [|by repeat constructor].
    constructor; [by destruct (fade_trail cfg)|].
    destruct Hinv' as (_ & Hq & _). rewrite Hst in Hq. simpl in Hq.
    apply draw_columns_spec in Hd.
    eapply Forall_impl; [exact Hd|].
    intros e (x & c & _ & Hget & Hact & _).
    apply get_Some in Hget as [_ Hget].
    pose proof (Forall_lookup_1 _ _ _ _ Hq Hget) as Hin.
    unfold inactive in Hin. congruence.
Qed.

Lemma loop_no_glyph frames : forall st tr st' tr',
  field_inv inactive (fun _ => True) st -> Forall no_glyph tr ->
  loop cfg frames st tr = Running st' tr' ->
  field_inv inactive (fun _ => True) st' /\ Forall no_glyph tr'.
Proof.
  induction frames as [|f frames IH]; intros st tr st' tr' Hinv Htr; simpl.
  - intros Hl. by inversion Hl; subst.
  - destruct (iteration cfg f st tr) as [| |st1 tr1] eqn:Hit; try discriminate.
    destruct (iteration_no_glyph _ _ _ _ _ Hinv Htr Hit) as [Hinv1 Htr1].
    by apply IH.
Qed.

End NoDensity.

(** X12. With a density that is not positive (0 after the clamp of
    line 76, or a NaN) it never rains: in every state that a run reaches
    no column is active, and no glyph has been written to the screen. *)
Theorem no_rain_without_density cfg b frames st tr :
  Double.ltb d0 (density cfg) = false ->
  run cfg b frames = Running st tr ->
  Forall inactive (cols st) /\ Forall no_glyph tr.
Proof.
  intros Hd. unfold run.
  destruct (startup cfg b) as [| |st0 tr0] eqn:Hs; try discriminate.
  intros Hl.
  assert (Hinv0 : field_inv inactive (fun _ => True) st0).
  { eapply (startup_inv cfg inactive (fun _ => True)); [|done|exact Hs].
    intros rows g c g' _. by apply init_column_inactive. }
  assert (Htr0 : Forall no_glyph tr0).
  { unfold startup in Hs. destruct (calloc _ _); [|discriminate].
    destruct (init_columns _ _ _ _ _ _) as [[? ?]|]; [|discriminate].
    inversion Hs. by repeat constructor. }
  destruct (loop_no_glyph cfg Hd frames _ _ _ _ Hinv0 Htr0 Hl) as [(_ & Hq & _) Htr].
  by split.
Qed.

Lemma no_rain_without_density_witness :
  exists st tr,
    run (mkConfig d1 d0 false true 60) (mkBoot "matrix" 12345 6 3 true)
      [mkFrame (-1) 6 3 true; mkFrame (-1) 5 4 true] = Running st tr /\
    Forall inactive (cols st) /\ Forall no_glyph tr.
Proof.
  eexists _, _. split; [vm_compute; reflexivity|].
  eapply (no_rain_without_density (mkConfig d1 d0 false true 60)
            (mkBoot "matrix" 12345 6 3 true)
            [mkFrame (-1) 6 3 true; mkFrame (-1) 5 4 true]).
  - reflexivity.
  - vm_compute. reflexivity.
Defined.

(** ** The tail of an active column *)

Lemma update_column_tail_on_screen cfg rows c g c' g' :
  rows_ok rows -> update_column cfg rows c g = Some (c', g') ->
  tail_on_screen rows c'.
Proof.
  intros Hrows Hu Hact. pose proof Hrows as [Hr0 _].
  apply update_column_cases in Hu
    as [(_ & h & g1 & _ & [[_ Hr]|(Hoff & -> & _)])|(Hin & [[_ Hs]|(_ & -> & _)])].
  - unfold reset_column in Hr.
    apply bind_Some in Hr as (a & g2 & _ & Hr).
    apply bind_Some in Hr as (h1 & g3 & Hh & Hr).
    apply bind_Some in Hr as (t & g4 & Ht & Hr).
    apply bind_Some in Hr as (s & g5 & _ & Hr).
    apply ret_Some in Hr as [-> _]. simpl.
    apply roll_head_nonpositive in Hh; [|done]. apply roll_tail_ok in Ht. lia.
  - simpl. unfold tail_off_screen in Hoff.
    destruct (chk (h - tail c)) as [d|] eqn:Hd; [|discriminate].
    apply chk_Some in Hd as [-> _]. inversion Hoff as [Hlt].
    apply Z.ltb_ge in Hlt. lia.
  - unfold start_column in Hs.
    apply bind_Some in Hs as (h1 & g3 & Hh & Hs).
    apply bind_Some in Hs as (t & g4 & Ht & Hs).
    apply bind_Some in Hs as (s & g5 & _ & Hs).
    apply ret_Some in Hs as [-> _]. simpl.
    apply roll_head_nonpositive in Hh; [|done]. apply roll_tail_ok in Ht. lia.
  - congruence.
Qed.

(** X13. After an iteration that was not paused, no active column
    has its whole trail below the viewport: the row of its tail end is at
    most the height. A column whose tail left the viewport was reset in
    the same pass, before anything was drawn. *)
Theorem tails_on_screen_after_update cfg b frames f st tr :
  rows_ok (ny f) ->
  run cfg b (frames ++ [f]) = Running st tr -> paused st = false ->
  Forall (tail_on_screen (maxy st)) (cols st).
Proof.
  intros Hrows Hrun Hp. rewrite run_snoc in Hrun.
  destruct (run cfg b frames) as [| |st0 tr0] eqn:Hrun0; try discriminate.
  pose proof (run_field_length _ _ _ _ _ Hrun0) as Hlen0.
  apply iteration_spec in Hrun as (_ & ncols & g & tr1 & Hpres & Hcase).
  assert (Hlen : Z.of_nat (length ncols) = nx f).
  { destruct Hcase as [(Hres & -> & _ & _)|(_ & _ & zeros & Hc & Hr)].
    - unfold resized in Hres. apply orb_false_iff in Hres as [Hx _].
      apply negb_false_iff, Z.eqb_eq in Hx. lia.
    - apply calloc_Some in Hc as (Hnx & _ & Hzlen).
      unfold reflow in Hr. apply bind_Some in Hr as (n1 & g1 & Ht & Hi).
      apply transfer_spec in Ht as (_ & Hl1 & _).
      apply init_columns_spec in Hi as (Hl2 & _). lia. }
  apply present_spec in Hpres
    as [(Hp1 & -> & _)|(_ & cols' & g1 & gl & g2 & Hu & _ & -> & _)].
  { simpl in Hp, Hp1. congruence. }
  simpl in *. apply update_columns_spec in Hu as [Hlen' Hu].
  apply Forall_lookup. intros i c' Hc'.
  destruct (lookup_lt_is_Some_2 ncols i) as [c Hc].
  { rewrite <- Hlen'. by eapply lookup_lt_Some. }
  destruct (Hu i c Hc) as [Hlo _].
  destruct Hlo as (gi & gi' & c1 & Hupd & Hc1).
  { apply lookup_lt_Some in Hc. lia. }
  rewrite Hc' in Hc1. inversion Hc1; subst c1.
  by eapply update_column_tail_on_screen.
Qed.

Lemma tails_on_screen_after_update_witness :
  exists st tr,
    run defaults (mkBoot "matrix" 12345 6 3 true)
      ([mkFrame (-1) 6 3 true] ++ [mkFrame (-1) 4 5 true]) = Running st tr /\
    Forall (tail_on_screen (maxy st)) (cols st).
Proof.
  eexists _, _. split; [vm_compute; reflexivity|].
  eapply (tails_on_screen_after_update defaults (mkBoot "matrix" 12345 6 3 true)
            [mkFrame (-1) 6 3 true] (mkFrame (-1) 4 5 true)).
  - unfold rows_ok, INT_MAX. simpl. lia.
  - vm_compute. reflexivity.
  - reflexivity.
Defined.

(** ** Runs without undefined behaviour *)

Lemma speed_of_sane cfg u :
  sane_speed (speed_mul cfg) -> 0 <= u < 2 ^ 32 ->
  normal (-1074) (-23) (speed_of cfg u).
Proof.
  intros Hmul Hu. unfold speed_of.
  apply (mul_normal (-54) (-46) (-1072) (-31));
    [by apply base_speed_normal|done|lia|lia].
Qed.

(** The integer part of a sane speed is an [int] up to [2^30]. *)
Lemma to_int_sane x :
  normal (-1074) (-23) x -> exists k, Double.to_int x = Some k /\ 0 <= k <= 2 ^ 30.
Proof.
  intros (m & e & -> & Hm & He). unfold Double.to_int, Double.trunc.
  destruct e as [|p|p]; try lia.
  rewrite Z.shiftr_div_pow2 by lia.
  assert (Hp : 2 ^ 23 <= 2 ^ Zpos p) by (apply Z.pow_le_mono_r; lia).
  assert (Hk : 0 <= Zpos m / 2 ^ Zpos p <= 2 ^ 30).
  { split; [apply Z.div_pos; lia|].
    apply Z.div_le_upper_bound; [lia|]. nia. }
  exists (Zpos m / 2 ^ Zpos p). split; [|done].
  apply chk_in. unfold INT_MIN, INT_MAX. lia.
Qed.

Lemma head_step_sane c g :
  normal (-1074) (-23) (speed c) ->
  exists k g1, head_step c g = Some (k, g1) /\ 0 <= k <= 2 ^ 30.
Proof.
  intros Hs. unfold head_step. destruct (Double.ltb (speed c) d1).
  - rewrite (bind_step _ _ _ _ _ (drand_Some g)).
    eexists _, _. split; [reflexivity|]. destruct (Double.ltb _ _); lia.
  - destruct (to_int_sane _ Hs) as (k & Hk & Hr).
    exists k, g. unfold lift. by rewrite Hk.
Qed.

Section Sane.

Variable cfg : Config.
Hypothesis sane_multiplier : sane_speed (speed_mul cfg).

Lemma fresh_column_sane rows ua ut us uh :
  sane_rows rows -> 0 <= us < 2 ^ 32 ->
  sane_column (fresh_column cfg rows ua ut us uh).
Proof.
  intros [Hr0 Hr1] Hus.
  destruct (fresh_column_drawn cfg rows ua ut us uh Hr0) as [Hh Ht].
  split; [lia|]. split; [done|]. by apply speed_of_sane.
Qed.

Lemma sane_rows_int rows : sane_rows rows -> 0 < rows <= INT_MAX.
Proof. unfold sane_rows, INT_MAX. lia. Qed.

Lemma init_column_sane rows g :
  sane_rows rows ->
  exists c g', init_column cfg rows g = Some (c, g') /\ sane_column c.
Proof.
  intros Hrows. rewrite init_column_fresh by by apply sane_rows_int.
  eexists _, _. split; [reflexivity|].
  apply fresh_column_sane; [done|apply rnd32_range].
Qed.

Lemma init_column_Some_sane rows g c g' :
  sane_rows rows -> init_column cfg rows g = Some (c, g') -> sane_column c.
Proof.
  intros Hrows Hi. destruct (init_column_sane rows g Hrows) as (c0 & g0 & H0 & Hs).
  rewrite Hi in H0. by inversion H0; subst.
Qed.

Lemma reset_column_sane rows g :
  sane_rows rows ->
  exists c g', reset_column cfg rows g = Some (c, g') /\ sane_column c.
Proof.
  intros Hrows. rewrite reset_column_fresh by by apply sane_rows_int.
  eexists _, _. split; [reflexivity|].
  apply fresh_column_sane; [done|apply rnd32_range].
Qed.

Lemma start_column_sane rows g :
  sane_rows rows ->
  exists c g', start_column cfg rows g = Some (c, g') /\ sane_column c.
Proof.
  intros Hrows. pose proof (sane_rows_int _ Hrows) as Hint. unfold start_column.
  rewrite (bind_step _ _ _ _ _ (roll_head_value rows g Hint)).
  rewrite (bind_step _ _ _ _ _ (roll_tail_value _)).
  rewrite (bind_step _ _ _ _ _ (roll_speed_value cfg _)).
  eexists _, _. split; [reflexivity|].
  destruct Hrows as [Hr0 Hr1].
  pose proof (Z.mod_pos_bound (draw g) rows ltac:(lia)).
  pose proof (Z.mod_pos_bound (draw (next g)) 20 ltac:(lia)).
  split; simpl; [lia|]. split; [unfold tail_ok; simpl; lia|].
  apply speed_of_sane; [done|apply rnd32_range].
Qed.

(** The update of a sane column is defined and gives a sane column. *)
Lemma update_column_sane rows c g :
  sane_rows rows -> sane_column c ->
  exists c' g', update_column cfg rows c g = Some (c', g') /\ sane_column c'.
Proof.
  intros Hrows (Hh & Ht & Hs). pose proof Hrows as [Hr0 Hr1].
  unfold update_column. destruct (active c) eqn:Hact.
  - destruct (head_step_sane c g Hs) as (k & g1 & Hk & Hkr).
    unfold tail_ok in Ht.
    assert (Hadv : advance_head c g = Some (head_y c + k, g1)).
    { unfold advance_head. rewrite (bind_step _ _ _ _ _ Hk).
      unfold lift. by rewrite chk_in by (unfold INT_MIN, INT_MAX; lia). }
    rewrite (bind_step _ _ _ _ _ Hadv).
    assert (Hoff : tail_off_screen rows c (head_y c + k)
                   = Some (rows <? head_y c + k - tail c)).
    { unfold tail_off_screen.
      by rewrite chk_in by (unfold INT_MIN, INT_MAX; lia). }
    unfold lift at 1. rewrite Hoff. unfold bind at 1.
    destruct (Z.ltb_spec rows (head_y c + k - tail c)) as [Hout|Hon].
    + by apply reset_column_sane.
    + eexists _, _. split; [reflexivity|].
      split; simpl; [lia|]. by split.
  - rewrite (bind_step _ _ _ _ _ (drand_Some g)).
    destruct (Double.ltb _ _).
    + by apply start_column_sane.
    + eexists _, _. split; [reflexivity|]. exact (conj Hh (conj Ht Hs)).
Qed.

Lemma update_column_Some_sane rows c g c' g' :
  sane_rows rows -> sane_column c ->
  update_column cfg rows c g = Some (c', g') -> sane_column c'.
Proof.
  intros Hrows Hc Hu.
  destruct (update_column_sane rows c g Hrows Hc) as (c0 & g0 & H0 & Hs).
  rewrite Hu in H0. by inversion H0; subst.
Qed.

Lemma update_columns_defined maxy maxx cols g :
  sane_rows maxy -> Z.of_nat (length cols) = maxx -> Forall sane_column cols ->
  exists r g', update_columns cfg maxy maxx cols g = Some (r, g').
Proof.
  intros Hrows Hlen Hcols. unfold update_columns, for_loop.
  apply (for_range_total
           (fun _ b => length b = length cols /\ Forall sane_column b));
    [|done].
  intros y b gb Hy [Hbl Hb].
  destruct (lookup_lt_is_Some_2 b (Z.to_nat y) ltac:(lia)) as [c Hc].
  assert (Hget : get b y = Some c) by (apply get_Some; split; [lia|done]).
  destruct (update_column_sane maxy c gb Hrows (Forall_lookup_1 _ _ _ _ Hb Hc))
    as (c' & g' & Hu & Hs').
  exists (<[Z.to_nat y := c']> b), g'. split.
  - unfold lift at 1. rewrite Hget. unfold bind at 1.
    rewrite (bind_step _ _ _ _ _ Hu).
    assert (Hset : set b y c' = Some (<[Z.to_nat y := c']> b))
      by (apply set_Some; split; [done|lia]).
    unfold lift. by rewrite Hset.
  - split; [by rewrite length_insert|]. by apply Forall_insert.
Qed.

(** Drawing one row of a sane column is defined. *)
Lemma draw_cell_defined bold maxy x c y out g :
  sane_column c -> head_y c - tail c <= y <= head_y c ->
  exists out' g', draw_cell bold maxy x c y out g = Some (out', g').
Proof.
  intros (Hh & Ht & _) Hy. unfold tail_ok in Ht. unfold draw_cell.
  destruct ((y <? 0) || (maxy <=? y)); [by eexists _, _|].
  rewrite (bind_step _ _ _ _ _
             (irand_value (Z.of_nat (length KATAKANA)) g
                ltac:(unfold INT_MAX; simpl; lia))).
  pose proof (Z.mod_pos_bound (draw g) (Z.of_nat (length KATAKANA))
                ltac:(simpl; lia)) as Hi.
  set (i := draw g mod Z.of_nat (length KATAKANA)) in *.
  destruct (Z.ltb_spec i 0) as [|_]; [lia|].
  destruct (lookup_lt_is_Some_2 KATAKANA (Z.to_nat i) ltac:(lia)) as [wc Hwc].
  rewrite Hwc. unfold lift at 1. unfold bind at 1.
  destruct (y =? head_y c); [by eexists _, _|].
  rewrite !chk_in by (unfold INT_MIN, INT_MAX; lia).
  by eexists _, _.
Qed.

Lemma draw_columns_defined bold maxy maxx cols g :
  Z.of_nat (length cols) = maxx -> Forall sane_column cols ->
  exists out g', draw_columns bold maxy maxx cols g = Some (out, g').
Proof.
  intros Hlen Hcols. unfold draw_columns, for_loop.
  apply (for_range_total (fun _ _ => True)); [|done].
  intros x out gx Hx _.
  destruct (lookup_lt_is_Some_2 cols (Z.to_nat x) ltac:(lia)) as [c Hc].
  assert (Hget : get cols x = Some c) by (apply get_Some; split; [lia|done]).
  pose proof (Forall_lookup_1 _ _ _ _ Hcols Hc) as Hsane.
  pose proof Hsane as (Hh & Ht & _). unfold tail_ok in Ht.
  unfold lift at 1. rewrite Hget. unfold bind at 1.
  destruct (active c); simpl; [|by exists out, gx].
  rewrite !chk_in by (unfold INT_MIN, INT_MAX; lia).
  unfold lift at 1. unfold bind at 1.
  destruct (Z.leb_spec (head_y c - tail c) (head_y c)) as [_|]; [|lia].
  unfold lift at 1. unfold bind at 1.
  destruct (for_range_total (fun _ (_ : trace) => True)
              (draw_cell bold maxy x c)
              (Z.to_nat (head_y c + 1 - (head_y c - tail c)))
              (head_y c - tail c) out gx) as (o' & g' & Ho); [|done|].
  - intros y o gy Hy _.
    destruct (draw_cell_defined bold maxy x c y o gy Hsane ltac:(lia))
      as (o1 & g1 & H1).
    by exists o1, g1.
  - by exists o', g'.
Qed.

Lemma present_defined st tr :
  field_inv sane_column sane_rows st ->
  forall tr', present cfg st tr <> Undefined tr'.
Proof.
  intros (Hlen & Hcols & Hrows) tr'. unfold present.
  destruct (paused st); [done|]. unfold simulate_and_draw.
  destruct (update_columns_defined (maxy st) (maxx st) (cols st) (rng st)
              Hrows Hlen Hcols) as (r & g1 & Hu).
  rewrite (bind_step _ _ _ _ _ Hu).
  assert (Hr : Z.of_nat (length r) = maxx st /\ Forall sane_column r).
  { apply update_columns_result in Hu as [Hl Hu]. split; [lia|].
    apply Forall_lookup. intros i c' Hc'.
    destruct (Hu i c' Hc') as (c & Hc & [->|(gi & gi' & Hupd)]).
    - by eapply Forall_lookup_1.
    - eapply update_column_Some_sane; [done| |exact Hupd].
      by eapply Forall_lookup_1. }
  destruct Hr as [Hrl Hrs].
  destruct (draw_columns_defined (bold_head cfg) (maxy st) (maxx st) r g1 Hrl Hrs)
    as (out & g2 & Hd).
  by rewrite (bind_step _ _ _ _ _ Hd).
Qed.

Lemma iteration_defined f st tr :
  field_inv sane_column sane_rows st -> sane_rows (ny f) ->
  forall tr', iteration cfg f st tr <> Undefined tr'.
Proof.
  intros Hinv Hrows tr'. unfold iteration.
  destruct (is_quit (key f)); [done|].
  destruct (negb (nx f =? maxx st) || negb (ny f =? maxy st)) eqn:Hres.
  - destruct (calloc (mem f) (nx f)) as [zeros|] eqn:Hc; [|done].
    pose proof Hc as Hc'. apply calloc_Some in Hc' as (Hnx & _ & Hzlen).
    pose proof Hinv as (Hlen & Hcols & _).
    assert (Hex : exists r g',
              reflow cfg (cols st) (maxx st) (ny f) (nx f) zeros (rng st)
              = Some (r, g')).
    { unfold reflow.
      destruct (transfer_total (cols st) (maxx st) (nx f) zeros (rng st))
        as (n1 & Ht); [lia|lia|].
      rewrite (bind_step _ _ _ _ _ Ht).
      apply transfer_spec in Ht as (_ & Hl1 & _).
      apply init_columns_total; [by apply sane_rows_int|lia|lia]. }
    destruct Hex as (r & g' & Hr). rewrite Hr.
    apply present_defined.
    eapply (reflow_inv cfg sane_column sane_rows); [| |done|exact Hc|exact Hr].
    + intros rows g c g1. apply init_column_Some_sane.
    + exact Hinv.
  - apply present_defined. exact Hinv.
Qed.

End Sane.

(** X14. A run has no undefined behaviour when the speed multiplier is
    between [2^-1020] and [2^22] (the default 1.0 is) and every height that
    the terminal reports is between 1 and [2^29]: whatever the density, the
    widths, the keys, the seed and the answers of the allocator, no
    division by zero, signed overflow, out-of-range conversion or access
    outside the arrays is reached. *)
Theorem sane_run_is_defined cfg b frames :
  sane_speed (speed_mul cfg) -> sane_rows (maxy0 b) ->
  Forall (fun f => sane_rows (ny f)) frames ->
  forall tr, run cfg b frames <> Undefined tr.
Proof.
  intros Hmul Hb Hframes.
  induction frames as [|f frames IH] using rev_ind; intros tr.
  - unfold run, startup.
    destruct (calloc (mem0 b) (maxx0 b)) as [cols0|] eqn:Hc; [|done].
    apply calloc_Some in Hc as (Hx & _ & Hlen).
    destruct (init_columns_total cfg (maxy0 b) 0 (maxx0 b) cols0 (Rng.mk 0 (seed b)))
      as (r & g' & Hr); [by apply sane_rows_int|lia|lia|].
    by rewrite Hr.
  - apply Forall_app in Hframes as [Hframes Hf].
    apply Forall_cons in Hf as [Hf _].
    rewrite run_snoc.
    destruct (run cfg b frames) as [| |st0 tr0] eqn:Hrun; [done|by apply IH|].
    apply iteration_defined; [done| |done].
    eapply (run_inv cfg sane_column sane_rows); [| |exact Hb|exact Hframes|exact Hrun].
    + intros rows g c g1. by apply init_column_Some_sane.
    + intros rows g c c' g1. by apply update_column_Some_sane.
Qed.

Lemma sane_run_is_defined_witness :
  run defaults (mkBoot "matrix" 12345 6 3 true)
    [mkFrame (-1) 6 3 true; mkFrame (-1) 4 5 true] <> Undefined [EInitscr].
Proof.
  assert (Hmul : sane_speed (speed_mul defaults)).
  { exists 4503599627370496%positive, (-52). split; [reflexivity|]. lia. }
  assert (Hrows : sane_rows (maxy0 (mkBoot "matrix" 12345 6 3 true))).
  { unfold sane_rows. simpl. lia. }
  assert (Hframes : Forall (fun f => sane_rows (ny f))
                      [mkFrame (-1) 6 3 true; mkFrame (-1) 4 5 true]).
  { repeat constructor; unfold sane_rows; simpl; lia. }
  exact (sane_run_is_defined defaults (mkBoot "matrix" 12345 6 3 true)
           [mkFrame (-1) 6 3 true; mkFrame (-1) 4 5 true]
           Hmul Hrows Hframes [EInitscr]).
Defined.

(** ** The frame interval *)

Lemma frame_nsec_in_range cfg :
  10 <= target_fps cfg <= 240 ->
  frame_nsec cfg = Some (1000000000 / target_fps cfg).
Proof.
  intros Hfps. unfold frame_nsec. generalize dependent (target_fps cfg).
  intros n Hn.
  assert (Hall :
    forallb (fun k : nat =>
               let n := 10 + Z.of_nat k in
               match to_long (Double.mul (Double.div d1 (Double.of_Z n)) d1e9) with
               | Some z => z =? 1000000000 / n
               | None => false
               end) (seq 0 231) = true) by (vm_compute; reflexivity).
  rewrite List.forallb_forall in Hall.
  specialize (Hall (Z.to_nat (n - 10))). cbv zeta in Hall.
  replace (10 + Z.of_nat (Z.to_nat (n - 10))) with n in Hall by lia.
  assert (Hin : In (Z.to_nat (n - 10)) (seq 0 231)) by (apply List.in_seq; lia).
  specialize (Hall Hin).
  destruct (to_long _) as [z|]; [|discriminate].
  f_equal. by apply Z.eqb_eq.
Qed.

Lemma parse_args_fps_range atof atoi args cfg :
  parse_args atof atoi defaults args = Options cfg ->
  10 <= target_fps cfg <= 240.
Proof.
  apply (parse_args_keeps atof atoi (fun c => 10 <= target_fps c <= 240));
    try (by intros c v Hc).
  - intros c v _. apply clamp_fps_range.
  - simpl. lia.
Qed.

(** X15. Whatever the arguments, the interval that the loop sleeps in
    every iteration is defined and is a valid [tv_nsec]: the product
    [frame_time*1e9] of line 109, rounded twice in [double], still has
    [10^9 / fps] for its integer part, the 60th of a second by default and
    between 4166666 ns (240 frames per second) and a tenth of a second
    (10 frames per second) in any case. *)
Theorem frame_interval atof atoi args cfg :
  parse_args atof atoi defaults args = Options cfg ->
  frame_nsec cfg = Some (1000000000 / target_fps cfg) /\
  4166666 <= 1000000000 / target_fps cfg <= 100000000.
Proof.
  intros Hp. apply parse_args_fps_range in Hp.
  split; [by apply frame_nsec_in_range|].
  split.
  - apply Z.div_le_lower_bound; lia.
  - apply Z.div_le_upper_bound; lia.
Qed.

Lemma frame_interval_witness :
  frame_nsec (mkConfig d1 d0_25 false true 240) = Some (1000000000 / 240) /\
  4166666 <= 1000000000 / 240 <= 100000000.
Proof.
  apply (frame_interval (fun _ => d1) (fun _ => 1000) ["--fps"; "1000"]%string).
  vm_compute. reflexivity.
Defined.

(** ** Leaving the loop *)

Lemma loop_app cfg frames rest : forall st tr,
  loop cfg (frames ++ rest) st tr =
  match loop cfg frames st tr with
  | Running st' tr' => loop cfg rest st' tr'
  | o => o
  end.
Proof.
  induction frames as [|f frames IH]; intros st tr; simpl; [done|].
  by destruct (iteration cfg f st tr) as [| |st1 tr1].
Qed.

Lemma run_app cfg b frames rest :
  run cfg b (frames ++ rest) =
  match run cfg b frames with
  | Running st tr => loop cfg rest st tr
  | o => o
  end.
Proof.
  unfold run. destruct (startup cfg b) as [| |st0 tr0]; try done.
  apply loop_app.
Qed.

(** X16. The keys [q] and ESC end the program before anything else of
    the frame is looked at: whatever size the terminal has by then,
    whether or not memory is left, and whatever would follow, the run ends
    with exit code 0, having added nothing but [endwin] to what it had done
    before. *)
Theorem quit_ends_run cfg b frames f rest st tr :
  run cfg b frames = Running st tr -> is_quit (key f) = true ->
  run cfg b (frames ++ f :: rest) = Exited 0 (tr ++ [EEndwin]).
Proof.
  intros Hrun Hq. rewrite run_app, Hrun. simpl.
  unfold iteration. by rewrite Hq.
Qed.

Lemma quit_ends_run_witness :
  run defaults (mkBoot "matrix" 12345 6 3 true)
    ([mkFrame (-1) 6 3 true] ++ mkFrame 27 0 (-1) false :: [mkFrame (-1) 6 3 true])
  = Exited 0 ([EInitscr; EFade 6 3; ERefresh; ESleep] ++ [EEndwin]).
Proof.
  apply (quit_ends_run defaults (mkBoot "matrix" 12345 6 3 true)
           [mkFrame (-1) 6 3 true] (mkFrame 27 0 (-1) false)
           [mkFrame (-1) 6 3 true]
           (mkState
              [mkColumn (-2) 12 (S754_finite false 7100268238210676 (-52)) true;
               mkColumn (-2) 11 (S754_finite false 6506960629944638 (-52)) false;
               mkColumn (-5) 15 (S754_finite false 5901896683681726 (-53)) false]
              3 6 false (Rng.mk 11841511167577484146 12345))).
  - vm_compute. reflexivity.
  - reflexivity.
Defined.

(** ** Witnesses of the properties of the draws and of the fall *)

Lemma monotonic_fall_when_defined_witness :
  let c := mkColumn 3 7 d1 true in
  let g := Rng.mk 1 0 in
  (exists h g1, advance_head c g = Some (h, g1) /\
                tail_off_screen 24 c h = Some true) \/
  (exists k, mkColumn 4 7 d1 true
             = mkColumn (head_y c + k) (tail c) (speed c) (active c) /\
     0 <= k /\
     (Double.ltb (speed c) d1 = true -> k = 0 \/ k = 1) /\
     (Double.ltb (speed c) d1 = false ->
        Double.trunc (speed c) = Some k /\ 1 <= k)).
Proof.
  intros c g.
  apply (monotonic_fall_when_defined defaults 24 c g (mkColumn 4 7 d1 true) g);
    vm_compute; reflexivity.
Defined.

Lemma full_density_active_unless_max_witness :
  active (mkColumn (-21) 12 (S754_finite false 7100268238210676 (-52)) true)
  = true <-> draw (Rng.mk 0 12345) <> UINT32_MAX.
Proof.
  apply (full_density_active_unless_max (mkConfig d1 d1 false true 60) 24
           (Rng.mk 0 12345) _ (Rng.mk 1264299559530921381 12345)).
  - reflexivity.
  - vm_compute. reflexivity.
Defined.
